(** * apofasi/socks: a SOCKS5 server, shallowly embedded

    The sources hold two implementations of the server:

    - [Server]: [src/server.ts], the second and shipped one, which decodes
      frames with the positional [BinaryReader] of [src/binary.ts];
    - [StreamServer]: the first one, which drives every frame through a chain
      of the [binary] package, consults the connection filter and publishes
      the events of the [EVENTS] table.

    Both are embedded over one model of the parts of Node they touch: byte
    buffers, a socket that takes writes until it is ended, callbacks that
    report through [done], and promises that settle or stay pending. *)

From Stdlib Require Import ZArith Lia String List HexadecimalString.
From Stdlib.Strings Require Import Byte.
From stdpp Require Import base option list gmap strings pretty.

Open Scope Z_scope.

(** ** constants.ts *)

Module RFC_1928_ATYP.
Definition DOMAINNAME : Z := 0x03.
Definition IPV4 : Z := 0x01.
Definition IPV6 : Z := 0x04.
End RFC_1928_ATYP.

Module RFC_1928_COMMANDS.
Definition BIND : Z := 0x02.
Definition CONNECT : Z := 0x01.
Definition UDP_ASSOCIATE : Z := 0x03.
End RFC_1928_COMMANDS.

Module RFC_1928_METHODS.
Definition BASIC_AUTHENTICATION : Z := 0x02.
Definition NO_ACCEPTABLE_METHODS : Z := 0xff.
Definition NO_AUTHENTICATION_REQUIRED : Z := 0x00.
End RFC_1928_METHODS.

Module RFC_1928_REPLIES.
Definition ADDRESS_TYPE_NOT_SUPPORTED : Z := 0x08.
Definition COMMAND_NOT_SUPPORTED : Z := 0x07.
Definition CONNECTION_NOT_ALLOWED : Z := 0x02.
Definition CONNECTION_REFUSED : Z := 0x05.
Definition GENERAL_FAILURE : Z := 0x01.
Definition HOST_UNREACHABLE : Z := 0x04.
Definition NETWORK_UNREACHABLE : Z := 0x03.
Definition SUCCEEDED : Z := 0x00.
Definition TTL_EXPIRED : Z := 0x06.
End RFC_1928_REPLIES.

Definition RFC_1928_VERSION : Z := 0x05.

Module RFC_1929_REPLIES.
Definition GENERAL_FAILURE : Z := 0xff.
Definition SUCCEEDED : Z := 0x00.
End RFC_1929_REPLIES.

Definition RFC_1929_VERSION : Z := 0x01.

(** ** Node's Buffer

    A buffer is its bytes.  Reading a byte gives a number in 0..255; storing a
    number keeps its low eight bits, as a [Uint8Array] does. *)

Definition Buffer : Type := list byte.

Definition byte_val (b : byte) : Z := Z.of_N (Byte.to_N b).

Definition byte_of (n : Z) : byte :=
  match Byte.of_N (Z.to_N (n mod 256)) with
  | Some b => b
  | None => x00
  end.

(** What an uncaught JavaScript exception carries.  The only one the decoders
    raise is the [RangeError] of an out-of-bounds read. *)
Inductive Exception : Type :=
| RangeError.

Inductive result (A : Type) : Type :=
| Ok (a : A)
| Throw (e : Exception).
Arguments Ok {A} a.
Arguments Throw {A} e.

#[global] Instance result_ret : MRet result := fun A a => Ok a.
#[global] Instance result_bind : MBind result := fun A B f m =>
  match m with
  | Ok a => f a
  | Throw e => Throw e
  end.

Definition is_Ok {A} (r : result A) : bool :=
  match r with Ok _ => true | Throw _ => false end.

Module Buf.

(** [buf[i]]: [undefined] (here [None]) outside the buffer. *)
Definition index (buf : Buffer) (i : nat) : option Z := byte_val <$> buf !! i.

(** [buf[i] = v]: ignored outside the buffer. *)
Definition set (buf : Buffer) (i : nat) (v : Z) : Buffer := <[i := byte_of v]> buf.

(** [buf.subarray(start, end)]: both ends are clamped to the buffer. *)
Definition subarray (buf : Buffer) (start stop : nat) : Buffer :=
  take (stop - start) (drop start buf).

(** [buf.subarray(start)]. *)
Definition subarray_from (buf : Buffer) (start : nat) : Buffer := drop start buf.

(** Big-endian value of a run of bytes. *)
Definition be (bs : list byte) : Z :=
  fold_left (fun acc b => acc * 256 + byte_val b) bs 0.

(** [buf.readUInt8(offset)], [readUInt16BE], [readUInt32BE]: a read that
    does not fit in the buffer raises a RangeError. *)
Definition readUIntBE (width : nat) (buf : Buffer) (offset : nat) : result Z :=
  if decide (offset + width <= length buf)%nat
  then Ok (be (take width (drop offset buf)))
  else Throw RangeError.

Definition readUInt8 := readUIntBE 1.
Definition readUInt16BE := readUIntBE 2.
Definition readUInt32BE := readUIntBE 4.

(** [source.copy(target, targetStart, sourceStart)]: the bytes of [source]
    from [sourceStart] overwrite [target] from [targetStart], as many as fit. *)
Definition copy (source target : Buffer) (targetStart sourceStart : nat) : Buffer :=
  let chunk := take (length target - targetStart) (drop sourceStart source) in
  take targetStart target ++ chunk ++ drop (targetStart + length chunk) target.

(** [Buffer.allocUnsafe(n)]: [n] bytes of unspecified content.  Every use in
    the servers overwrites the bytes it later sends; the model starts them
    at zero. *)
Definition allocUnsafe (n : nat) : Buffer := replicate n x00.

(** [Array.prototype.includes] on the byte values. *)
Definition includes (methods : list Z) (v : Z) : bool := bool_decide (v ∈ methods).

End Buf.

(** What the servers use of the platform and cannot decide themselves:
    [Buffer.prototype.toString] (UTF-8 decoding) and the outcome of
    [net.createConnection(port, host)], whose arguments may be [null] or
    [undefined] ([None]) when a caller passes fields it never filled. *)
Definition Duplex : Type := nat.

Record Error : Type := mkError {
  code : option string;
  message : string
}.

Inductive Settled (A : Type) : Type :=
| Resolved (a : A)
| Rejected (err : Error)
| Pending.
Arguments Resolved {A} a.
Arguments Rejected {A} err.
Arguments Pending {A}.

Class Node : Type := {
  toString : Buffer -> string;
  createConnection : option Z -> option string -> Settled Duplex
}.

(** ** binary.ts *)

Module Binary.

Record BinaryReader : Type := mkReader {
  buf : Buffer;
  pos : nat
}.

(** A method of the reader: it may raise, and otherwise returns a value and
    the reader with its position moved. *)
Definition Reader (A : Type) : Type := BinaryReader -> result (A * BinaryReader).

#[global] Instance Reader_ret : MRet Reader := fun A a r => Ok (a, r).
#[global] Instance Reader_bind : MBind Reader := fun A B f m r =>
  match m r with
  | Ok (a, r') => f a r'
  | Throw e => Throw e
  end.

Definition run {A} (m : Reader A) (buffer : Buffer) : result A :=
  match m (mkReader buffer 0) with
  | Ok (a, _) => Ok a
  | Throw e => Throw e
  end.

(** [word8()]: [readUInt8] at the position, then one step forward. *)
Definition word8 : Reader Z := fun r =>
  value ← Buf.readUInt8 (buf r) (pos r);
  Ok (value, mkReader (buf r) (pos r + 1)).

(** [word32be()]. *)
Definition word32be : Reader Z := fun r =>
  value ← Buf.readUInt32BE (buf r) (pos r);
  Ok (value, mkReader (buf r) (pos r + 4)).

(** [readBuffer(length)]: a [subarray], so it never raises; the position
    moves by [length] even past the end. *)
Definition readBuffer (len : Z) : Reader Buffer := fun r =>
  let n := Z.to_nat len in
  Ok (Buf.subarray (buf r) (pos r) (pos r + n), mkReader (buf r) (pos r + n)).

(** [remaining()]. *)
Definition remaining : Reader Buffer := fun r =>
  Ok (Buf.subarray_from (buf r) (pos r), r).

(** [getPosition()]. *)
Definition getPosition : Reader nat := fun r => Ok (pos r, r).

Module AuthRequest.
Record t : Type := mk {
  ver : Z;
  ulen : Z;
  uname : Buffer;
  plen : Z;
  passwd : Buffer;
  requestBuffer : Buffer
}.
End AuthRequest.

Definition parseAuthRequest (buffer : Buffer) : result AuthRequest.t :=
  run (ver ← word8;
       ulen ← word8;
       uname ← readBuffer ulen;
       plen ← word8;
       passwd ← readBuffer plen;
       mret (AuthRequest.mk ver ulen uname plen passwd buffer)) buffer.

Module ConnectRequest.
Record t : Type := mk {
  ver : Z;
  cmd : Z;
  rsv : Z;
  atyp : Z;
  requestBuffer : Buffer;
  remaining : Buffer
}.
End ConnectRequest.

Definition parseConnectRequest (buffer : Buffer) : result ConnectRequest.t :=
  run (ver ← word8;
       cmd ← word8;
       rsv ← word8;
       atyp ← word8;
       rest ← remaining;
       mret (ConnectRequest.mk ver cmd rsv atyp buffer rest)) buffer.

(** [Array.from(buffer).join(".")]. *)
Definition parseIPv4Address (buffer : Buffer) : string :=
  String.concat "." (map (fun b => pretty (byte_val b)) buffer).

(** [n.toString(16)] for a non-negative integer. *)
Definition toString16 (n : Z) : string :=
  NilZero.string_of_uint (N.to_hex_uint (Z.to_N n)).

(** The body of the [for] loop of [parseIPv6Address], [i] times. *)
Fixpoint ipv6_parts (i : nat) (parts : list string) : Reader (list string) :=
  match i with
  | O => mret parts
  | S i' =>
      value ← word32be;
      ipv6_parts i' (parts ++ [toString16 (Z.shiftr value 16);
                               toString16 (Z.land value 0xffff)])
  end.

Definition parseIPv6Address (buffer : Buffer) : result string :=
  run (parts ← ipv6_parts 4 [];
       mret (String.concat ":" parts)) buffer.

Module DomainName.
Record t : Type := mk {
  size : Z;
  addr : string
}.
End DomainName.

Definition parseDomainName `{Node} (buffer : Buffer) : result DomainName.t :=
  run (size ← word8;
       name ← readBuffer size;
       mret (DomainName.mk size (toString name))) buffer.

End Binary.

(** ** The socket, the event bus and the handler monad

    Both servers are closures over one accepted [socket] and the server object
    [self].  A handler runs to completion on one [data] chunk; what it does is
    recorded here: frames handed to [socket.write], whether [socket.end] was
    called, which listener it armed for the next chunk, what it pushed on
    [activeSessions], and the calls and events it made, in order. *)

Module Net.

Definition SocketId : Type := nat.

(** The three [data] handlers of a session. *)
Inductive Handler : Type :=
| Greeting
| Authenticate
| Connect.

#[global] Instance Handler_eq_dec : EqDecision Handler.
Proof. solve_decision. Defined.

(** What consumes the next chunk: a handler armed with
    [socket.once("data", h)], nothing, or the pipe into the outbound stream. *)
Inductive Listener : Type :=
| Once (h : Handler)
| NoListener
| Pipe (target : Duplex).

Record Socket : Type := mkSocket {
  listener : Listener;
  wire : list (Handler * Buffer);     (* frames sent to the client, oldest first,
                                         each with the handler that wrote it *)
  ended : bool;                       (* the server has called [socket.end] *)
  faults : nat;                       (* writes refused because they came after [end]:
                                         each destroys the socket and is reported
                                         on its [error] event, which both servers
                                         pass on as [proxyError] *)
  forwarded : list (Duplex * Buffer)  (* chunks piped to the outbound stream *)
}.

(** The names of the [EVENTS] table. *)
Inductive EventName : Type :=
| AUTHENTICATION
| AUTHENTICATION_ERROR
| CONNECTION_FILTER
| HANDSHAKE
| PROXY_CONNECT
| PROXY_DATA
| PROXY_DISCONNECT
| PROXY_END
| PROXY_ERROR.

#[global] Instance EventName_eq_dec : EqDecision EventName.
Proof. solve_decision. Defined.

(** An endpoint as handed to callbacks and events: [{ address, port }], where
    a field may be [undefined] or [null] ([None]). *)
Record Endpoint : Type := mkEndpoint {
  address : option string;
  port : option Z
}.

(** Arguments of an emitted event. *)
Inductive Value : Type :=
| VNum (n : Z)
| VStr (s : string)
| VBool (b : bool)
| VErr (e : Error)
| VStream (d : Duplex)
| VSocket (id : SocketId)
| VEndpoint (e : Endpoint).

Inductive Effect : Type :=
| Emit (name : EventName) (args : list Value)
| CallAuthenticate (username password : string)
| CallConnectionFilter (destination origin : Endpoint)
| CallSocketFactory (host : option string) (dport : option Z).

Record World : Type := mkWorld {
  socket : Socket;
  self : SocketId;
  running : Handler;                 (* the handler being run *)
  activeSessions : list SocketId;    (* the server's registry *)
  trace : list Effect                (* oldest first *)
}.

(** A statement of a handler: it changes the world and may raise.  What was
    done before an exception stays done. *)
Definition M (A : Type) : Type := World -> result A * World.

#[global] Instance M_ret : MRet M := fun A a w => (Ok a, w).
#[global] Instance M_bind : MBind M := fun A B f m w =>
  match m w with
  | (Ok a, w') => f a w'
  | (Throw e, w') => (Throw e, w')
  end.

Definition lift {A} (r : result A) : M A := fun w => (r, w).

Definition with_socket (f : Socket -> Socket) : M unit := fun w =>
  (Ok tt, mkWorld (f (socket w)) (self w) (running w) (activeSessions w) (trace w)).

Definition perform (e : Effect) : M unit := fun w =>
  (Ok tt, mkWorld (socket w) (self w) (running w) (activeSessions w) (trace w ++ [e])).

(** [self.server.emit(name, ...args)]. *)
Definition emit (name : EventName) (args : list Value) : M unit :=
  perform (Emit name args).

(** [self.activeSessions.push(socket)]. *)
Definition push_session : M unit := fun w =>
  (Ok tt, mkWorld (socket w) (self w) (running w) (activeSessions w ++ [self w]) (trace w)).

(** [socket.write(data, callback)].  An ended socket refuses the data: Node
    reports a write after end and destroys the socket.  The callback runs
    either way; on a destroyed socket no [data] event comes any more, so
    whatever the callback arms or pipes stays silent and the socket is left
    without a listener. *)
Definition socket_write (data : Buffer) (callback : M unit) : M unit := fun w =>
  let s := socket w in
  if ended s then
    let '(r, w') :=
      callback (mkWorld (mkSocket (listener s) (wire s) (ended s) (S (faults s)) (forwarded s))
                        (self w) (running w) (activeSessions w) (trace w)) in
    (r, mkWorld (mkSocket NoListener (wire (socket w')) (ended (socket w'))
                          (faults (socket w')) (forwarded (socket w')))
                (self w') (running w') (activeSessions w') (trace w'))
  else
    callback (mkWorld (mkSocket (listener s) (wire s ++ [(running w, data)]) (ended s)
                                (faults s) (forwarded s))
                      (self w) (running w) (activeSessions w) (trace w)).

(** [socket.end()]. *)
Definition socket_end : M unit :=
  with_socket (fun s => mkSocket (listener s) (wire s) true (faults s) (forwarded s)).

(** [socket.end(data)]: a last write, then the end. *)
Definition socket_end_with (data : Buffer) : M unit :=
  socket_write data (mret tt) ;; socket_end.

(** [socket.once("data", h)]. *)
Definition socket_once (h : Handler) : M unit :=
  with_socket (fun s => mkSocket (Once h) (wire s) (ended s) (faults s) (forwarded s)).

(** [target.pipe(socket); socket.pipe(target)]: from here on the chunks of
    the client go to [target]. *)
Definition pipe (target : Duplex) : M unit :=
  with_socket (fun s => mkSocket (Pipe target) (wire s) (ended s) (faults s) (forwarded s)).

(** The outbound stream ends.  [target.pipe(socket)] has the default
    [end: true] of [pipe]: it ends the socket in its turn.  No handler of the
    servers runs, so that nothing is written or emitted. *)
Definition outbound_end : M unit := fun w =>
  match listener (socket w) with
  | Pipe _ => socket_end w
  | _ => (Ok tt, w)
  end.

(** A [data] chunk arrives: the armed handler is disarmed and run, a pipe
    forwards the chunk, and with no listener the chunk is lost.  A socket the
    server has ended still reads, so that a pipe goes on forwarding after
    [close()]; a destroyed socket has no listener (see [socket_write]). *)
Definition deliver (handlers : Handler -> Buffer -> M unit) (buffer : Buffer) : M unit :=
  fun w =>
    let s := socket w in
    match listener s with
    | Once h =>
        handlers h buffer
          (mkWorld (mkSocket NoListener (wire s) (ended s) (faults s) (forwarded s))
                   (self w) h (activeSessions w) (trace w))
    | NoListener => (Ok tt, w)
    | Pipe target =>
        (Ok tt, mkWorld (mkSocket (listener s) (wire s) (ended s) (faults s)
                                  (forwarded s ++ [(target, buffer)]))
                        (self w) (running w) (activeSessions w) (trace w))
    end.

(** The chunks of one connection, in order.  An exception that leaves a
    handler is uncaught: nothing runs after it. *)
Fixpoint feed (handlers : Handler -> Buffer -> M unit) (chunks : list Buffer) : M unit :=
  match chunks with
  | [] => mret tt
  | buffer :: rest => deliver handlers buffer ;; feed handlers rest
  end.

(** A connection as [net.createServer] hands it over: the first [data]
    listener is the greeting handler. *)
Definition accepted (id : SocketId) (registry : list SocketId) : World :=
  mkWorld (mkSocket (Once Greeting) [] false 0 []) id Greeting registry [].

(** What the callback of an option did with its [done]: called it once, with
    or without an error, or not at all. *)
Inductive Done : Type :=
| Called (err : option Error)
| NotCalled.

(** Session phases the specification names: the socket is piped to the
    outbound stream; the server has ended the socket. *)
Definition Relaying (w : World) : Prop := exists target, listener (socket w) = Pipe target.
Definition Closed (w : World) : Prop := ended (socket w) = true.

(** The frames on the wire and the handlers that wrote them. *)
Definition frames (w : World) : list Buffer := snd <$> wire (socket w).
Definition writers (w : World) : list Handler := fst <$> wire (socket w).
Definition frames_of (h : Handler) (w : World) : list Buffer :=
  snd <$> filter (fun f => fst f = h) (wire (socket w)).

Definition calls_factory (e : Effect) : bool :=
  match e with CallSocketFactory _ _ => true | _ => false end.
Definition calls_filter (e : Effect) : bool :=
  match e with CallConnectionFilter _ _ => true | _ => false end.
Definition emits (name : EventName) (e : Effect) : bool :=
  match e with Emit n _ => bool_decide (n = name) | _ => false end.

Definition count (p : Effect -> bool) (w : World) : nat :=
  length (List.filter p (trace w)).

End Net.

(** ** server.ts *)

Module Server.
Import Net.

Module SocksServerOptions.
Record t : Type := mk {
  authenticate : option (string -> string -> SocketId -> Done);
  connectionFilter : option (Endpoint -> Endpoint -> Done);
  socketFactory : option (string -> Z -> Settled Duplex)
}.
End SocksServerOptions.

Section Session.
Context `{Node}.
Variable options : SocksServerOptions.t.

(** The promise of [defaultSocketFactory] settles as [net.createConnection]
    connects or fails. *)
Definition defaultSocketFactory (address : string) (port : Z) : Settled Duplex :=
  createConnection (Some port) (Some address).

Definition this_socket : M SocketId := fun w => (Ok (self w), w).

(** [end(code, args)]: two bytes, then the end of the socket. *)
Definition end_ (code : Z) : M unit :=
  let responseBuffer := Buf.allocUnsafe 2 in
  let responseBuffer := Buf.set responseBuffer 0 RFC_1928_VERSION in
  let responseBuffer := Buf.set responseBuffer 1 code in
  socket_write responseBuffer socket_end.

Definition authenticate (buffer : Buffer) : M unit :=
  request ← lift (Binary.parseAuthRequest buffer);
  if decide (Binary.AuthRequest.ver request ≠ RFC_1929_VERSION) then
    end_ RFC_1929_REPLIES.GENERAL_FAILURE
  else
    match SocksServerOptions.authenticate options with
    | Some callback =>
        let uname := toString (Binary.AuthRequest.uname request) in
        let passwd := toString (Binary.AuthRequest.passwd request) in
        sock ← this_socket;
        perform (CallAuthenticate uname passwd) ;;
        match callback uname passwd sock with
        | Called (Some err) =>
            emit AUTHENTICATION_ERROR [VStr uname; VErr err] ;;
            end_ RFC_1929_REPLIES.GENERAL_FAILURE
        | Called None =>
            emit AUTHENTICATION [VStr uname] ;;
            let responseBuffer := Buf.allocUnsafe 2 in
            let responseBuffer := Buf.set responseBuffer 0 RFC_1929_VERSION in
            let responseBuffer := Buf.set responseBuffer 1 RFC_1929_REPLIES.SUCCEEDED in
            socket_write responseBuffer (socket_once Connect)
        | NotCalled => mret tt
        end
    | None => mret tt
    end.

(** The three address branches of [connect]: the destination, or [None]
    for an address type the handler does not know. *)
Definition destination (request : Binary.ConnectRequest.t) : result (option (string * Z)) :=
  let remaining := Binary.ConnectRequest.remaining request in
  let atyp := Binary.ConnectRequest.atyp request in
  if decide (atyp = RFC_1928_ATYP.IPV4) then
    let addr := Binary.parseIPv4Address (Buf.subarray remaining 0 4) in
    port ← Buf.readUInt16BE remaining 4;
    mret (Some (addr, port))
  else if decide (atyp = RFC_1928_ATYP.DOMAINNAME) then
    domain ← Binary.parseDomainName remaining;
    port ← Buf.readUInt16BE remaining (Z.to_nat (Binary.DomainName.size domain + 1));
    mret (Some (Binary.DomainName.addr domain, port))
  else if decide (atyp = RFC_1928_ATYP.IPV6) then
    addr ← Binary.parseIPv6Address (Buf.subarray remaining 0 16);
    port ← Buf.readUInt16BE remaining 16;
    mret (Some (addr, port))
  else
    mret None.

(** The success reply: a buffer as long as the request, bytes 0..2 set,
    the rest copied from the request. *)
Definition success_reply (requestBuffer : Buffer) : Buffer :=
  let responseBuffer := Buf.allocUnsafe (length requestBuffer) in
  let responseBuffer := Buf.set responseBuffer 0 RFC_1928_VERSION in
  let responseBuffer := Buf.set responseBuffer 1 RFC_1928_REPLIES.SUCCEEDED in
  let responseBuffer := Buf.set responseBuffer 2 0x00 in
  Buf.copy requestBuffer responseBuffer 3 3.

(** [self.options.socketFactory ? self.options.socketFactory(addr, port)
    : defaultSocketFactory(addr, port)], settled. *)
Definition outboundSocket (addr : string) (port : Z) : Settled Duplex :=
  match SocksServerOptions.socketFactory options with
  | Some socketFactory => socketFactory addr port
  | None => defaultSocketFactory addr port
  end.

Definition connect (buffer : Buffer) : M unit :=
  request ← lift (Binary.parseConnectRequest buffer);
  if decide (Binary.ConnectRequest.ver request ≠ RFC_1928_VERSION) then
    end_ RFC_1928_REPLIES.GENERAL_FAILURE
  else
    push_session ;;
    dst ← lift (destination request);
    match dst with
    | None => end_ RFC_1928_REPLIES.ADDRESS_TYPE_NOT_SUPPORTED
    | Some (addr, port) =>
        perform (CallSocketFactory (Some addr) (Some port)) ;;
        match outboundSocket addr port with
        | Resolved targetSocket =>
            socket_write (success_reply (Binary.ConnectRequest.requestBuffer request))
                         (pipe targetSocket)
        | Rejected err =>
            end_ RFC_1928_REPLIES.GENERAL_FAILURE ;;
            emit PROXY_ERROR [VErr err]
        | Pending => mret tt
        end
    end.

Definition configured : bool :=
  bool_decide (is_Some (SocksServerOptions.authenticate options)).

(** The first [data] listener of a connection, after its guard: the
    choice of a method among the offered [methods]. *)
Definition select_method (methods : list Z) : M unit :=
  if Buf.includes methods RFC_1928_METHODS.BASIC_AUTHENTICATION && negb configured then
    end_ RFC_1928_REPLIES.GENERAL_FAILURE
  else if configured && Buf.includes methods RFC_1928_METHODS.BASIC_AUTHENTICATION then
    socket_write [byte_of RFC_1928_VERSION; byte_of RFC_1928_METHODS.BASIC_AUTHENTICATION]
                 (socket_once Authenticate)
  else if negb configured
          && Buf.includes methods RFC_1928_METHODS.NO_AUTHENTICATION_REQUIRED then
    socket_write [byte_of RFC_1928_VERSION; byte_of RFC_1928_METHODS.NO_AUTHENTICATION_REQUIRED]
                 (socket_once Connect)
  else
    end_ RFC_1928_METHODS.NO_ACCEPTABLE_METHODS.

(** The first [data] listener of a connection. *)
Definition greeting (buffer : Buffer) : M unit :=
  if bool_decide (Buf.index buffer 0 ≠ Some RFC_1928_VERSION
                  ∨ Buf.index buffer 1 ≠ Some (Z.of_nat (length buffer) - 2)) then
    end_ RFC_1928_REPLIES.GENERAL_FAILURE
  else
    let methods := byte_val <$> drop 2 buffer in
    select_method methods.

Definition handlers (h : Handler) : Buffer -> M unit :=
  match h with
  | Greeting => greeting
  | Authenticate => authenticate
  | Connect => connect
  end.

(** One connection fed the chunks the client sends. *)
Definition session (chunks : list Buffer) : result unit * World :=
  feed handlers chunks (accepted 0%nat []).

End Session.

(** *** The server object

    [connections] are the sockets [net.createServer] has handed over,
    [activeSessions] the registry of the class, [closed_by_close] the sockets
    on which [close()] has called [end()], one entry per call. *)
Record SocksServer : Type := mkServer {
  connections : gmap SocketId Socket;
  activeSessions : list SocketId;
  bus : list Effect;
  closed_by_close : list SocketId;
  listening : bool;
  uncaught : option Exception
}.

Inductive Input : Type :=
| Connection (id : SocketId)             (* a client connects *)
| Data (id : SocketId) (buffer : Buffer) (* a chunk arrives on a connection *)
| Close.                                 (* [server.close()] *)

Definition created : SocksServer := mkServer ∅ [] [] [] true None.

Definition end_socket (s : Socket) : Socket :=
  mkSocket (listener s) (wire s) true (faults s) (forwarded s).

(** [close()]: [end()] on every entry of [activeSessions], then the listener
    stops accepting. *)
Definition close (st : SocksServer) : SocksServer :=
  mkServer (foldl (fun conns id => alter end_socket id conns) (connections st) (activeSessions st))
           (activeSessions st) (bus st)
           (closed_by_close st ++ activeSessions st) false (uncaught st).

Section Facade.
Context `{Node}.
Variable options : SocksServerOptions.t.

Definition on_data (id : SocketId) (buffer : Buffer) (st : SocksServer) : SocksServer :=
  match connections st !! id with
  | None => st
  | Some s =>
      let '(r, w) := deliver (handlers options) buffer
                             (mkWorld s id Greeting (activeSessions st) (bus st)) in
      mkServer (<[id := socket w]> (connections st)) (Net.activeSessions w) (trace w)
               (closed_by_close st) (listening st)
               (match r with Ok _ => None | Throw e => Some e end)
  end.

(** One event of the server's life.  An uncaught exception ends the
    process: nothing happens after it. *)
Definition step (st : SocksServer) (i : Input) : SocksServer :=
  match uncaught st with
  | Some _ => st
  | None =>
      match i with
      | Connection id =>
          if listening st && bool_decide (connections st !! id = None)
          then mkServer (<[id := socket (accepted id [])]> (connections st))
                        (activeSessions st) (bus st) (closed_by_close st)
                        (listening st) (uncaught st)
          else st
      | Data id buffer => on_data id buffer st
      | Close => close st
      end
  end.

Definition run (st : SocksServer) (inputs : list Input) : SocksServer :=
  foldl step st inputs.

End Facade.
End Server.

(** ** The first implementation, on the [binary] package

    [binary.stream(buffer)] on a [Buffer] is the package's synchronous parser.
    The package is a dependency, not part of the repository; [Chain] models the
    three calls the server chains: a word that does not fit yields [null]
    ([None]) and leaves the offset, a buffer read is cut at the end of the
    input and moves the offset by the size asked for.

    [StreamServer] embeds the three [data] handlers and [end].  The listeners
    the server puts on the outbound stream once the relay runs, and the one
    that takes a socket off the registry when its client ends, act after the
    handlers and are left out. *)

Module Chain.

Record Cursor : Type := mkCursor {
  input : Buffer;
  offset : nat
}.

Definition stream (buffer : Buffer) : Cursor := mkCursor buffer 0.

Definition word (width : nat) (c : Cursor) : option Z * Cursor :=
  if decide (offset c + width <= length (input c))%nat
  then (Some (Buf.be (take width (drop (offset c) (input c)))),
        mkCursor (input c) (offset c + width))
  else (None, c).

Definition word8 := word 1.
Definition word16bu := word 2.
Definition word32be := word 4.

(** [.buffer(name, size)]; a [null] size counts as 0. *)
Definition buffer (size : option Z) (c : Cursor) : Buffer * Cursor :=
  let n := Z.to_nat (default 0 size) in
  (Buf.subarray (input c) (offset c) (Nat.min (length (input c)) (offset c + n)),
   mkCursor (input c) (offset c + n)).

End Chain.

Module StreamServer.
Import Net.

Module SocksServerOptions.
Record t : Type := mk {
  authenticate : option (string -> string -> SocketId -> Done);
  connectionFilter : option (Endpoint -> Endpoint -> Done);
  socketFactory : option (option string -> option Z -> Settled Duplex)
}.
End SocksServerOptions.

Section Session.
Context `{Node}.
Variable options : SocksServerOptions.t.
(** [socket.remoteAddress] and [socket.remotePort]. *)
Variable origin : Endpoint.

Definition defaultSocketFactory (address : option string) (port : option Z) : Settled Duplex :=
  createConnection port address.

Definition this_socket : M SocketId := fun w => (Ok (self w), w).

(** [end(response, args)].  With [args.requestBuffer] set, the reply is
    that very buffer with byte 1 overwritten; otherwise two fresh bytes. *)
Definition end_ (response : Z) (requestBuffer : option Buffer) : M unit :=
  let responseBuffer :=
    match requestBuffer with
    | Some b => b
    | None => Buf.set (Buf.allocUnsafe 2) 0 RFC_1928_VERSION
    end in
  let responseBuffer := Buf.set responseBuffer 1 response in
  socket_end_with responseBuffer ;;
  emit PROXY_END [VNum response].

Definition authenticate (buffer : Buffer) : M unit :=
  let c := Chain.stream buffer in
  let '(ver, c) := Chain.word8 c in
  let '(ulen, c) := Chain.word8 c in
  let '(uname, c) := Chain.buffer ulen c in
  let '(plen, c) := Chain.word8 c in
  let '(passwd, c) := Chain.buffer plen c in
  let requestBuffer := Some buffer in
  if decide (ver ≠ Some RFC_1929_VERSION) then
    end_ RFC_1929_REPLIES.GENERAL_FAILURE requestBuffer
  else
    match SocksServerOptions.authenticate options with
    | Some callback =>
        sock ← this_socket;
        perform (CallAuthenticate (toString uname) (toString passwd)) ;;
        match callback (toString uname) (toString passwd) sock with
        | Called (Some err) =>
            emit AUTHENTICATION_ERROR [VStr (toString uname); VErr err] ;;
            end_ RFC_1929_REPLIES.GENERAL_FAILURE requestBuffer
        | Called None =>
            emit AUTHENTICATION [VStr (toString uname)] ;;
            let responseBuffer := Buf.allocUnsafe 2 in
            let responseBuffer := Buf.set responseBuffer 0 RFC_1929_VERSION in
            let responseBuffer := Buf.set responseBuffer 1 RFC_1929_REPLIES.SUCCEEDED in
            socket_write responseBuffer (socket_once Connect)
        | NotCalled => mret tt
        end
    | None => mret tt
    end.

(** [(value >>> 16).toString(16)] and [(value & 0xffff).toString(16)] of a
    32-bit word; a [null] word counts as 0. *)
Definition ipv6_words (value : option Z) : list string :=
  let v := default 0 value in
  [Binary.toString16 (Z.shiftr v 16); Binary.toString16 (Z.land v 0xffff)].

(** Reply code for a failed outbound connection, by [err.code]. *)
Definition failure_reply (err : Error) : Z :=
  if decide (code err = Some "EADDRNOTAVAIL"%string) then RFC_1928_REPLIES.HOST_UNREACHABLE
  else if decide (code err = Some "ECONNREFUSED"%string) then RFC_1928_REPLIES.CONNECTION_REFUSED
  else RFC_1928_REPLIES.NETWORK_UNREACHABLE.

(** The success reply: a copy of the request with byte 1 overwritten. *)
Definition success_reply (requestBuffer : Buffer) : Buffer :=
  let responseBuffer := replicate (length requestBuffer) x00 in
  let responseBuffer := Buf.copy requestBuffer responseBuffer 0 0 in
  Buf.set responseBuffer 1 RFC_1928_REPLIES.SUCCEEDED.

(** [self.options.socketFactory || defaultSocketFactory], called and settled. *)
Definition socketFactory (address : option string) (port : option Z) : Settled Duplex :=
  match SocksServerOptions.socketFactory options with
  | Some factory => factory address port
  | None => defaultSocketFactory address port
  end.

(** [self.options.connectionFilter], or the stub that lets everything pass.
    Only a configured filter is recorded as called. *)
Definition connectionFilter (destination : Endpoint) : M Done :=
  match SocksServerOptions.connectionFilter options with
  | Some filter =>
      perform (CallConnectionFilter destination origin) ;;
      mret (filter destination origin)
  | None => mret (Called None)
  end.

(** First [tap] of [connect]: version check, registration, and the address
    reads that continue the chain.  It yields [args.dst.addr] and the
    cursor after it; a [return end(...)] inside leaves only the tap. *)
Definition connect_address (buffer : Buffer) (ver atyp : option Z) (c : Chain.Cursor)
  : M (option string * Chain.Cursor) :=
  if decide (ver ≠ Some RFC_1928_VERSION) then
    end_ RFC_1928_REPLIES.GENERAL_FAILURE (Some buffer) ;;
    mret (None, c)
  else
    push_session ;;
    if decide (atyp = Some RFC_1928_ATYP.IPV4) then
      let '(addr_buf, c) := Chain.buffer (Some 4) c in
      mret (Some (Binary.parseIPv4Address addr_buf), c)
    else if decide (atyp = Some RFC_1928_ATYP.DOMAINNAME) then
      let '(addr_size, c) := Chain.word8 c in
      let '(addr_buf, c) := Chain.buffer addr_size c in
      mret (Some (toString addr_buf), c)
    else if decide (atyp = Some RFC_1928_ATYP.IPV6) then
      let '(a, c) := Chain.word32be c in
      let '(b, c) := Chain.word32be c in
      let '(c', c) := Chain.word32be c in
      let '(d, c) := Chain.word32be c in
      mret (Some (String.concat ":" (ipv6_words a ++ ipv6_words b
                                     ++ ipv6_words c' ++ ipv6_words d)), c)
    else
      end_ RFC_1928_REPLIES.ADDRESS_TYPE_NOT_SUPPORTED (Some buffer) ;;
      mret (None, c).

(** Second [tap] of [connect], after [.word16bu("dst.port")]. *)
Definition connect_command (buffer : Buffer) (cmd : option Z)
           (dst_addr : option string) (dst_port : option Z) : M unit :=
  if decide (cmd = Some RFC_1928_COMMANDS.CONNECT) then
    let destinationInfo := mkEndpoint dst_addr dst_port in
    verdict ← connectionFilter destinationInfo;
    match verdict with
    | Called (Some err) =>
        emit CONNECTION_FILTER [VEndpoint destinationInfo; VEndpoint origin; VErr err] ;;
        end_ RFC_1928_REPLIES.CONNECTION_NOT_ALLOWED (Some buffer)
    | Called None =>
        perform (CallSocketFactory dst_addr dst_port) ;;
        match socketFactory dst_addr dst_port with
        | Resolved destination =>
            emit PROXY_CONNECT [VEndpoint destinationInfo; VStream destination] ;;
            emit PROXY_CONNECT [VEndpoint destinationInfo; VStream destination] ;;
            socket_write (success_reply buffer) (pipe destination)
        | Rejected err =>
            emit PROXY_ERROR [VErr err] ;;
            end_ (failure_reply err) (Some buffer)
        | Pending => mret tt
        end
    | NotCalled => mret tt
    end
  else
    end_ RFC_1928_REPLIES.SUCCEEDED (Some buffer).

Definition connect (buffer : Buffer) : M unit :=
  let c := Chain.stream buffer in
  let '(ver, c) := Chain.word8 c in
  let '(cmd, c) := Chain.word8 c in
  let '(rsv, c) := Chain.word8 c in
  let '(atyp, c) := Chain.word8 c in
  '(dst_addr, c) ← connect_address buffer ver atyp c;
  let '(dst_port, c) := Chain.word16bu c in
  connect_command buffer cmd dst_addr dst_port.

(** The destination that [args.dst] holds when the second [tap] of
    [connect] runs, for a request whose address the first [tap] has read:
    the reads of the chain up to [.word16bu("dst.port")]. *)
Definition requested (buffer : Buffer) : Endpoint :=
  let c := Chain.stream buffer in
  let '(ver, c) := Chain.word8 c in
  let '(cmd, c) := Chain.word8 c in
  let '(rsv, c) := Chain.word8 c in
  let '(atyp, c) := Chain.word8 c in
  let '(dst_addr, c) :=
    if decide (atyp = Some RFC_1928_ATYP.IPV4) then
      let '(addr_buf, c) := Chain.buffer (Some 4) c in
      (Some (Binary.parseIPv4Address addr_buf), c)
    else if decide (atyp = Some RFC_1928_ATYP.DOMAINNAME) then
      let '(addr_size, c) := Chain.word8 c in
      let '(addr_buf, c) := Chain.buffer addr_size c in
      (Some (toString addr_buf), c)
    else if decide (atyp = Some RFC_1928_ATYP.IPV6) then
      let '(a, c) := Chain.word32be c in
      let '(b, c) := Chain.word32be c in
      let '(c', c) := Chain.word32be c in
      let '(d, c) := Chain.word32be c in
      (Some (String.concat ":" (ipv6_words a ++ ipv6_words b
                                ++ ipv6_words c' ++ ipv6_words d)), c)
    else
      (None, c) in
  let '(dst_port, c) := Chain.word16bu c in
  mkEndpoint dst_addr dst_port.

Definition basicAuth : bool :=
  bool_decide (is_Some (SocksServerOptions.authenticate options)).

Definition handshake (buffer : Buffer) : M unit :=
  let c := Chain.stream buffer in
  let '(ver, c) := Chain.word8 c in
  let '(nmethods, c) := Chain.word8 c in
  let '(methods, c) := Chain.buffer nmethods c in
  if decide (ver ≠ Some RFC_1928_VERSION) then
    end_ RFC_1928_REPLIES.GENERAL_FAILURE None
  else
    let acceptedMethods := byte_val <$> methods in
    let noAuth := negb basicAuth && Buf.includes acceptedMethods 0 in
    let responseBuffer := Buf.allocUnsafe 2 in
    let responseBuffer := Buf.set responseBuffer 0 RFC_1928_VERSION in
    let responseBuffer := Buf.set responseBuffer 1 RFC_1928_METHODS.NO_AUTHENTICATION_REQUIRED in
    if basicAuth then
      let responseBuffer := Buf.set responseBuffer 1 RFC_1928_METHODS.BASIC_AUTHENTICATION in
      sock ← this_socket;
      socket_write responseBuffer (emit HANDSHAKE [VSocket sock] ;; socket_once Authenticate)
    else if negb basicAuth && noAuth then
      let responseBuffer := Buf.set responseBuffer 1 RFC_1928_METHODS.NO_AUTHENTICATION_REQUIRED in
      sock ← this_socket;
      socket_write responseBuffer (emit HANDSHAKE [VSocket sock] ;; socket_once Connect)
    else
      end_ RFC_1928_METHODS.NO_ACCEPTABLE_METHODS None.

Definition handlers (h : Handler) : Buffer -> M unit :=
  match h with
  | Greeting => handshake
  | Authenticate => authenticate
  | Connect => connect
  end.

Definition session (chunks : list Buffer) : result unit * World :=
  feed handlers chunks (accepted 0%nat []).

End Session.

(** *** The [end] listener

    When the client ends its side, [socket.once("end", ...)] takes the socket
    off the registry with
    [activeSessions.splice(activeSessions.indexOf(socket), 1)]. *)

(** [array.indexOf(x)]: the first index that holds [x], or -1. *)
Definition indexOf (array : list SocketId) (x : SocketId) : Z :=
  match list_find (fun y => y = x) array with
  | Some (i, _) => Z.of_nat i
  | None => -1
  end.

(** [array.splice(start, deleteCount)], as the array it leaves: a negative
    [start] counts from the end, and the count is cut to what is there. *)
Definition splice (array : list SocketId) (start deleteCount : Z) : list SocketId :=
  let len := Z.of_nat (length array) in
  let actualStart := if decide (start < 0) then Z.max (len + start) 0 else Z.min start len in
  let actualDeleteCount := Z.min (Z.max deleteCount 0) (len - actualStart) in
  take (Z.to_nat actualStart) array
  ++ drop (Z.to_nat (actualStart + actualDeleteCount)) array.

Definition on_end : M unit := fun w =>
  (Ok tt, mkWorld (socket w) (self w) (running w)
                  (splice (activeSessions w) (indexOf (activeSessions w) (self w)) 1)
                  (trace w)).

End StreamServer.

(** ** Concrete surroundings for the examples

    A platform whose [toString] reads bytes as characters and on which only
    port 80 accepts connections; a client address. *)

Definition ECONNREFUSED : Error := mkError (Some "ECONNREFUSED"%string) "connect ECONNREFUSED"%string.

Definition loopback : Node := {|
  toString := string_of_list_byte;
  createConnection := fun port host =>
    if decide (port = Some 80) then Resolved 1%nat else Rejected ECONNREFUSED
|}.

Definition client : Net.Endpoint := Net.mkEndpoint (Some "127.0.0.1"%string) (Some 50000).

(** Frames used in the examples. *)
Definition greeting_no_auth : Buffer := [x05; x01; x00].
Definition greeting_user_pass : Buffer := [x05; x01; x02].
Definition connect_127_0_0_1_80 : Buffer := [x05; x01; x00; x01; x7f; x00; x00; x01; x00; x50].
Definition connect_127_0_0_1_1 : Buffer := [x05; x01; x00; x01; x7f; x00; x00; x01; x00; x01].
Definition bind_127_0_0_1_80 : Buffer := [x05; x02; x00; x01; x7f; x00; x00; x01; x00; x50].

(** Configurations used in the examples: a server with no options, one that
    accepts a single user, one whose filter rejects every destination. *)
Definition auth_failed : Error := mkError None "Authentication failed"%string.
Definition denied : Error := mkError None "Connection not allowed"%string.

Definition check_password (username password : string) (_ : Net.SocketId) : Net.Done :=
  if decide (username = "testuser"%string /\ password = "testpass"%string)
  then Net.Called None
  else Net.Called (Some auth_failed).

Definition reject_all (_ _ : Net.Endpoint) : Net.Done := Net.Called (Some denied).

Definition server_plain : Server.SocksServerOptions.t :=
  Server.SocksServerOptions.mk None None None.
Definition server_with_password : Server.SocksServerOptions.t :=
  Server.SocksServerOptions.mk (Some check_password) None None.
Definition server_filtered : Server.SocksServerOptions.t :=
  Server.SocksServerOptions.mk None (Some reject_all) None.

Definition stream_plain : StreamServer.SocksServerOptions.t :=
  StreamServer.SocksServerOptions.mk None None None.
Definition stream_with_password : StreamServer.SocksServerOptions.t :=
  StreamServer.SocksServerOptions.mk (Some check_password) None None.
Definition stream_filtered : StreamServer.SocksServerOptions.t :=
  StreamServer.SocksServerOptions.mk None (Some reject_all) None.

Definition auth_frame (username password : string) : Buffer :=
  [x01; byte_of (Z.of_nat (String.length username))] ++ list_byte_of_string username
  ++ [byte_of (Z.of_nat (String.length password))] ++ list_byte_of_string password.

(** ** The claims, as predicates on sessions

    What the specification says of a session is stated over the world a run
    leaves: the frames on the wire with their writers, the listener armed,
    whether the socket is ended, and the trace of calls and events. *)

Import Net.

Inductive follows : Handler -> Handler -> Prop :=
| follows_greeting_authenticate : follows Greeting Authenticate
| follows_greeting_connect : follows Greeting Connect
| follows_authenticate_connect : follows Authenticate Connect.

Definition effect_of (h : Handler) (w w' : World) : Prop :=
  let s := socket w in
  let s' := socket w' in
  (listener s' = NoListener
   /\ ((wire s' = wire s /\ h <> Greeting) \/ exists f, wire s' = wire s ++ [(h, f)]))
  \/ (exists h' f, listener s' = Once h' /\ follows h h'
                   /\ wire s' = wire s ++ [(h, f)] /\ ended s' = false)
  \/ (exists target f, h = Connect /\ listener s' = Pipe target
                       /\ wire s' = wire s ++ [(h, f)]).

(** The frames a session may have on the wire, by the listener it has armed. *)
Definition shape (l : Listener) (hs : list Handler) (e : bool) : Prop :=
  match l with
  | Once Greeting => hs = [] /\ e = false
  | Once Authenticate => hs = [Greeting] /\ e = false
  | Once Connect => (hs = [Greeting] \/ hs = [Greeting; Authenticate]) /\ e = false
  | NoListener =>
      hs = [Greeting] \/ hs = [Greeting; Authenticate]
      \/ hs = [Greeting; Connect] \/ hs = [Greeting; Authenticate; Connect]
  | Pipe _ => hs = [Greeting; Connect] \/ hs = [Greeting; Authenticate; Connect]
  end.

Definition well_shaped (w : World) : Prop :=
  shape (listener (socket w)) (writers w) (ended (socket w)).

(** The claim on the replies a session has written: one frame per handler at
    most, in the order greeting, authentication, request; a session that
    relays or has ended its socket has answered the greeting; so has every
    session that no longer waits for its greeting, whatever it waits for; and
    a session that relays has answered its request. *)
Definition reply_discipline (w : World) : Prop :=
  (exists g a c, writers w = g ++ a ++ c
                 /\ (g = [] \/ g = [Greeting])
                 /\ (a = [] \/ a = [Authenticate])
                 /\ (c = [] \/ c = [Connect]))
  /\ (Relaying w \/ Closed w -> length (frames_of Greeting w) = 1%nat)
  /\ (length (frames_of Authenticate w) <= 1)%nat
  /\ (length (frames_of Connect w) <= 1)%nat
  /\ (listener (socket w) <> Once Greeting -> length (frames_of Greeting w) = 1%nat)
  /\ (Relaying w -> length (frames_of Connect w) = 1%nat).

(** The claim on a server, given as the function from the chunks a client
    sends to the outcome of the session: the replies are disciplined after
    every sequence of chunks, one more chunk is answered by one more frame at
    most, nothing is written once the socket is ended, and the first chunk,
    whatever it holds and whatever follows it, is answered by exactly one
    reply to the greeting, written before any other frame. *)
Definition disciplined (session : list Buffer -> result unit * World) : Prop :=
  (forall chunks, reply_discipline (session chunks).2)
  /\ (forall chunks buffer,
        frames (session (chunks ++ [buffer])).2 = frames (session chunks).2
        \/ exists reply,
             frames (session (chunks ++ [buffer])).2 = frames (session chunks).2 ++ [reply])
  /\ (forall chunks later,
        Closed (session chunks).2 ->
        frames (session (chunks ++ later)).2 = frames (session chunks).2)
  /\ (forall buffer chunks,
        length (frames_of Greeting (session (buffer :: chunks)).2) = 1%nat
        /\ exists rest, writers (session (buffer :: chunks)).2 = Greeting :: rest).

(** A reply to the greeting as both servers write it: two bytes, the
    protocol version and the method or failure code. *)
Definition method_replies (w : World) : Prop :=
  forall reply, reply ∈ frames_of Greeting w -> exists code, reply = [x05; code].

(** Whether a chunk makes [server.ts] register its socket: the server is
    alive, the socket awaits its request, and the chunk decodes as a request
    of version 5. *)
Definition registers (st : Server.SocksServer) (id : SocketId) (buffer : Buffer) : bool :=
  match Server.uncaught st, Server.connections st !! id with
  | None, Some s =>
      match listener s, Binary.parseConnectRequest buffer with
      | Once Connect, Ok request =>
          bool_decide (Binary.ConnectRequest.ver request = RFC_1928_VERSION)
      | _, _ => false
      end
  | _, _ => false
  end.

(** What [server.ts] is able to put on the trace: calls to [authenticate] and
    to the socket factory, and three of the nine events. *)
Definition server_effect (e : Effect) : Prop :=
  match e with
  | CallAuthenticate _ _ | CallSocketFactory _ _ => True
  | Emit name _ => name = AUTHENTICATION \/ name = AUTHENTICATION_ERROR \/ name = PROXY_ERROR
  | CallConnectionFilter _ _ => False
  end.

(** The claim on a session: the request is answered by one frame whose reply
    code is COMMAND_NOT_SUPPORTED, the socket is ended and the factory was
    not called. *)
Definition refuses_command (w : World) : Prop :=
  exists reply, frames_of Connect w = [reply]
                /\ Buf.index reply 1 = Some RFC_1928_REPLIES.COMMAND_NOT_SUPPORTED
                /\ Closed w
                /\ count calls_factory w = 0%nat.

(** No frame on the wire has COMMAND_NOT_SUPPORTED as its second byte. *)
Definition never_refuses_command (w : World) : Prop :=
  Forall (fun reply => Buf.index reply 1 <> Some RFC_1928_REPLIES.COMMAND_NOT_SUPPORTED)
         (frames w).

(** The claim on a session: the request is answered by one frame with the
    given reply code, and the socket is ended. *)
Definition replies_with (code : Z) (w : World) : Prop :=
  exists reply, frames_of Connect w = [reply] /\ Buf.index reply 1 = Some code /\ Closed w.

(** A greeting as [server.ts] accepts it: version 5 and a method count equal
    to the number of bytes that follow it. *)
Definition well_framed (buffer : Buffer) : Prop :=
  Buf.index buffer 0 = Some RFC_1928_VERSION
  /\ exists n, Buf.index buffer 1 = Some n /\ Z.of_nat (length buffer) = 2 + n.

(** A greeting as the claim accepts it: version 5 and at least as many bytes
    after the count as it announces. *)
Definition long_enough (buffer : Buffer) : Prop :=
  Buf.index buffer 0 = Some RFC_1928_VERSION
  /\ exists n, Buf.index buffer 1 = Some n /\ 2 + n <= Z.of_nat (length buffer).



(** What a greeting handler leaves behind when it answers [method] and arms
    [next], or ends the socket when there is no [next]. *)
Definition answered (method : Z) (next : option Handler) (w : World)
    (run : result unit * World) : Prop :=
  run.1 = Ok tt
  /\ wire (socket run.2) = wire (socket w) ++ [(running w, [x05; byte_of method])]
  /\ match next with
     | Some h => listener (socket run.2) = Once h /\ ended (socket run.2) = false
     | None => listener (socket run.2) = listener (socket w) /\ ended (socket run.2) = true
     end.

(** ** Further predicates on sessions *)

(** The eight 16-bit groups of an IPv6 address, each in hexadecimal. *)
Definition groups16 (buffer : Buffer) : list string :=
  (fun i => Binary.toString16 (Buf.be (take 2 (drop (2 * i) buffer)))) <$> seq 0 8.

Definition calls_authenticate (e : Effect) : bool :=
  match e with CallAuthenticate _ _ => true | _ => false end.

(** The [authenticate] callback has accepted the client: the server has
    called it for this socket with credentials on which it reports no
    error. *)
Definition accepted_by (callback : string -> string -> SocketId -> Done) (w : World) : Prop :=
  exists username password,
    CallAuthenticate username password ∈ trace w
    /\ callback username password (self w) = Called None.

(** A session before its request: the request handler is not armed and has
    not written, nothing is relayed, the socket is not registered and the
    factory has not been called. *)
Definition before_request (w : World) : Prop :=
  match listener (socket w) with
  | Once Connect | Pipe _ => False
  | _ => True
  end
  /\ count calls_factory w = 0%nat
  /\ frames_of Connect w = []
  /\ activeSessions w = [].

(** The gate that authentication puts before the request. *)
Definition gated (callback : string -> string -> SocketId -> Done) (w : World) : Prop :=
  accepted_by callback w \/ before_request w.

(** What a session has reached of its request: the request handler armed,
    a reply to the request, the relay, a registration or a call of the
    factory. *)
Definition reached_request (w : World) : Prop :=
  listener (socket w) = Once Connect
  \/ Relaying w
  \/ frames_of Connect w <> []
  \/ activeSessions w <> []
  \/ (0 < count calls_factory w)%nat.

(** How often a session may have called the factory and the [authenticate]
    callback, by the listener it has armed. *)
Definition attempts (w : World) : Prop :=
  let factory := count calls_factory w in
  let callback := count calls_authenticate w in
  match listener (socket w) with
  | Once Greeting | Once Authenticate => factory = 0%nat /\ callback = 0%nat
  | Once Connect => factory = 0%nat /\ (callback <= 1)%nat
  | NoListener | Pipe _ => (factory <= 1)%nat /\ (callback <= 1)%nat
  end.

(** No write was refused, and a socket with a handler armed is not ended. *)
Definition unfaulted (w : World) : Prop :=
  faults (socket w) = 0%nat
  /\ match listener (socket w) with
     | Once _ => ended (socket w) = false
     | _ => True
     end.

(** The registry of server.ts holds no socket twice, and no socket that still
    has a handler armed. *)
Definition registry_sound (st : Server.SocksServer) : Prop :=
  NoDup (Server.activeSessions st)
  /\ forall id, id ∈ Server.activeSessions st ->
       exists s, Server.connections st !! id = Some s /\ forall h, listener s <> Once h.

(** How often a session of the first implementation has emitted
    [handshake], by the listener it has armed. *)
Definition handshake_once (w : World) : Prop :=
  match listener (socket w) with
  | Once Greeting => count (emits HANDSHAKE) w = 0%nat
  | Once Authenticate | Once Connect | Pipe _ => count (emits HANDSHAKE) w = 1%nat
  | NoListener => (count (emits HANDSHAKE) w <= 1)%nat
  end.

(** * Properties *)

(** Running a handler by cases: every branch of its body, with the world it
    leaves. *)
Ltac unfold_monad :=
  unfold socket_end_with, socket_write, socket_end, socket_once, pipe, emit, perform,
    push_session, with_socket, lift, mbind, mret, M_bind, M_ret in *.

Ltac handler_cases Hrun :=
  unfold_monad; cbn in Hrun;
  repeat (case_match; simplify_eq/=).

Ltac unfold_server Hrun :=
  unfold Server.handlers, Server.greeting, Server.select_method, Server.authenticate,
    Server.connect, Server.outboundSocket, Server.end_, Server.this_socket in Hrun.

Ltac unfold_stream Hrun :=
  unfold StreamServer.handlers, StreamServer.handshake, StreamServer.authenticate,
    StreamServer.connect, StreamServer.connect_address, StreamServer.connect_command,
    StreamServer.connectionFilter, StreamServer.socketFactory,
    StreamServer.end_, StreamServer.this_socket in Hrun.

(** ** Reads and decoders *)

Section Decoders.
Context `{Node}.

Lemma readUIntBE_ok width buffer offset :
  (offset + width <= length buffer)%nat ->
  Buf.readUIntBE width buffer offset = Ok (Buf.be (take width (drop offset buffer))).
Proof. intros Hfit. unfold Buf.readUIntBE. by rewrite decide_True. Qed.

Lemma readUIntBE_throw width buffer offset :
  (length buffer < offset + width)%nat ->
  Buf.readUIntBE width buffer offset = Throw RangeError.
Proof. intros Hshort. unfold Buf.readUIntBE. rewrite decide_False; [done | lia]. Qed.

Lemma readUInt8_lookup buffer i :
  Buf.readUInt8 buffer i
  = match buffer !! i with
    | Some b => Ok (byte_val b)
    | None => Throw RangeError
    end.
Proof.
  unfold Buf.readUInt8, Buf.readUIntBE.
  destruct (buffer !! i) as [b|] eqn:Hb.
  - rewrite decide_True by (apply lookup_lt_Some in Hb; lia).
    rewrite (drop_S _ _ _ Hb). unfold Buf.be. by rewrite firstn_cons, take_0.
  - rewrite decide_False; [done|]. apply lookup_ge_None in Hb. lia.
Qed.

Lemma word8_lookup r :
  Binary.word8 r
  = match Binary.buf r !! Binary.pos r with
    | Some b => Ok (byte_val b, Binary.mkReader (Binary.buf r) (Binary.pos r + 1))
    | None => Throw RangeError
    end.
Proof.
  unfold Binary.word8. rewrite readUInt8_lookup.
  by destruct (Binary.buf r !! Binary.pos r).
Qed.

(** [parseConnectRequest] returns exactly on buffers of four bytes or more. *)
Lemma parseConnectRequest_ok ver cmd rsv atyp rest :
  Binary.parseConnectRequest (ver :: cmd :: rsv :: atyp :: rest)
  = Ok (Binary.ConnectRequest.mk (byte_val ver) (byte_val cmd) (byte_val rsv) (byte_val atyp)
                                 (ver :: cmd :: rsv :: atyp :: rest) rest).
Proof.
  unfold Binary.parseConnectRequest, Binary.run, mbind, Binary.Reader_bind.
  by repeat (rewrite word8_lookup; cbn).
Qed.

Lemma parseConnectRequest_total buffer :
  is_Ok (Binary.parseConnectRequest buffer) = bool_decide (4 <= length buffer)%nat.
Proof.
  destruct buffer as [|b0 [|b1 [|b2 [|b3 rest]]]]; [done..|].
  rewrite parseConnectRequest_ok. cbn. symmetry. apply bool_decide_eq_true. lia.
Qed.

(** [parseAuthRequest] returns exactly when the buffer reaches past the user
    name, so that the length of the password can be read. *)
Lemma parseAuthRequest_total buffer :
  is_Ok (Binary.parseAuthRequest buffer)
  = match buffer with
    | ver :: ulen :: rest => bool_decide (Z.to_nat (byte_val ulen) < length rest)%nat
    | _ => false
    end.
Proof.
  destruct buffer as [|ver [|ulen rest]]; [done..|].
  unfold Binary.parseAuthRequest, Binary.run, mbind, Binary.Reader_bind, Binary.readBuffer.
  repeat (rewrite word8_lookup; cbn).
  destruct (rest !! Z.to_nat (byte_val ulen)) as [plen|] eqn:Hplen; cbn; symmetry.
  - apply bool_decide_eq_true. by apply lookup_lt_Some in Hplen.
  - apply bool_decide_eq_false. apply lookup_ge_None in Hplen. lia.
Qed.

Lemma parseIPv6Address_total buffer :
  is_Ok (Binary.parseIPv6Address buffer) = bool_decide (16 <= length buffer)%nat.
Proof.
  unfold Binary.parseIPv6Address, Binary.run, Binary.ipv6_parts, mbind, Binary.Reader_bind,
    Binary.word32be, Buf.readUInt32BE, Buf.readUIntBE, result_bind; cbn.
  repeat (destruct (decide _); cbn; [|symmetry; apply bool_decide_eq_false; lia]).
  symmetry; apply bool_decide_eq_true; lia.
Qed.

Lemma parseDomainName_total buffer :
  is_Ok (Binary.parseDomainName buffer) = bool_decide (1 <= length buffer)%nat.
Proof.
  unfold Binary.parseDomainName, Binary.run, mbind, Binary.Reader_bind, Binary.readBuffer.
  rewrite word8_lookup; cbn. by destruct buffer.
Qed.

Lemma parseDomainName_size size rest domain :
  Binary.parseDomainName (size :: rest) = Ok domain ->
  Binary.DomainName.size domain = byte_val size.
Proof.
  unfold Binary.parseDomainName, Binary.run, mbind, Binary.Reader_bind, Binary.readBuffer.
  rewrite word8_lookup; cbn. by intros [= <-].
Qed.

(** The address and port of a request are decoded exactly when they are all
    there: six bytes for IPv4, the length byte, the name and two more bytes for
    a domain name, eighteen bytes for IPv6.  Another address type decodes to
    no destination. *)
Lemma destination_total request :
  let remaining := Binary.ConnectRequest.remaining request in
  let atyp := Binary.ConnectRequest.atyp request in
  is_Ok (Server.destination request)
  = if decide (atyp = RFC_1928_ATYP.IPV4) then bool_decide (6 <= length remaining)%nat
    else if decide (atyp = RFC_1928_ATYP.DOMAINNAME) then
      match remaining with
      | size :: rest => bool_decide (Z.to_nat (byte_val size) + 2 <= length rest)%nat
      | [] => false
      end
    else if decide (atyp = RFC_1928_ATYP.IPV6) then bool_decide (18 <= length remaining)%nat
    else true.
Proof.
  cbn. unfold Server.destination.
  destruct (decide _) as [_|_].
  { unfold mbind, result_bind, Buf.readUInt16BE, Buf.readUIntBE.
    destruct (decide _); cbn; symmetry;
      [apply bool_decide_eq_true | apply bool_decide_eq_false]; lia. }
  destruct (decide _) as [_|_].
  { destruct (Binary.ConnectRequest.remaining request) as [|size rest]; [done|].
    destruct (Binary.parseDomainName (size :: rest)) as [domain|] eqn:Hd; [|done].
    apply parseDomainName_size in Hd.
    unfold mbind, result_bind, Buf.readUInt16BE, Buf.readUIntBE. rewrite Hd.
    pose proof (Z2Nat.inj_add (byte_val size) 1).
    assert (0 <= byte_val size) by (unfold byte_val; lia).
    destruct (decide _); cbn; symmetry;
      [apply bool_decide_eq_true | apply bool_decide_eq_false]; cbn in *; lia. }
  destruct (decide _) as [_|_]; [|done].
  assert (is_Ok (Binary.parseIPv6Address
                   (Buf.subarray (Binary.ConnectRequest.remaining request) 0 16))
          = bool_decide (16 <= length (Binary.ConnectRequest.remaining request))%nat) as Hv6.
  { rewrite parseIPv6Address_total. unfold Buf.subarray. rewrite length_take, drop_0.
    apply bool_decide_ext. lia. }
  destruct (Binary.parseIPv6Address _) as [addr|]; unfold is_Ok at 1 in Hv6.
  - symmetry in Hv6. apply bool_decide_eq_true in Hv6.
    unfold mbind, result_bind, Buf.readUInt16BE, Buf.readUIntBE.
    destruct (decide _); cbn; symmetry;
      [apply bool_decide_eq_true | apply bool_decide_eq_false]; lia.
  - symmetry in Hv6. apply bool_decide_eq_false in Hv6.
    symmetry. apply bool_decide_eq_false. lia.
Qed.

(** The reads of the [binary] chain. *)
Lemma chain_word8_lookup c :
  Chain.word8 c
  = match Chain.input c !! Chain.offset c with
    | Some b => (Some (byte_val b), Chain.mkCursor (Chain.input c) (Chain.offset c + 1))
    | None => (None, c)
    end.
Proof.
  unfold Chain.word8, Chain.word.
  destruct (Chain.input c !! Chain.offset c) as [b|] eqn:Hb.
  - rewrite decide_True by (apply lookup_lt_Some in Hb; lia).
    rewrite (drop_S _ _ _ Hb). unfold Buf.be. by rewrite firstn_cons, take_0.
  - rewrite decide_False; [done|]. apply lookup_ge_None in Hb. lia.
Qed.


End Decoders.

(** ** The reply discipline of a session

    What one handler may do to the socket, whichever server it belongs to, is
    [effect_of]: it writes at most one frame, arms at most the handler that
    follows it, and only [connect] starts the relay.  The order of the frames
    on the wire follows for every sequence of chunks. *)

Section Invariants.
Variable handlers : Handler -> Buffer -> M unit.

(** What every chunk keeps, every sequence of chunks keeps. *)
Lemma feed_invariant (Inv : World -> Prop) :
  (forall buffer w r w', Inv w -> deliver handlers buffer w = (r, w') -> Inv w') ->
  forall chunks w r w', Inv w -> feed handlers chunks w = (r, w') -> Inv w'.
Proof.
  intros Hstep chunks. induction chunks as [|buffer chunks IH]; intros w r w' Hw Hrun.
  - cbv in Hrun. by simplify_eq.
  - cbn in Hrun. unfold mbind, M_bind in Hrun.
    destruct (deliver handlers buffer w) as [[[]|e] w1] eqn:Hdeliver.
    + eapply IH; [|done]. by eapply Hstep.
    + simplify_eq. by eapply Hstep.
Qed.

End Invariants.

Section Discipline.
Variable handlers : Handler -> Buffer -> M unit.
Hypothesis handlers_effect : forall h buffer w r w',
  listener (socket w) = NoListener -> running w = h -> ended (socket w) = false ->
  handlers h buffer w = (r, w') -> effect_of h w w'.

Lemma deliver_well_shaped buffer w r w' :
  well_shaped w -> deliver handlers buffer w = (r, w') -> well_shaped w'.
Proof.
  unfold well_shaped, writers, deliver. intros Hw Hrun.
  destruct (listener (socket w)) as [h| |target] eqn:Hl; simplify_eq/=;
    [|by rewrite ?Hl..].
  apply handlers_effect in Hrun; cbn; [|done|done|by destruct h; cbn in Hw; intuition].
  unfold effect_of in Hrun; cbn in Hrun.
  destruct Hrun as [[-> [[-> Hne]|[f ->]]]
                   | [(h' & f & -> & Hnext & -> & ->) | (t & f & -> & -> & ->)]];
    rewrite ?fmap_app; try inversion Hnext; subst; try destruct h; cbn in *;
    intuition (simplify_eq/=; repeat match goal with H : _ = _ |- _ => rewrite H end; cbn; eauto).
Qed.

(** One chunk puts at most one frame on the wire, and none once the socket
    is ended. *)
Lemma deliver_one_frame buffer w r w' :
  well_shaped w -> deliver handlers buffer w = (r, w') ->
  (wire (socket w') = wire (socket w)
   \/ (ended (socket w) = false /\ exists x, wire (socket w') = wire (socket w) ++ [x]))
  /\ (ended (socket w) = true ->
      ended (socket w') = true /\ listener (socket w') = listener (socket w)).
Proof.
  unfold well_shaped, deliver. intros Hw Hrun.
  destruct (listener (socket w)) as [h| |target] eqn:Hl; simplify_eq/=;
    [|by rewrite ?Hl; eauto..].
  assert (ended (socket w) = false) as Hopen by (destruct h; cbn in Hw; intuition).
  apply handlers_effect in Hrun; cbn; [|done..].
  unfold effect_of in Hrun; cbn in Hrun.
  split; [|by rewrite Hopen].
  destruct Hrun as [[_ [[-> _]|[f ->]]]
                   | [(h' & f & _ & _ & -> & _) | (t & f & _ & _ & ->)]]; eauto.
Qed.

Lemma feed_well_shaped chunks w r w' :
  well_shaped w -> feed handlers chunks w = (r, w') -> well_shaped w'.
Proof.
  revert w. induction chunks as [|buffer chunks IH]; intros w Hw Hrun.
  - cbv in Hrun. by simplify_eq.
  - cbn in Hrun. unfold mbind, M_bind in Hrun.
    destruct (deliver handlers buffer w) as [[[]|e] w1] eqn:Hstep.
    + eapply IH; [|done]. by eapply deliver_well_shaped.
    + simplify_eq. by eapply deliver_well_shaped.
Qed.

Lemma feed_app chunks later w :
  feed handlers (chunks ++ later) w
  = match feed handlers chunks w with
    | (Ok _, w1) => feed handlers later w1
    | (Throw e, w1) => (Throw e, w1)
    end.
Proof.
  revert w. induction chunks as [|buffer chunks IH]; intros w; [done|].
  cbn. unfold mbind, M_bind.
  destruct (deliver handlers buffer w) as [[[]|e] w1]; [apply IH | done].
Qed.

Lemma feed_singleton buffer w :
  (feed handlers [buffer] w).2 = (deliver handlers buffer w).2.
Proof.
  cbn. unfold mbind, M_bind. by destruct (deliver handlers buffer w) as [[[]|e] w1].
Qed.

Lemma feed_after_end later w r w' :
  well_shaped w -> ended (socket w) = true -> feed handlers later w = (r, w') ->
  wire (socket w') = wire (socket w).
Proof.
  revert w. induction later as [|buffer later IH]; intros w Hw Hend Hrun.
  - cbv in Hrun. by simplify_eq.
  - cbn in Hrun. unfold mbind, M_bind in Hrun.
    destruct (deliver handlers buffer w) as [[[]|e] w1] eqn:Hstep.
    + destruct (deliver_one_frame _ _ _ _ Hw Hstep) as [Hwire Hstay].
      destruct (Hstay Hend) as [Hend1 _].
      destruct Hwire as [Hsame|[Hopen _]]; [|congruence].
      rewrite <- Hsame. eapply IH; [|done..]. by eapply deliver_well_shaped.
    + simplify_eq. destruct (deliver_one_frame _ _ _ _ Hw Hstep) as [[Hsame|[Hopen _]] _];
        [done|congruence].
Qed.

Lemma frames_of_length h w :
  length (frames_of h w) = length (filter (fun x => x = h) (writers w)).
Proof.
  unfold frames_of, writers. rewrite length_fmap.
  induction (wire (socket w)) as [|[h' f] l IH]; [done|].
  rewrite fmap_cons, !filter_cons. cbn.
  destruct (decide (h' = h)); cbn; by rewrite IH.
Qed.

Lemma well_shaped_discipline w : well_shaped w -> reply_discipline w.
Proof.
  unfold well_shaped, reply_discipline, Relaying, Closed. intros Hw.
  rewrite !frames_of_length.
  destruct (listener (socket w)) as [[]| |target]; cbn in Hw;
    repeat match goal with
           | H : _ /\ _ |- _ => destruct H
           | H : _ \/ _ |- _ => destruct H
           end;
    repeat match goal with H : _ = _ |- _ => rewrite H end;
    (split;
     [|split_and!;
       first [ done | by intros [[? ?]|?] | by intros [? ?]
             | compute; lia | intros _; reflexivity ]]).
  - exists [], [], []; naive_solver.
  - exists [Greeting], [], []; naive_solver.
  - exists [Greeting], [], []; naive_solver.
  - exists [Greeting], [Authenticate], []; naive_solver.
  - exists [Greeting], [], []; naive_solver.
  - exists [Greeting], [Authenticate], []; naive_solver.
  - exists [Greeting], [], [Connect]; naive_solver.
  - exists [Greeting], [Authenticate], [Connect]; naive_solver.
  - exists [Greeting], [], [Connect]; naive_solver.
  - exists [Greeting], [Authenticate], [Connect]; naive_solver.
Qed.

(** Whatever a chunk holds, the session it leaves does not wait for a
    greeting. *)
Lemma deliver_past_greeting buffer w r w' :
  well_shaped w -> deliver handlers buffer w = (r, w') ->
  listener (socket w') <> Once Greeting.
Proof.
  unfold well_shaped, deliver. intros Hw Hrun.
  destruct (listener (socket w)) as [h| |target] eqn:Hl; simplify_eq/=;
    [|by rewrite ?Hl..].
  apply handlers_effect in Hrun; cbn; [|done|done|by destruct h; cbn in Hw; intuition].
  unfold effect_of in Hrun; cbn in Hrun.
  destruct Hrun as [[-> _] | [(h' & f & -> & Hnext & _) | (t & f & _ & -> & _)]];
    [done | by inversion Hnext | done].
Qed.

Lemma feed_first_chunk buffer chunks w r w' :
  well_shaped w -> feed handlers (buffer :: chunks) w = (r, w') ->
  listener (socket w') <> Once Greeting.
Proof.
  revert buffer w. induction chunks as [|next chunks IH]; intros buffer w Hw Hrun.
  - cbn in Hrun. unfold mbind, M_bind in Hrun.
    destruct (deliver handlers buffer w) as [[[]|e] w1] eqn:Hstep;
      cbv in Hrun; simplify_eq; by eapply deliver_past_greeting.
  - cbn [feed] in Hrun. unfold mbind at 1, M_bind at 1 in Hrun.
    destruct (deliver handlers buffer w) as [[[]|e] w1] eqn:Hstep.
    + eapply (IH next w1); [by eapply deliver_well_shaped | exact Hrun].
    + simplify_eq. by eapply deliver_past_greeting.
Qed.

Lemma well_shaped_first w :
  well_shaped w -> listener (socket w) <> Once Greeting ->
  exists rest, writers w = Greeting :: rest.
Proof.
  unfold well_shaped. intros Hw Hl.
  destruct (listener (socket w)) as [[]| |target]; cbn in Hw; [done|..];
    repeat match goal with
           | H : _ /\ _ |- _ => destruct H
           | H : _ \/ _ |- _ => destruct H
           end;
    repeat match goal with H : _ = _ |- _ => rewrite H end; eauto.
Qed.

Lemma session_disciplined id registry :
  disciplined (fun chunks => feed handlers chunks (accepted id registry)).
Proof.
  assert (well_shaped (accepted id registry)) as Hstart by by unfold well_shaped.
  unfold disciplined, frames, Closed. split_and!.
  - intros chunks.
    destruct (feed handlers chunks (accepted id registry)) as [r w'] eqn:Hrun.
    apply well_shaped_discipline. by eapply feed_well_shaped.
  - intros chunks buffer. rewrite feed_app.
    destruct (feed handlers chunks (accepted id registry)) as [[[]|e] w1] eqn:Hrun;
      cbv beta iota; [|by left].
    rewrite feed_singleton.
    destruct (deliver handlers buffer w1) as [r w2] eqn:Hstep; cbn.
    destruct (deliver_one_frame buffer w1 r w2) as [[->|[_ [x ->]]] _];
      [by eapply feed_well_shaped|done|by left|].
    right. exists x.2. by rewrite fmap_app.
  - intros chunks later Hend. rewrite feed_app.
    destruct (feed handlers chunks (accepted id registry)) as [[[]|e] w1] eqn:Hrun;
      cbn in Hend |- *; [|done].
    destruct (feed handlers later w1) as [r w2] eqn:Hlater; cbn.
    f_equal. apply (feed_after_end later w1 r w2); [by eapply feed_well_shaped|done..].
  - intros buffer chunks.
    destruct (feed handlers (buffer :: chunks) (accepted id registry)) as [r w'] eqn:Hrun.
    cbn [snd].
    pose proof (feed_well_shaped _ _ _ _ Hstart Hrun) as Hw'.
    pose proof (feed_first_chunk _ _ _ _ _ Hstart Hrun) as Hl'.
    split; [|by apply well_shaped_first].
    by apply (well_shaped_discipline w' Hw').
Qed.

End Discipline.

Ltac solve_effect :=
  unfold effect_of; cbn;
  repeat match goal with H : _ = _ |- _ => rewrite H end; cbn;
  first
    [ left; split; [done|]; first [by left | by right; eexists]
    | right; left; do 2 eexists; split_and!; [done|constructor|done|done]
    | right; right; do 2 eexists; by split_and! ].

Section HandlerEffects.
Context `{Node}.

Lemma server_handlers_effect options h buffer w r w' :
  listener (socket w) = NoListener -> running w = h -> ended (socket w) = false ->
  Server.handlers options h buffer w = (r, w') -> effect_of h w w'.
Proof.
  intros Hl Hh Hend Hrun.
  destruct h; unfold_server Hrun; handler_cases Hrun; solve_effect.
Qed.

Lemma stream_handlers_effect options origin h buffer w r w' :
  listener (socket w) = NoListener -> running w = h -> ended (socket w) = false ->
  StreamServer.handlers options origin h buffer w = (r, w') -> effect_of h w w'.
Proof.
  intros Hl Hh Hend Hrun.
  destruct h; unfold_stream Hrun; handler_cases Hrun; solve_effect.
Qed.

End HandlerEffects.

(** ** The calls and events of server.ts *)

Section ServerTrace.
Context `{Node}.
Variable options : Server.SocksServerOptions.t.

Lemma server_handlers_trace h buffer w r w' :
  Server.handlers options h buffer w = (r, w') ->
  exists extra, trace w' = trace w ++ extra /\ Forall server_effect extra.
Proof.
  intros Hrun.
  destruct h; unfold_server Hrun; handler_cases Hrun; rewrite <- ?app_assoc;
    first [ by exists []; rewrite app_nil_r
          | eexists; split; [reflexivity|];
            repeat first [apply Forall_nil_2 | apply Forall_cons_2]; cbn; eauto ].
Qed.

Lemma server_deliver_trace buffer w r w' :
  deliver (Server.handlers options) buffer w = (r, w') ->
  Forall server_effect (trace w) -> Forall server_effect (trace w').
Proof.
  unfold deliver. intros Hrun Hw.
  destruct (listener (socket w)); simplify_eq/=; [|done..].
  apply server_handlers_trace in Hrun as (extra & -> & Hextra).
  by apply Forall_app.
Qed.

Lemma server_session_trace chunks :
  Forall server_effect (trace (Server.session options chunks).2).
Proof.
  unfold Server.session.
  assert (Forall server_effect (trace (accepted 0%nat []))) as Hstart by constructor.
  revert Hstart. generalize (accepted 0%nat []) as w.
  induction chunks as [|buffer chunks IH]; intros w Hw; [done|].
  cbn. unfold mbind, M_bind.
  destruct (deliver (Server.handlers options) buffer w) as [[[]|e] w1] eqn:Hstep;
    [apply IH|]; by eapply server_deliver_trace.
Qed.

(** [server.ts] never calls the connection filter and never emits
    [proxyConnect], whatever the options and the chunks. *)
Lemma server_never_filters chunks :
  count calls_filter (Server.session options chunks).2 = 0%nat
  /\ count (emits PROXY_CONNECT) (Server.session options chunks).2 = 0%nat.
Proof.
  pose proof (server_session_trace chunks) as Hall. unfold count.
  induction Hall as [|e l He Hl IH]; [done|]. destruct IH as [IH1 IH2].
  destruct e as [name args| | |]; cbn in *; try done.
  split; [done|]. by destruct He as [-> | [-> | ->]].
Qed.

End ServerTrace.

(** ** C1: commands other than CONNECT *)

(** A BIND request is not refused by either server: [server.ts] connects and
    relays, the first implementation answers SUCCEEDED. *)
Lemma bind_is_not_refused :
  ~ refuses_command (@Server.session loopback server_plain
                       [greeting_no_auth; bind_127_0_0_1_80]).2
  /\ ~ refuses_command (@StreamServer.session loopback stream_plain client
                          [greeting_no_auth; bind_127_0_0_1_80]).2.
Proof.
  split; intros (reply & Hframes & Hcode & _);
    vm_compute in Hframes; simplify_eq; vm_compute in Hcode; discriminate.
Qed.

Section Commands.
Context `{Node}.

Lemma server_connect_ignores_cmd options buffer cmd w :
  Server.connect options (Buf.set buffer 1 cmd) w = Server.connect options buffer w.
Proof.
  destruct buffer as [|b0 [|b1 [|b2 [|b3 rest]]]]; [reflexivity..|].
  unfold Server.connect, Buf.set. cbn [list_insert insert].
  rewrite !parseConnectRequest_ok. reflexivity.
Qed.

(** Whatever its command, a request of version 5 whose destination decodes
    reaches the socket factory. *)
Lemma server_connect_calls_factory options buffer request addr dport w :
  Binary.parseConnectRequest buffer = Ok request ->
  Binary.ConnectRequest.ver request = RFC_1928_VERSION ->
  Server.destination request = Ok (Some (addr, dport)) ->
  count calls_factory (Server.connect options buffer w).2
  = (count calls_factory w + 1)%nat.
Proof.
  intros Hparse Hver Hdst.
  unfold Server.connect, Server.end_. unfold_monad; cbn.
  rewrite Hparse; cbn. rewrite decide_False by (by intros []).
  rewrite Hdst; cbn.
  destruct (Server.outboundSocket options addr dport); cbn;
    destruct (ended (socket w)); cbn;
    unfold count; cbn; rewrite ?List.filter_app, ?length_app; cbn; lia.
Qed.

Lemma server_success_reply b0 b1 b2 rest :
  Server.success_reply (b0 :: b1 :: b2 :: rest) = x05 :: x00 :: x00 :: rest.
Proof.
  unfold Server.success_reply, Buf.copy, Buf.set, Buf.allocUnsafe.
  cbn [length replicate insert list_insert take drop app].
  do 3 f_equal. rewrite take_0, drop_0, length_replicate. cbn [app].
  replace (S (S (S (length rest))) - 3)%nat with (length rest) by lia.
  rewrite take_ge by lia.
  rewrite drop_ge by (cbn [length]; rewrite length_replicate; lia).
  by rewrite app_nil_r.
Qed.

(** Whatever its command, a request whose factory resolves is answered
    SUCCEEDED and relayed. *)
Lemma server_connect_resolved options buffer request addr dport target w :
  Binary.parseConnectRequest buffer = Ok request ->
  Binary.ConnectRequest.ver request = RFC_1928_VERSION ->
  Server.destination request = Ok (Some (addr, dport)) ->
  Server.outboundSocket options addr dport = Resolved target ->
  ended (socket w) = false ->
  Server.connect options buffer w
  = (Ok tt, mkWorld (mkSocket (Pipe target)
                              (wire (socket w)
                               ++ [(running w, [x05; x00; x00] ++ drop 3 buffer)])
                              false (faults (socket w)) (forwarded (socket w)))
                    (self w) (running w) (activeSessions w ++ [self w])
                    (trace w ++ [CallSocketFactory (Some addr) (Some dport)])).
Proof.
  intros Hparse Hver Hdst Hfactory Hopen.
  destruct buffer as [|b0 [|b1 [|b2 [|b3 rest]]]]; try done.
  rewrite parseConnectRequest_ok in Hparse. injection Hparse as <-.
  unfold Server.connect. rewrite parseConnectRequest_ok.
  cbn in Hver.
  unfold_monad; cbn -[Server.success_reply Server.destination].
  rewrite decide_False by (by intros []). cbn -[Server.success_reply Server.destination].
  rewrite Hdst; cbn -[Server.success_reply]. rewrite Hfactory; cbn -[Server.success_reply].
  rewrite Hopen; cbn -[Server.success_reply].
  by rewrite server_success_reply.
Qed.

Lemma stream_connect_other_command options origin buffer cmd atyp w :
  Buf.index buffer 0 = Some RFC_1928_VERSION ->
  Buf.index buffer 1 = Some cmd ->
  cmd <> RFC_1928_COMMANDS.CONNECT ->
  Buf.index buffer 3 = Some atyp ->
  atyp ∈ [RFC_1928_ATYP.IPV4; RFC_1928_ATYP.DOMAINNAME; RFC_1928_ATYP.IPV6] ->
  ended (socket w) = false ->
  let run := StreamServer.connect options origin buffer w in
  run.1 = Ok tt
  /\ wire (socket run.2)
     = wire (socket w) ++ [(running w, Buf.set buffer 1 RFC_1928_REPLIES.SUCCEEDED)]
  /\ ended (socket run.2) = true
  /\ activeSessions run.2 = activeSessions w ++ [self w]
  /\ trace run.2 = trace w ++ [Emit PROXY_END [VNum RFC_1928_REPLIES.SUCCEEDED]].
Proof.
  intros Hver Hcmd Hother Hatyp Hsupported Hopen.
  destruct buffer as [|b0 [|b1 [|b2 [|b3 rest]]]]; try done.
  unfold Buf.index in *; cbn in Hver, Hcmd, Hatyp. simplify_eq.
  cbv zeta.
  destruct (StreamServer.connect options origin _ w) as [r w'] eqn:Hrun; cbn.
  unfold StreamServer.connect, Chain.stream in Hrun.
  repeat (rewrite chain_word8_lookup in Hrun; cbn in Hrun).
  unfold StreamServer.connect_address, StreamServer.connect_command, StreamServer.end_ in Hrun.
  handler_cases Hrun; rewrite ?Hopen; try done; try congruence.
  all: exfalso; rewrite !elem_of_cons, elem_of_nil in Hsupported;
    destruct Hsupported as [?|[?|[?|[]]]]; congruence.
Qed.

End Commands.

(** No frame of either server carries COMMAND_NOT_SUPPORTED. *)
Section NeverRefused.
Context `{Node}.

Lemma set_code_not_refusal buffer code :
  byte_val (byte_of code) <> RFC_1928_REPLIES.COMMAND_NOT_SUPPORTED ->
  Buf.index (Buf.set buffer 1 code) 1 <> Some RFC_1928_REPLIES.COMMAND_NOT_SUPPORTED.
Proof.
  intros Hcode. destruct buffer as [|b0 [|b1 rest]]; cbn; [done..|].
  by intros [= ?].
Qed.

Lemma failure_reply_not_refusal err :
  byte_val (byte_of (StreamServer.failure_reply err))
  <> RFC_1928_REPLIES.COMMAND_NOT_SUPPORTED.
Proof. unfold StreamServer.failure_reply. by repeat case_decide. Qed.

Lemma server_success_not_refusal buffer :
  Buf.index (Server.success_reply buffer) 1 <> Some RFC_1928_REPLIES.COMMAND_NOT_SUPPORTED.
Proof.
  destruct buffer as [|b0 [|b1 [|b2 rest]]]; [done..|].
  by rewrite server_success_reply.
Qed.

Lemma stream_success_reply buffer :
  StreamServer.success_reply buffer = Buf.set buffer 1 RFC_1928_REPLIES.SUCCEEDED.
Proof.
  unfold StreamServer.success_reply, Buf.copy. f_equal.
  rewrite take_0, drop_0, length_replicate, Nat.sub_0_r, Nat.add_0_l. cbn [app].
  rewrite take_ge by lia. rewrite drop_ge by (rewrite length_replicate; lia).
  by rewrite app_nil_r.
Qed.

Lemma never_refuses_write w h reply :
  never_refuses_command w ->
  Buf.index reply 1 <> Some RFC_1928_REPLIES.COMMAND_NOT_SUPPORTED ->
  Forall (fun reply => Buf.index reply 1 <> Some RFC_1928_REPLIES.COMMAND_NOT_SUPPORTED)
         (snd <$> (wire (socket w) ++ [(h, reply)])).
Proof.
  intros Hw Hreply. rewrite fmap_app. apply Forall_app. split; [done|].
  by apply Forall_singleton.
Qed.

#[local] Arguments Server.success_reply : simpl never.
#[local] Arguments StreamServer.success_reply : simpl never.
#[local] Arguments StreamServer.failure_reply : simpl never.
#[local] Arguments Buf.set : simpl never.

Ltac solve_never_refuses Hinv :=
  first
    [ exact Hinv
    | apply (never_refuses_write _ _ _ Hinv);
      first [ apply server_success_not_refusal
            | rewrite stream_success_reply; by apply set_code_not_refusal
            | apply set_code_not_refusal;
              first [ apply failure_reply_not_refusal | done ]
            | done ] ].

Lemma server_deliver_never_refuses options buffer w r w' :
  never_refuses_command w -> deliver (Server.handlers options) buffer w = (r, w') ->
  never_refuses_command w'.
Proof.
  intros Hinv Hrun. unfold deliver in Hrun.
  destruct (listener (socket w)) as [h| |target] eqn:Hl.
  - destruct h; unfold_server Hrun; handler_cases Hrun;
      unfold never_refuses_command, frames in *; cbn; solve_never_refuses Hinv.
  - by simplify_eq.
  - by simplify_eq.
Qed.

Lemma stream_deliver_never_refuses options origin buffer w r w' :
  never_refuses_command w ->
  deliver (StreamServer.handlers options origin) buffer w = (r, w') ->
  never_refuses_command w'.
Proof.
  intros Hinv Hrun. unfold deliver in Hrun.
  destruct (listener (socket w)) as [h| |target] eqn:Hl.
  - destruct h; unfold_stream Hrun; handler_cases Hrun;
      unfold never_refuses_command, frames in *; cbn; solve_never_refuses Hinv.
  - by simplify_eq.
  - by simplify_eq.
Qed.

Lemma never_refuses_not_refused w : never_refuses_command w -> ~ refuses_command w.
Proof.
  unfold never_refuses_command, refuses_command, frames, frames_of.
  intros Hw (reply & Hframes & Hcode & _).
  rewrite Forall_forall in Hw. apply (Hw reply); [|done].
  assert (reply ∈ snd <$> filter (fun f => f.1 = Connect) (wire (socket w))) as Hin
    by (rewrite Hframes; apply elem_of_cons; by left).
  apply list_elem_of_fmap in Hin as (f & -> & Hf).
  apply list_elem_of_filter in Hf as [_ Hf]. by apply list_elem_of_fmap_2.
Qed.

End NeverRefused.

(** C1, as the code has it.  [server.ts] does not look at the command byte:
    a request is handled as the same request with any other command, CONNECT
    included, so that a BIND or UDP ASSOCIATE request of version 5 whose
    destination decodes reaches the socket factory and, when the factory
    resolves, is answered SUCCEEDED and relayed.  The first implementation
    answers a request of version 5 with a supported address type and a
    command other than CONNECT by the request itself with reply code
    SUCCEEDED, ends the socket and does not call the factory.  Neither server
    ever replies COMMAND_NOT_SUPPORTED: whatever chunks a client sends, no
    frame on the wire has 0x07 as its second byte, and no session refuses a
    command as the claim asks. *)
Theorem non_connect_commands `{Node} :
  (forall options buffer cmd w,
     Server.connect options (Buf.set buffer 1 cmd) w = Server.connect options buffer w)
  /\ (forall options buffer request addr dport w,
        Binary.parseConnectRequest buffer = Ok request ->
        Binary.ConnectRequest.ver request = RFC_1928_VERSION ->
        Server.destination request = Ok (Some (addr, dport)) ->
        count calls_factory (Server.connect options buffer w).2
        = (count calls_factory w + 1)%nat)
  /\ (forall options origin buffer cmd atyp w,
        Buf.index buffer 0 = Some RFC_1928_VERSION ->
        Buf.index buffer 1 = Some cmd ->
        cmd <> RFC_1928_COMMANDS.CONNECT ->
        Buf.index buffer 3 = Some atyp ->
        atyp ∈ [RFC_1928_ATYP.IPV4; RFC_1928_ATYP.DOMAINNAME; RFC_1928_ATYP.IPV6] ->
        ended (socket w) = false ->
        let run := StreamServer.connect options origin buffer w in
        run.1 = Ok tt
        /\ wire (socket run.2)
           = wire (socket w) ++ [(running w, Buf.set buffer 1 RFC_1928_REPLIES.SUCCEEDED)]
        /\ ended (socket run.2) = true
        /\ count calls_factory run.2 = count calls_factory w)
  /\ (forall options buffer request addr dport target w,
        Binary.parseConnectRequest buffer = Ok request ->
        Binary.ConnectRequest.ver request = RFC_1928_VERSION ->
        Server.destination request = Ok (Some (addr, dport)) ->
        Server.outboundSocket options addr dport = Resolved target ->
        ended (socket w) = false ->
        let run := Server.connect options buffer w in
        run.1 = Ok tt
        /\ wire (socket run.2)
           = wire (socket w) ++ [(running w, [x05; x00; x00] ++ drop 3 buffer)]
        /\ listener (socket run.2) = Pipe target
        /\ ended (socket run.2) = false)
  /\ (forall options chunks,
        never_refuses_command (Server.session options chunks).2
        /\ ~ refuses_command (Server.session options chunks).2)
  /\ (forall options origin chunks,
        never_refuses_command (StreamServer.session options origin chunks).2
        /\ ~ refuses_command (StreamServer.session options origin chunks).2).
Proof.
  assert (never_refuses_command (accepted 0%nat [])) as Hstart by constructor.
  split_and!.
  - apply server_connect_ignores_cmd.
  - apply server_connect_calls_factory.
  - intros options origin buffer cmd atyp w Hver Hcmd Hother Hatyp Hsupported Hopen.
    destruct (stream_connect_other_command options origin buffer cmd atyp w)
      as (Hok & Hwire & Hend & _ & Htrace); try done.
    split_and!; try done.
    unfold count. rewrite Htrace, List.filter_app, length_app. cbn. lia.
  - intros options buffer request addr dport target w Hparse Hver Hdst Hfactory Hopen.
    cbv zeta.
    by rewrite (server_connect_resolved options buffer request addr dport target w).
  - intros options chunks.
    assert (never_refuses_command (Server.session options chunks).2) as Hnever.
    { destruct (Server.session options chunks) as [r w'] eqn:Hrun.
      eapply (feed_invariant (Server.handlers options) never_refuses_command);
        [|exact Hstart|exact Hrun].
      intros buffer w r1 w1. apply server_deliver_never_refuses. }
    split; [done | by apply never_refuses_not_refused].
  - intros options origin chunks.
    assert (never_refuses_command (StreamServer.session options origin chunks).2) as Hnever.
    { destruct (StreamServer.session options origin chunks) as [r w'] eqn:Hrun.
      eapply (feed_invariant (StreamServer.handlers options origin) never_refuses_command);
        [|exact Hstart|exact Hrun].
      intros buffer w r1 w1. apply stream_deliver_never_refuses. }
    split; [done | by apply never_refuses_not_refused].
Qed.

(** A BIND request on both servers: relayed by [server.ts], answered
    SUCCEEDED by the first implementation. *)
Lemma non_connect_commands_witness :
  count calls_factory
    (@Server.connect loopback server_plain bind_127_0_0_1_80 (accepted 0%nat [])).2 = 1%nat
  /\ (let run := @StreamServer.connect loopback stream_plain client
                   bind_127_0_0_1_80 (accepted 0%nat []) in
      run.1 = Ok tt
      /\ wire (socket run.2)
         = wire (socket (accepted 0%nat []))
           ++ [(running (accepted 0%nat []),
                Buf.set bind_127_0_0_1_80 1 RFC_1928_REPLIES.SUCCEEDED)]
      /\ ended (socket run.2) = true
      /\ count calls_factory run.2 = count calls_factory (accepted 0%nat []))
  /\ (let run := @Server.connect loopback server_plain bind_127_0_0_1_80
                   (accepted 0%nat []) in
      run.1 = Ok tt
      /\ wire (socket run.2)
         = wire (socket (accepted 0%nat []))
           ++ [(running (accepted 0%nat []), [x05; x00; x00] ++ drop 3 bind_127_0_0_1_80)]
      /\ listener (socket run.2) = Pipe 1%nat
      /\ ended (socket run.2) = false).
Proof.
  split_and!.
  - apply (proj1 (proj2 (@non_connect_commands loopback)) server_plain bind_127_0_0_1_80
                 (Binary.ConnectRequest.mk 5 2 0 1 bind_127_0_0_1_80
                                           [x7f; x00; x00; x01; x00; x50])
                 "127.0.0.1"%string 80 (accepted 0%nat [])).
    + reflexivity.
    + reflexivity.
    + vm_compute. reflexivity.
  - apply (proj1 (proj2 (proj2 (@non_connect_commands loopback))) stream_plain client
                 bind_127_0_0_1_80 RFC_1928_COMMANDS.BIND RFC_1928_ATYP.IPV4).
    + reflexivity.
    + reflexivity.
    + discriminate.
    + reflexivity.
    + apply elem_of_cons. left. reflexivity.
    + reflexivity.
  - apply (proj1 (proj2 (proj2 (proj2 (@non_connect_commands loopback)))) server_plain
                 bind_127_0_0_1_80
                 (Binary.ConnectRequest.mk 5 2 0 1 bind_127_0_0_1_80
                                           [x7f; x00; x00; x01; x00; x50])
                 "127.0.0.1"%string 80 1%nat (accepted 0%nat [])).
    + reflexivity.
    + reflexivity.
    + vm_compute. reflexivity.
    + reflexivity.
    + reflexivity.
Defined.

(** ** C2: the reply to a failed outbound connection *)

(** A CONNECT to a closed port is answered by [server.ts] with
    GENERAL_FAILURE, not with CONNECTION_REFUSED. *)
Lemma closed_port_not_reported_refused :
  @createConnection loopback (Some 1) (Some "127.0.0.1"%string) = Rejected ECONNREFUSED
  /\ ~ replies_with RFC_1928_REPLIES.CONNECTION_REFUSED
         (@Server.session loopback server_plain [greeting_no_auth; connect_127_0_0_1_1]).2
  /\ replies_with RFC_1928_REPLIES.GENERAL_FAILURE
       (@Server.session loopback server_plain [greeting_no_auth; connect_127_0_0_1_1]).2.
Proof.
  split_and!.
  - reflexivity.
  - intros (reply & Hframes & Hcode & _).
    vm_compute in Hframes; simplify_eq; vm_compute in Hcode; discriminate.
  - exists [x05; x01]. by vm_compute.
Qed.

Section OutboundFailure.
Context `{Node}.

Lemma failure_reply_cases err :
  (code err = Some "EADDRNOTAVAIL"%string ->
   StreamServer.failure_reply err = RFC_1928_REPLIES.HOST_UNREACHABLE)
  /\ (code err = Some "ECONNREFUSED"%string ->
      StreamServer.failure_reply err = RFC_1928_REPLIES.CONNECTION_REFUSED)
  /\ (code err <> Some "EADDRNOTAVAIL"%string -> code err <> Some "ECONNREFUSED"%string ->
      StreamServer.failure_reply err = RFC_1928_REPLIES.NETWORK_UNREACHABLE).
Proof.
  unfold StreamServer.failure_reply. split_and!.
  - intros ->. by rewrite decide_True.
  - intros ->. by rewrite decide_False, decide_True.
  - intros Hne1 Hne2. by rewrite !decide_False.
Qed.

Lemma server_connect_rejected options buffer request addr dport err w :
  Binary.parseConnectRequest buffer = Ok request ->
  Binary.ConnectRequest.ver request = RFC_1928_VERSION ->
  Server.destination request = Ok (Some (addr, dport)) ->
  Server.outboundSocket options addr dport = Rejected err ->
  ended (socket w) = false ->
  let run := Server.connect options buffer w in
  run.1 = Ok tt
  /\ wire (socket run.2) = wire (socket w) ++ [(running w, [x05; x01])]
  /\ ended (socket run.2) = true
  /\ trace run.2 = trace w ++ [CallSocketFactory (Some addr) (Some dport);
                               Emit PROXY_ERROR [VErr err]].
Proof.
  intros Hparse Hver Hdst Hfail Hopen.
  unfold Server.connect, Server.end_. unfold_monad; cbn.
  rewrite Hparse; cbn. rewrite decide_False by (by intros []).
  rewrite Hdst; cbn. rewrite Hfail; cbn. rewrite Hopen; cbn.
  by rewrite <- app_assoc.
Qed.

(** For a request of version 5 with a supported address type, the first
    [tap] of the first implementation's [connect] registers the socket and
    reads the address; the second runs on the destination [requested]. *)
Lemma stream_connect_requested options origin buffer atyp w :
  Buf.index buffer 0 = Some RFC_1928_VERSION ->
  Buf.index buffer 3 = Some atyp ->
  atyp ∈ [RFC_1928_ATYP.IPV4; RFC_1928_ATYP.DOMAINNAME; RFC_1928_ATYP.IPV6] ->
  StreamServer.connect options origin buffer w
  = StreamServer.connect_command options origin buffer (Buf.index buffer 1)
      (address (StreamServer.requested buffer)) (port (StreamServer.requested buffer))
      (mkWorld (socket w) (self w) (running w) (activeSessions w ++ [self w]) (trace w)).
Proof.
  intros Hver Hatyp Hsupported.
  destruct buffer as [|b0 [|b1 [|b2 [|b3 rest]]]]; try done.
  unfold Buf.index in *; cbn in Hver, Hatyp. simplify_eq.
  unfold StreamServer.connect, StreamServer.requested, Chain.stream.
  do 4 (rewrite chain_word8_lookup;
        cbn -[Chain.buffer Chain.word8 Chain.word16bu Chain.word32be]).
  unfold StreamServer.connect_address. rewrite Hver.
  rewrite decide_False by (intros Hne; by apply Hne).
  rewrite !elem_of_cons, elem_of_nil in Hsupported.
  destruct Hsupported as [Ha|[Ha|[Ha|[]]]]; rewrite Ha.
  all: repeat first [rewrite decide_True by done | rewrite decide_False by done].
  all: unfold_monad; cbn -[Chain.buffer Chain.word8 Chain.word16bu Chain.word32be].
  all: repeat (match goal with
               | |- context [Chain.buffer ?size ?c] =>
                   destruct (Chain.buffer size c) as [? ?]
               | |- context [Chain.word8 ?c] => destruct (Chain.word8 c) as [? ?]
               | |- context [Chain.word32be ?c] => destruct (Chain.word32be c) as [? ?]
               | |- context [Chain.word16bu ?c] => destruct (Chain.word16bu c) as [? ?]
               end;
               cbn -[Chain.buffer Chain.word8 Chain.word16bu Chain.word32be]).
  all: reflexivity.
Qed.

(** The second [tap], given the destination the chain has read: a CONNECT
    that passes the filter and whose factory fails. *)
Lemma stream_command_rejected options origin buffer addr dport err w :
  (forall filter, StreamServer.SocksServerOptions.connectionFilter options = Some filter ->
                  filter (mkEndpoint addr dport) origin = Called None) ->
  StreamServer.socketFactory options addr dport = Rejected err ->
  ended (socket w) = false ->
  let run := StreamServer.connect_command options origin buffer
               (Some RFC_1928_COMMANDS.CONNECT) addr dport w in
  run.1 = Ok tt
  /\ wire (socket run.2)
     = wire (socket w) ++ [(running w, Buf.set buffer 1 (StreamServer.failure_reply err))]
  /\ ended (socket run.2) = true
  /\ CallSocketFactory addr dport ∈ trace run.2.
Proof.
  intros Hpass Hfail Hopen.
  unfold StreamServer.connect_command, StreamServer.connectionFilter, StreamServer.end_.
  rewrite decide_True by done.
  destruct (StreamServer.SocksServerOptions.connectionFilter options) as [filter|].
  - unfold_monad; cbn. rewrite (Hpass filter eq_refl); cbn.
    rewrite Hfail; cbn. rewrite Hopen. split_and!; [done..|].
    cbn. rewrite !elem_of_app, !elem_of_cons. auto.
  - unfold_monad; cbn. rewrite Hfail; cbn. rewrite Hopen. split_and!; [done..|].
    cbn. rewrite !elem_of_app, !elem_of_cons. auto.
Qed.

Lemma stream_connect_rejected options origin buffer atyp err w :
  Buf.index buffer 0 = Some RFC_1928_VERSION ->
  Buf.index buffer 1 = Some RFC_1928_COMMANDS.CONNECT ->
  Buf.index buffer 3 = Some atyp ->
  atyp ∈ [RFC_1928_ATYP.IPV4; RFC_1928_ATYP.DOMAINNAME; RFC_1928_ATYP.IPV6] ->
  (forall filter, StreamServer.SocksServerOptions.connectionFilter options = Some filter ->
                  filter (StreamServer.requested buffer) origin = Called None) ->
  StreamServer.socketFactory options (address (StreamServer.requested buffer))
                             (port (StreamServer.requested buffer)) = Rejected err ->
  ended (socket w) = false ->
  let run := StreamServer.connect options origin buffer w in
  run.1 = Ok tt
  /\ wire (socket run.2)
     = wire (socket w) ++ [(running w, Buf.set buffer 1 (StreamServer.failure_reply err))]
  /\ ended (socket run.2) = true
  /\ CallSocketFactory (address (StreamServer.requested buffer))
                       (port (StreamServer.requested buffer)) ∈ trace run.2.
Proof.
  intros Hver Hcmd Hatyp Hsupported Hpass Hfail Hopen. cbv zeta.
  rewrite (stream_connect_requested options origin buffer atyp w) by done.
  rewrite Hcmd.
  apply (stream_command_rejected options origin buffer _ _ err
           (mkWorld (socket w) (self w) (running w) (activeSessions w ++ [self w]) (trace w)));
    [|done..].
  intros filter Hfilter. destruct (StreamServer.requested buffer). by apply Hpass.
Qed.

End OutboundFailure.

(** C2, as the code has it.  When the outbound factory fails on a CONNECT
    request, [server.ts] answers with the two bytes 05 01 (GENERAL_FAILURE)
    whatever the error, and ends the socket.  The first implementation, for a
    request of version 5 with a supported address type that the filter lets
    pass, calls the factory for the destination of the request and, when
    that call fails, answers with the request, its reply code chosen by the
    error's code: EADDRNOTAVAIL gives HOST_UNREACHABLE, ECONNREFUSED gives
    CONNECTION_REFUSED, anything else NETWORK_UNREACHABLE. *)
Theorem outbound_failure_replies `{Node} :
  (forall options buffer request addr dport err w,
     Binary.parseConnectRequest buffer = Ok request ->
     Binary.ConnectRequest.ver request = RFC_1928_VERSION ->
     Server.destination request = Ok (Some (addr, dport)) ->
     Server.outboundSocket options addr dport = Rejected err ->
     ended (socket w) = false ->
     let run := Server.connect options buffer w in
     run.1 = Ok tt
     /\ wire (socket run.2) = wire (socket w) ++ [(running w, [x05; x01])]
     /\ ended (socket run.2) = true)
  /\ (forall options origin buffer atyp err w,
        Buf.index buffer 0 = Some RFC_1928_VERSION ->
        Buf.index buffer 1 = Some RFC_1928_COMMANDS.CONNECT ->
        Buf.index buffer 3 = Some atyp ->
        atyp ∈ [RFC_1928_ATYP.IPV4; RFC_1928_ATYP.DOMAINNAME; RFC_1928_ATYP.IPV6] ->
        let destination := StreamServer.requested buffer in
        (forall filter,
           StreamServer.SocksServerOptions.connectionFilter options = Some filter ->
           filter destination origin = Called None) ->
        StreamServer.socketFactory options (address destination) (port destination)
        = Rejected err ->
        ended (socket w) = false ->
        let run := StreamServer.connect options origin buffer w in
        run.1 = Ok tt
        /\ wire (socket run.2)
           = wire (socket w) ++ [(running w, Buf.set buffer 1 (StreamServer.failure_reply err))]
        /\ ended (socket run.2) = true
        /\ CallSocketFactory (address destination) (port destination) ∈ trace run.2)
  /\ (forall err,
        (code err = Some "EADDRNOTAVAIL"%string ->
         StreamServer.failure_reply err = RFC_1928_REPLIES.HOST_UNREACHABLE)
        /\ (code err = Some "ECONNREFUSED"%string ->
            StreamServer.failure_reply err = RFC_1928_REPLIES.CONNECTION_REFUSED)
        /\ (code err <> Some "EADDRNOTAVAIL"%string ->
            code err <> Some "ECONNREFUSED"%string ->
            StreamServer.failure_reply err = RFC_1928_REPLIES.NETWORK_UNREACHABLE)).
Proof.
  split_and!.
  - intros options buffer request addr dport err w Hparse Hver Hdst Hfail Hopen.
    destruct (server_connect_rejected options buffer request addr dport err w)
      as (Hok & Hwire & Hend & _); done.
  - intros options origin buffer atyp err w Hver Hcmd Hatyp Hsupported. cbv zeta.
    intros Hpass Hfail Hopen.
    by apply (stream_connect_rejected options origin buffer atyp err w).
  - apply failure_reply_cases.
Qed.

(** A CONNECT to the closed port 1 of the loopback platform, on both servers
    with their default factory. *)
Lemma outbound_failure_replies_witness :
  (let run := @Server.connect loopback server_plain connect_127_0_0_1_1 (accepted 0%nat []) in
   run.1 = Ok tt
   /\ wire (socket run.2) = [(Greeting, [x05; x01])]
   /\ ended (socket run.2) = true)
  /\ (let run := @StreamServer.connect loopback stream_plain client
                   connect_127_0_0_1_1 (accepted 0%nat []) in
      run.1 = Ok tt
      /\ wire (socket run.2)
         = [(Greeting, Buf.set connect_127_0_0_1_1 1 (StreamServer.failure_reply ECONNREFUSED))]
      /\ ended (socket run.2) = true
      /\ CallSocketFactory (Some "127.0.0.1"%string) (Some 1) ∈ trace run.2).
Proof.
  split.
  - apply (proj1 (@outbound_failure_replies loopback) server_plain connect_127_0_0_1_1
                 (Binary.ConnectRequest.mk 5 1 0 1 connect_127_0_0_1_1
                                           [x7f; x00; x00; x01; x00; x01])
                 "127.0.0.1"%string 1 ECONNREFUSED (accepted 0%nat [])).
    + reflexivity.
    + reflexivity.
    + vm_compute. reflexivity.
    + reflexivity.
    + reflexivity.
  - apply (proj1 (proj2 (@outbound_failure_replies loopback)) stream_plain client
                 connect_127_0_0_1_1 RFC_1928_ATYP.IPV4 ECONNREFUSED (accepted 0%nat [])).
    + reflexivity.
    + reflexivity.
    + reflexivity.
    + apply elem_of_cons. left. reflexivity.
    + intros filter Hfilter. discriminate Hfilter.
    + reflexivity.
    + reflexivity.
Defined.

(** ** C3: the connection filter *)

Section Filter.
Context `{Node}.
Variable options : StreamServer.SocksServerOptions.t.
Variable origin : Endpoint.

(** In the first implementation a configured filter is the first thing a
    CONNECT request reaches, with the destination and the origin. *)
Lemma stream_filter_called_first buffer addr dport filter w :
  StreamServer.SocksServerOptions.connectionFilter options = Some filter ->
  exists rest,
    trace (StreamServer.connect_command options origin buffer
             (Some RFC_1928_COMMANDS.CONNECT) addr dport w).2
    = trace w ++ CallConnectionFilter (mkEndpoint addr dport) origin :: rest.
Proof.
  intros Hfilter.
  unfold StreamServer.connect_command, StreamServer.connectionFilter,
    StreamServer.socketFactory, StreamServer.end_.
  rewrite Hfilter. unfold_monad; cbn.
  repeat case_match; simplify_eq/=; rewrite <- ?app_assoc; eauto.
Qed.

(** When the filter rejects, the request comes back with reply code
    CONNECTION_NOT_ALLOWED, the socket is ended and the factory is not called. *)
Lemma stream_filter_rejects buffer addr dport filter err w :
  StreamServer.SocksServerOptions.connectionFilter options = Some filter ->
  filter (mkEndpoint addr dport) origin = Called (Some err) ->
  ended (socket w) = false ->
  let w' := (StreamServer.connect_command options origin buffer
               (Some RFC_1928_COMMANDS.CONNECT) addr dport w).2 in
  wire (socket w')
  = wire (socket w) ++ [(running w, Buf.set buffer 1 RFC_1928_REPLIES.CONNECTION_NOT_ALLOWED)]
  /\ ended (socket w') = true
  /\ trace w'
     = trace w ++ [CallConnectionFilter (mkEndpoint addr dport) origin;
                   Emit CONNECTION_FILTER
                     [VEndpoint (mkEndpoint addr dport); VEndpoint origin; VErr err];
                   Emit PROXY_END [VNum RFC_1928_REPLIES.CONNECTION_NOT_ALLOWED]].
Proof.
  intros Hfilter Hreject Hopen.
  unfold StreamServer.connect_command, StreamServer.connectionFilter, StreamServer.end_.
  rewrite decide_True by done. rewrite Hfilter.
  unfold_monad; cbn. rewrite Hreject; cbn. rewrite Hopen; cbn.
  by rewrite <- !app_assoc.
Qed.

End Filter.

(** C3.  Evaluated on [server.ts] configured with a filter that rejects every
    destination: a CONNECT request goes through, the filter is never called,
    the factory is, and the reply is SUCCEEDED.  The claim, and the option as
    the README documents it, ask for a refusal with CONNECTION_NOT_ALLOWED. *)
Theorem connection_filter_never_consulted :
  let w := (@Server.session loopback server_filtered
              [greeting_no_auth; connect_127_0_0_1_80]).2 in
  count calls_filter w = 0%nat
  /\ count calls_factory w = 1%nat
  /\ frames_of Connect w = [[x05; x00; x00; x01; x7f; x00; x00; x01; x00; x50]]
  /\ Relaying w
  /\ ~ Closed w.
Proof.
  cbv zeta. split_and!; try (vm_compute; reflexivity).
  - exists 1%nat. vm_compute. reflexivity.
  - vm_compute. discriminate.
Qed.

(** The same chunks on the first implementation: the filter is called and
    the request refused. *)
Example stream_filter_refuses :
  let w := (@StreamServer.session loopback stream_filtered client
              [greeting_no_auth; connect_127_0_0_1_80]).2 in
  count calls_filter w = 1%nat
  /\ count calls_factory w = 0%nat
  /\ frames_of Connect w = [[x05; x02; x00; x01; x7f; x00; x00; x01; x00; x50]]
  /\ Closed w.
Proof. vm_compute. done. Qed.

(** ** C4: the choice of a method *)

Section MethodSelection.

Lemma well_framed_guard buffer :
  well_framed buffer
  <-> ~ (Buf.index buffer 0 ≠ Some RFC_1928_VERSION
         \/ Buf.index buffer 1 ≠ Some (Z.of_nat (length buffer) - 2)).
Proof.
  unfold well_framed. split.
  - intros [Hver (n & Hn & Hlen)] [Hbad|Hbad]; [done|].
    apply Hbad. rewrite Hn. f_equal. lia.
  - intros Hguard.
    destruct (decide (Buf.index buffer 0 = Some RFC_1928_VERSION)) as [Hver|Hver];
      [|exfalso; apply Hguard; by left].
    destruct (decide (Buf.index buffer 1 = Some (Z.of_nat (length buffer) - 2)))
      as [Hn|Hn]; [|exfalso; apply Hguard; by right].
    split; [done|]. eexists. split; [done|]. lia.
Qed.

Lemma server_greeting_framed options buffer w :
  well_framed buffer ->
  Server.greeting options buffer w
  = Server.select_method options (byte_val <$> drop 2 buffer) w.
Proof.
  intros Hframed. unfold Server.greeting.
  rewrite bool_decide_eq_false_2; [done|]. by apply well_framed_guard.
Qed.

Lemma server_greeting_unframed options buffer w :
  ~ well_framed buffer ->
  Server.greeting options buffer w = Server.end_ RFC_1928_REPLIES.GENERAL_FAILURE w.
Proof.
  intros Hframed. unfold Server.greeting.
  rewrite bool_decide_eq_true_2; [done|].
  destruct (decide (Buf.index buffer 0 ≠ Some RFC_1928_VERSION
                    \/ Buf.index buffer 1 ≠ Some (Z.of_nat (length buffer) - 2)))
    as [Hguard|Hguard]; [done|].
  exfalso. by apply Hframed, well_framed_guard.
Qed.

Lemma well_framed_methods buffer n :
  well_framed buffer -> Buf.index buffer 1 = Some n ->
  Z.of_nat (length (drop 2 buffer)) = n.
Proof.
  intros [_ (m & Hm & Hlen)] Hn. rewrite length_drop.
  rewrite Hm in Hn. injection Hn as <-.
  unfold Buf.index in Hm. destruct (buffer !! 1%nat) as [b|] eqn:Hb; [|done].
  apply lookup_lt_Some in Hb. lia.
Qed.



End MethodSelection.




(** ** C5: rejected credentials *)

Section Credentials.
Context `{Node}.

(** [server.ts]: whenever [authenticate] reports an error, the reply is built
    by [end], which writes the protocol version 5 where the sub-negotiation
    version 1 belongs. *)
Lemma server_auth_rejected options buffer request callback err w :
  Binary.parseAuthRequest buffer = Ok request ->
  Binary.AuthRequest.ver request = RFC_1929_VERSION ->
  Server.SocksServerOptions.authenticate options = Some callback ->
  callback (toString (Binary.AuthRequest.uname request))
           (toString (Binary.AuthRequest.passwd request)) (self w) = Called (Some err) ->
  ended (socket w) = false ->
  let w' := (Server.authenticate options buffer w).2 in
  wire (socket w') = wire (socket w) ++ [(running w, [x05; xff])]
  /\ ended (socket w') = true.
Proof.
  intros Hparse Hver Hauth Hreject Hopen.
  unfold Server.authenticate, Server.end_, Server.this_socket.
  unfold_monad; cbn. rewrite Hparse; cbn.
  rewrite decide_False by (by intros []). rewrite Hauth; cbn.
  rewrite Hreject; cbn. by rewrite Hopen.
Qed.

(** The accepting branch next to it writes the sub-negotiation version. *)
Lemma server_auth_accepted options buffer request callback w :
  Binary.parseAuthRequest buffer = Ok request ->
  Binary.AuthRequest.ver request = RFC_1929_VERSION ->
  Server.SocksServerOptions.authenticate options = Some callback ->
  callback (toString (Binary.AuthRequest.uname request))
           (toString (Binary.AuthRequest.passwd request)) (self w) = Called None ->
  ended (socket w) = false ->
  let w' := (Server.authenticate options buffer w).2 in
  wire (socket w') = wire (socket w) ++ [(running w, [x01; x00])]
  /\ listener (socket w') = Once Connect.
Proof.
  intros Hparse Hver Hauth Haccept Hopen.
  unfold Server.authenticate, Server.end_, Server.this_socket.
  unfold_monad; cbn. rewrite Hparse; cbn.
  rewrite decide_False by (by intros []). rewrite Hauth; cbn.
  rewrite Haccept; cbn. by rewrite Hopen.
Qed.

(** The first implementation: the reply is the request itself with its second
    byte overwritten, so it starts with 01 FF and goes on with the rest of the
    request. *)
Lemma stream_auth_rejected options buffer callback err w :
  Buf.index buffer 0 = Some RFC_1929_VERSION ->
  StreamServer.SocksServerOptions.authenticate options = Some callback ->
  (forall username password, callback username password (self w) = Called (Some err)) ->
  ended (socket w) = false ->
  let w' := (StreamServer.authenticate options buffer w).2 in
  wire (socket w')
  = wire (socket w) ++ [(running w, Buf.set buffer 1 RFC_1929_REPLIES.GENERAL_FAILURE)]
  /\ ended (socket w') = true.
Proof.
  intros Hver Hauth Hreject Hopen.
  unfold StreamServer.authenticate, StreamServer.end_, StreamServer.this_socket, Chain.stream.
  unfold Buf.index in Hver.
  rewrite chain_word8_lookup; cbn.
  destruct (buffer !! 0%nat) as [ver|]; [|done]. cbn in Hver.
  repeat (case_match; simplify_eq/=); try done.
  all: unfold_monad; cbn; rewrite ?Hreject in *; simplify_eq; cbn; by rewrite Hopen.
Qed.

End Credentials.

(** C5.  Evaluated on wrong credentials: [server.ts] answers the
    authentication request with the two bytes 05 FF, not 01 FF; the first
    implementation answers with the whole request, its second byte set to FF.
    Both end the socket. *)
Theorem rejected_credentials_reply :
  (let w := (@Server.session loopback server_with_password
               [greeting_user_pass; auth_frame "wronguser" "wrongpass"]).2 in
   frames w = [[x05; x02]; [x05; xff]] /\ Closed w)
  /\ (let w := (@StreamServer.session loopback stream_with_password client
                  [greeting_user_pass; auth_frame "wronguser" "wrongpass"]).2 in
      frames w = [[x05; x02];
                  [x01; xff] ++ list_byte_of_string "wronguser"
                  ++ [x09] ++ list_byte_of_string "wrongpass"]
      /\ Closed w).
Proof. vm_compute. done. Qed.

(** ** C6: truncated frames *)

Section Truncation.
Context `{Node}.
Variable options : Server.SocksServerOptions.t.

(** An exception that leaves a handler of [server.ts] leaves the socket as it
    was: no reply is written and the socket is not ended. *)
Lemma server_exception_unanswered h buffer w e w' :
  Server.handlers options h buffer w = (Throw e, w') ->
  wire (socket w') = wire (socket w) /\ ended (socket w') = ended (socket w)
  /\ trace w' = trace w.
Proof.
  intros Hrun. destruct h; unfold_server Hrun; handler_cases Hrun; done.
Qed.

(** The [connect] handler raises exactly when the request cannot be decoded:
    fewer than four bytes, or version 5 with an address or port cut short. *)
Lemma server_connect_raises buffer w :
  is_Ok (Server.connect options buffer w).1
  = match Binary.parseConnectRequest buffer with
    | Ok request =>
        bool_decide (Binary.ConnectRequest.ver request ≠ RFC_1928_VERSION)
        || is_Ok (Server.destination request)
    | Throw _ => false
    end.
Proof.
  unfold Server.connect, Server.end_.
  unfold_monad; cbn.
  destruct (Binary.parseConnectRequest buffer) as [request|]; cbn; [|done].
  destruct (decide _) as [Hver|Hver]; cbn.
  - rewrite bool_decide_eq_true_2 by done. by destruct (ended (socket w)).
  - rewrite bool_decide_eq_false_2 by done. cbn.
    destruct (Server.destination request) as [[[addr dport]|]|]; cbn;
      [|by destruct (ended (socket w))|done].
    destruct (Server.outboundSocket options addr dport); cbn;
      by destruct (ended (socket w)).
Qed.

(** The [authenticate] handler raises exactly when the request cannot be
    decoded. *)
Lemma server_authenticate_raises buffer w :
  is_Ok (Server.authenticate options buffer w).1 = is_Ok (Binary.parseAuthRequest buffer).
Proof.
  unfold Server.authenticate, Server.end_, Server.this_socket.
  unfold_monad; cbn.
  destruct (Binary.parseAuthRequest buffer) as [request|]; cbn; [|done].
  repeat (case_match; simplify_eq/=); done.
Qed.

End Truncation.

(** C6.  Evaluated on truncated frames: the decoders of [binary.ts] raise a
    RangeError instead of returning a decode error, and the session handlers
    of [server.ts] let it escape: nothing catches it, no failure reply is
    written and the socket is not ended.  The claim asks for the opposite. *)
Theorem truncated_frame_escapes :
  Binary.parseAuthRequest [x01] = Throw RangeError
  /\ Binary.parseConnectRequest [x05; x01; x00] = Throw RangeError
  /\ (let run := @Server.session loopback server_with_password
                   [greeting_user_pass; [x01]] in
      run.1 = Throw RangeError /\ frames run.2 = [[x05; x02]]
      /\ ended (socket run.2) = false)
  /\ (let run := @Server.session loopback server_plain
                   [greeting_no_auth; take 6 connect_127_0_0_1_80] in
      run.1 = Throw RangeError /\ frames run.2 = [[x05; x00]]
      /\ ended (socket run.2) = false).
Proof.
  split_and!; try reflexivity.
  all: vm_compute; done.
Qed.

(** ** C7: one reply per handler, in order *)

Section MethodReplies.
Context `{Node}.

(** One more frame keeps the replies to the greeting two bytes long when it
    is either no such reply or two bytes long itself. *)
Lemma method_replies_write w h reply :
  method_replies w ->
  (h = Greeting -> exists code, reply = [x05; code]) ->
  forall frame,
    frame ∈ snd <$> filter (fun f => f.1 = Greeting) (wire (socket w) ++ [(h, reply)]) ->
    exists code, frame = [x05; code].
Proof.
  intros Hw Hreply frame. rewrite filter_app, fmap_app, elem_of_app.
  intros [Hin|Hin]; [by apply Hw|].
  apply list_elem_of_fmap in Hin as ([h' reply'] & -> & Hin).
  apply list_elem_of_filter in Hin as [Hh Hin].
  apply list_elem_of_singleton in Hin. simplify_eq/=. by apply Hreply.
Qed.

Ltac solve_method_replies Hinv :=
  first
    [ exact Hinv
    | apply (method_replies_write _ _ _ Hinv);
      intros ?; first [ discriminate | eexists; reflexivity ] ].

Lemma server_deliver_method_replies options buffer w r w' :
  method_replies w -> deliver (Server.handlers options) buffer w = (r, w') ->
  method_replies w'.
Proof.
  intros Hinv Hrun. unfold deliver in Hrun.
  destruct (listener (socket w)) as [h| |target] eqn:Hl.
  - destruct h; unfold_server Hrun; handler_cases Hrun;
      unfold method_replies, frames_of in *; cbn; solve_method_replies Hinv.
  - by simplify_eq.
  - by simplify_eq.
Qed.

Lemma stream_deliver_method_replies options origin buffer w r w' :
  method_replies w ->
  deliver (StreamServer.handlers options origin) buffer w = (r, w') ->
  method_replies w'.
Proof.
  intros Hinv Hrun. unfold deliver in Hrun.
  destruct (listener (socket w)) as [h| |target] eqn:Hl.
  - destruct h; unfold_stream Hrun; handler_cases Hrun;
      unfold method_replies, frames_of in *; cbn; solve_method_replies Hinv.
  - by simplify_eq.
  - by simplify_eq.
Qed.

Lemma accepted_method_replies : method_replies (accepted 0%nat []).
Proof. intros reply Hin. cbn in Hin. by apply elem_of_nil in Hin. Qed.

End MethodReplies.

(** C7.  For every sequence of chunks a client sends, to either server: the
    frames on the wire are at most one per handler, in the order greeting,
    authentication, request; the first chunk, whatever it holds, is answered
    by exactly one reply to the greeting, written before any other frame, and
    that reply stays the only one whatever follows, so that every session
    that waits for an authentication or a request, relays or has ended its
    socket has written exactly one; a session that relays has written exactly
    one reply to its request; one more chunk, and so one more failure, is
    answered by one more frame at most; no frame follows the end of the
    socket; and a reply to the greeting is two bytes, the version 5 and a
    code. *)
Theorem session_replies_in_order `{Node} :
  (forall options, disciplined (Server.session options))
  /\ (forall options origin, disciplined (StreamServer.session options origin))
  /\ (forall options chunks, method_replies (Server.session options chunks).2)
  /\ (forall options origin chunks,
        method_replies (StreamServer.session options origin chunks).2).
Proof.
  split_and!; intros.
  - apply (session_disciplined (Server.handlers options)).
    intros h. apply server_handlers_effect.
  - apply (session_disciplined (StreamServer.handlers options origin)).
    intros h. apply stream_handlers_effect.
  - unfold Server.session.
    destruct (feed (Server.handlers options) chunks (accepted 0%nat [])) as [r w'] eqn:Hrun.
    apply (feed_invariant (Server.handlers options) method_replies
             (server_deliver_method_replies options) chunks _ r w' accepted_method_replies Hrun).
  - unfold StreamServer.session.
    destruct (feed (StreamServer.handlers options origin) chunks (accepted 0%nat []))
      as [r w'] eqn:Hrun.
    apply (feed_invariant (StreamServer.handlers options origin) method_replies
             (stream_deliver_method_replies options origin) chunks _ r w'
             accepted_method_replies Hrun).
Qed.

(** The discipline at work: a session that has sent its greeting and waits
    for the request has one reply to it; and a session closed on a filter
    refusal writes nothing more. *)
Lemma session_replies_in_order_witness :
  length (frames_of Greeting
            (@StreamServer.session loopback stream_filtered client [greeting_no_auth]).2)
  = 1%nat
  /\ frames (@StreamServer.session loopback stream_filtered client
               ([greeting_no_auth; connect_127_0_0_1_80] ++ [connect_127_0_0_1_80])).2
     = frames (@StreamServer.session loopback stream_filtered client
                 [greeting_no_auth; connect_127_0_0_1_80]).2.
Proof.
  split.
  - apply (proj1 (proj2 (proj2 (proj2 (proj2
             (proj1 (proj1 (proj2 (@session_replies_in_order loopback))
                           stream_filtered client)
                    [greeting_no_auth])))))).
    vm_compute. intros Harmed. discriminate Harmed.
  - apply (proj1 (proj2 (proj2 (proj1 (proj2 (@session_replies_in_order loopback))
                                      stream_filtered client)))
                 [greeting_no_auth; connect_127_0_0_1_80] [connect_127_0_0_1_80]).
    vm_compute. reflexivity.
Defined.

(** ** C8: the framing of the greeting *)

(** A greeting with a byte after the announced methods meets the claim's
    condition, yet [server.ts] does not go on to choose among its methods: it
    answers 05 01 and ends the socket. *)
Lemma trailing_byte_is_refused :
  let buffer := [x05; x01; x00; x00] in
  let w := accepted 0%nat [] in
  long_enough buffer
  /\ answered RFC_1928_METHODS.NO_AUTHENTICATION_REQUIRED (Some Connect) w
       (Server.select_method server_plain (byte_val <$> take 1 (drop 2 buffer)) w)
  /\ ~ answered RFC_1928_METHODS.NO_AUTHENTICATION_REQUIRED (Some Connect) w
         (Server.greeting server_plain buffer w)
  /\ answered RFC_1928_REPLIES.GENERAL_FAILURE None w (Server.greeting server_plain buffer w).
Proof.
  cbv zeta. split_and!.
  - split; [reflexivity|]. exists 1. split; [reflexivity|]. cbn. lia.
  - by vm_compute.
  - intros (_ & Hwire & _). vm_compute in Hwire. discriminate.
  - by vm_compute.
Qed.

(** C8, as the code has it.  [server.ts] decodes a greeting exactly when its
    first byte is 5 and its length is 2 plus its second byte: the methods it
    chooses among are then the bytes from offset 2, as many as the second
    byte says.  Any other buffer, shorter or longer, is answered with 05 01
    and the socket ended. *)
Theorem greeting_needs_exact_length options buffer w :
  (well_framed buffer ->
   Server.greeting options buffer w
   = Server.select_method options (byte_val <$> drop 2 buffer) w
   /\ Buf.index buffer 1 = Some (Z.of_nat (length (drop 2 buffer))))
  /\ (~ well_framed buffer -> ended (socket w) = false ->
      answered RFC_1928_REPLIES.GENERAL_FAILURE None w (Server.greeting options buffer w)).
Proof.
  split.
  - intros Hframed. split; [by apply server_greeting_framed|].
    pose proof Hframed as [Hver (n & Hn & Hlen)].
    rewrite Hn. f_equal. symmetry. by apply well_framed_methods.
  - intros Hunframed Hopen. rewrite server_greeting_unframed by done.
    unfold answered, Server.end_. unfold_monad; cbn. by rewrite Hopen.
Qed.

(** A greeting offering one method, and the same with a byte too many. *)
Lemma greeting_needs_exact_length_witness :
  (Server.greeting server_plain greeting_no_auth (accepted 0%nat [])
   = Server.select_method server_plain (byte_val <$> drop 2 greeting_no_auth)
       (accepted 0%nat [])
   /\ Buf.index greeting_no_auth 1 = Some (Z.of_nat (length (drop 2 greeting_no_auth))))
  /\ answered RFC_1928_REPLIES.GENERAL_FAILURE None (accepted 0%nat [])
       (Server.greeting server_plain [x05; x01; x00; x00] (accepted 0%nat [])).
Proof.
  split.
  - apply (proj1 (greeting_needs_exact_length server_plain greeting_no_auth
                    (accepted 0%nat []))).
    split; [reflexivity|]. exists 1. split; reflexivity.
  - apply (proj2 (greeting_needs_exact_length server_plain [x05; x01; x00; x00]
                    (accepted 0%nat []))).
    + intros [_ (n & Hn & Hlen)]. vm_compute in Hn. injection Hn as <-. discriminate Hlen.
    + reflexivity.
Defined.

(** ** C9: the proxyConnect event *)

Section ProxyConnect.
Context `{Node}.
Variable options : StreamServer.SocksServerOptions.t.
Variable origin : Endpoint.

(** In the first implementation every request that starts the relay has
    emitted [proxyConnect] twice. *)
Lemma stream_connect_emits_twice buffer w target :
  let w' := (StreamServer.connect options origin buffer w).2 in
  listener (socket w) = NoListener ->
  listener (socket w') = Pipe target ->
  count (emits PROXY_CONNECT) w' = (count (emits PROXY_CONNECT) w + 2)%nat.
Proof.
  cbn. intros Hl.
  destruct (StreamServer.connect options origin buffer w) as [r w'] eqn:Hrun; cbn.
  unfold_stream Hrun.
  handler_cases Hrun; rewrite ?Hl; try done; intros _;
    unfold count; cbn; rewrite ?List.filter_app, ?length_app; cbn;
    repeat (case_bool_decide; try done); cbn; lia.
Qed.

End ProxyConnect.

(** C9.  Evaluated on a CONNECT that succeeds: the first implementation emits
    [proxyConnect] twice, [server.ts] not at all; neither emits it exactly
    once, as the claim requires. *)
Theorem proxyConnect_not_emitted_once :
  (let w := (@StreamServer.session loopback stream_plain client
               [greeting_no_auth; connect_127_0_0_1_80]).2 in
   Relaying w /\ count (emits PROXY_CONNECT) w = 2%nat)
  /\ (let w := (@Server.session loopback server_plain
                  [greeting_no_auth; connect_127_0_0_1_80]).2 in
      Relaying w /\ count (emits PROXY_CONNECT) w = 0%nat).
Proof.
  cbv zeta. split_and!; try (vm_compute; reflexivity).
  all: exists 1%nat; vm_compute; reflexivity.
Qed.

(** ** C10: the registry of server.ts *)

Section Registry.
Context `{Node}.
Variable options : Server.SocksServerOptions.t.

Lemma handlers_registry h buffer w r w' :
  Server.handlers options h buffer w = (r, w') ->
  activeSessions w' =
    match h, Binary.parseConnectRequest buffer with
    | Connect, Ok request =>
        if decide (Binary.ConnectRequest.ver request = RFC_1928_VERSION)
        then activeSessions w ++ [self w] else activeSessions w
    | _, _ => activeSessions w
    end.
Proof.
  intros Hrun. destruct h; unfold_server Hrun; handler_cases Hrun; done.
Qed.

Lemma on_data_registry st id buffer :
  Server.uncaught st = None ->
  Server.activeSessions (Server.on_data options id buffer st)
  = if registers st id buffer then Server.activeSessions st ++ [id] else Server.activeSessions st.
Proof.
  intros Halive. unfold Server.on_data, registers. rewrite Halive.
  destruct (Server.connections st !! id) as [s|]; [|done].
  unfold deliver; cbn.
  destruct (listener s) as [h| |target]; cbn; [|done..].
  destruct (Server.handlers options h buffer _) as [r w'] eqn:Hrun; cbn.
  apply handlers_registry in Hrun. rewrite Hrun; cbn.
  destruct h; try done.
  destruct (Binary.parseConnectRequest buffer) as [request|]; [|done].
  by destruct (decide _); [rewrite bool_decide_eq_true_2|rewrite bool_decide_eq_false_2].
Qed.

Lemma step_registry st i :
  Server.activeSessions (Server.step options st i)
  = match i with
    | Server.Data id buffer =>
        if registers st id buffer then Server.activeSessions st ++ [id]
        else Server.activeSessions st
    | _ => Server.activeSessions st
    end.
Proof.
  unfold Server.step.
  destruct (Server.uncaught st) as [e|] eqn:Halive.
  - destruct i; try done. unfold registers. by rewrite Halive.
  - destruct i; [by case_match | by apply on_data_registry | done].
Qed.

Lemma step_registry_prefix st i :
  Server.activeSessions st `prefix_of` Server.activeSessions (Server.step options st i).
Proof.
  rewrite step_registry. destruct i; try done.
  case_match; [by apply prefix_app_r | done].
Qed.

Lemma run_registry_prefix st inputs :
  Server.activeSessions st `prefix_of` Server.activeSessions (Server.run options st inputs).
Proof.
  revert st. induction inputs as [|i inputs IH]; intros st; [done|].
  cbn. etrans; [apply step_registry_prefix | apply IH].
Qed.

Lemma run_app st inputs later :
  Server.run options st (inputs ++ later)
  = Server.run options (Server.run options st inputs) later.
Proof. apply foldl_app. Qed.

End Registry.

Lemma close_connections st id :
  Server.connections (Server.close st) !! id
  = (if bool_decide (id ∈ Server.activeSessions st) then Server.end_socket else fun s => s)
      <$> Server.connections st !! id.
Proof.
  unfold Server.close; cbn.
  generalize (Server.connections st) as conns.
  induction (Server.activeSessions st) as [|x l IH]; intros conns; cbn.
  - by destruct (conns !! id).
  - rewrite IH. destruct (decide (x = id)) as [->|Hne].
    + rewrite lookup_alter_eq.
      rewrite (bool_decide_eq_true_2 (id ∈ id :: l)) by left.
      destruct (conns !! id) as [s|]; cbn; [|done].
      by case_bool_decide.
    + rewrite lookup_alter_ne by done.
      destruct (conns !! id) as [s|]; cbn; [|done].
      f_equal. case_bool_decide as Hin.
      * rewrite (bool_decide_eq_true_2 (id ∈ x :: l)); [done | by right].
      * rewrite (bool_decide_eq_false_2 (id ∈ x :: l)); [done |].
        intros Hin'. apply elem_of_cons in Hin' as [?|?]; by simplify_eq.
Qed.

(** C10.  In [server.ts] the registry [activeSessions] only grows: no event
    of the server's life removes or moves an entry, accepting a connection
    adds none, a chunk adds its socket exactly when the [connect] handler
    decodes a request of version 5 from it, and [close()] calls [end()] on
    every entry, so on every socket registered at any earlier time, whether
    or not its session has ended since. *)
Theorem activeSessions_append_only `{Node} (options : Server.SocksServerOptions.t)
    (st : Server.SocksServer) :
  (forall i, Server.activeSessions st
             `prefix_of` Server.activeSessions (Server.step options st i))
  /\ (forall id, Server.activeSessions (Server.step options st (Server.Connection id))
                 = Server.activeSessions st)
  /\ (forall id buffer,
        Server.activeSessions (Server.step options st (Server.Data id buffer))
        = if registers st id buffer then Server.activeSessions st ++ [id]
          else Server.activeSessions st)
  /\ (forall inputs later,
        Server.activeSessions (Server.run options st inputs)
        ⊆ Server.closed_by_close
            (Server.close (Server.run options st (inputs ++ later))))
  /\ Server.closed_by_close (Server.close st)
     = Server.closed_by_close st ++ Server.activeSessions st
  /\ (forall id, Server.connections (Server.close st) !! id
                 = (if bool_decide (id ∈ Server.activeSessions st)
                    then Server.end_socket else fun s => s)
                     <$> Server.connections st !! id).
Proof.
  split_and!.
  - apply step_registry_prefix.
  - intros id. by rewrite step_registry.
  - intros id buffer. by rewrite step_registry.
  - intros inputs later id Hin. rewrite run_app. cbn.
    apply elem_of_app. right.
    destruct (run_registry_prefix options (Server.run options st inputs) later) as [l ->].
    apply elem_of_app. by left.
  - done.
  - apply close_connections.
Qed.

(** A session refused for its address type has ended its socket, stays
    registered, and is ended once more by [close()], while a connection that
    has only greeted is not registered and is left alone. *)
Example close_ends_finished_session :
  let st := @Server.run loopback server_plain Server.created
              [Server.Connection 1%nat; Server.Connection 2%nat;
               Server.Data 1%nat greeting_no_auth;
               Server.Data 1%nat [x05; x01; x00; x02; x7f; x00; x00; x01; x00; x50];
               Server.Data 2%nat greeting_no_auth] in
  ended <$> Server.connections st !! 1%nat = Some true
  /\ Server.activeSessions st = [1%nat]
  /\ Server.closed_by_close (Server.close st) = [1%nat]
  /\ ended <$> Server.connections (Server.close st) !! 2%nat = Some false.
Proof. vm_compute. done. Qed.

(** * Further properties of the code *)

(** ** Bytes and big-endian reads *)

Section Bytes.

Lemma byte_val_bounds b : 0 <= byte_val b < 256.
Proof. unfold byte_val. pose proof (Byte.to_N_bounded b). lia. Qed.

Lemma byte_of_val b : byte_of (byte_val b) = b.
Proof.
  unfold byte_of. pose proof (byte_val_bounds b).
  rewrite Z.mod_small by done. unfold byte_val.
  by rewrite N2Z.id, Byte.of_to_N.
Qed.

Lemma byte_val_of n : 0 <= n < 256 -> byte_val (byte_of n) = n.
Proof.
  intros Hn. unfold byte_of, byte_val. rewrite Z.mod_small by done.
  destruct (Byte.of_N (Z.to_N n)) as [b|] eqn:Hb.
  - apply Byte.to_of_N in Hb. rewrite Hb. lia.
  - apply Byte.of_N_None_iff in Hb. lia.
Qed.

Lemma be_from acc bs :
  fold_left (fun acc b => acc * 256 + byte_val b) bs acc
  = acc * 256 ^ Z.of_nat (length bs) + Buf.be bs.
Proof.
  unfold Buf.be. revert acc.
  induction bs as [|b bs IH]; intros acc; [cbn; lia|].
  cbn [fold_left length]. rewrite IH, (IH (0 * 256 + byte_val b)).
  rewrite Nat2Z.inj_succ, Z.pow_succ_r by lia. lia.
Qed.

Lemma be_cons b bs :
  Buf.be (b :: bs) = byte_val b * 256 ^ Z.of_nat (length bs) + Buf.be bs.
Proof. unfold Buf.be at 1. cbn [fold_left]. by rewrite be_from. Qed.

Lemma be_bounds bs : 0 <= Buf.be bs < 256 ^ Z.of_nat (length bs).
Proof.
  induction bs as [|b bs IH]; [by cbn|].
  rewrite be_cons. pose proof (byte_val_bounds b).
  cbn [length]. rewrite Nat2Z.inj_succ, Z.pow_succ_r by lia. nia.
Qed.

Lemma be_pair a b : Buf.be [a; b] = byte_val a * 256 + byte_val b.
Proof. unfold Buf.be. cbn. lia. Qed.

(** The two halves of a 32-bit word are its two 16-bit groups. *)
Lemma be_halves a b c d :
  Z.shiftr (Buf.be [a; b; c; d]) 16 = Buf.be [a; b]
  /\ Z.land (Buf.be [a; b; c; d]) 0xffff = Buf.be [c; d].
Proof.
  pose proof (byte_val_bounds a). pose proof (byte_val_bounds b).
  pose proof (byte_val_bounds c). pose proof (byte_val_bounds d).
  assert (Buf.be [a; b; c; d] = Buf.be [a; b] * 2 ^ 16 + Buf.be [c; d]) as ->
    by (unfold Buf.be; cbn [fold_left]; change (2 ^ 16) with 65536; lia).
  pose proof (be_bounds [c; d]) as Hlow. cbn [length] in Hlow.
  change (256 ^ Z.of_nat 2) with 65536 in Hlow. change (2 ^ 16) with 65536.
  split.
  - rewrite Z.shiftr_div_pow2 by lia.
    rewrite Z.div_add_l by lia. rewrite Z.div_small by lia. lia.
  - change 0xffff with (Z.ones 16). rewrite Z.land_ones by lia.
    rewrite Z.add_comm, Z.mod_add by lia. apply Z.mod_small. lia.
Qed.

End Bytes.

(** ** binary.ts *)

Section Reader.

Lemma word32be_at r :
  (Binary.pos r + 4 <= length (Binary.buf r))%nat ->
  Binary.word32be r
  = Ok (Buf.be (take 4 (drop (Binary.pos r) (Binary.buf r))),
        Binary.mkReader (Binary.buf r) (Binary.pos r + 4)).
Proof.
  intros Hfit. unfold Binary.word32be, Buf.readUInt32BE.
  by rewrite readUIntBE_ok.
Qed.

Lemma be_halves_at buffer p :
  (p + 4 <= length buffer)%nat ->
  Z.shiftr (Buf.be (take 4 (drop p buffer))) 16 = Buf.be (take 2 (drop p buffer))
  /\ Z.land (Buf.be (take 4 (drop p buffer))) 0xffff = Buf.be (take 2 (drop (p + 2) buffer)).
Proof.
  intros Hfit.
  assert (4 <= length (drop p buffer))%nat as Hlen by (rewrite length_drop; lia).
  rewrite <- (drop_drop buffer 2 p).
  destruct (drop p buffer) as [|a [|b [|c [|d rest]]]]; cbn in Hlen; try lia.
  apply be_halves.
Qed.

End Reader.

(** X1.  [readBuffer] never raises.  Asked for [len] bytes it returns the
    bytes that are there, at most [len], and moves the position by [len] even
    past the end of the buffer; what it returns and what [remaining] returns
    after it are together what [remaining] returned before it; and once the
    position has reached the end, [word8] raises. *)
Theorem readBuffer_partition (r : Binary.BinaryReader) (len : Z) :
  0 <= len ->
  exists chunk rest r',
    Binary.readBuffer len r = Ok (chunk, r')
    /\ Binary.getPosition r' = Ok ((Binary.pos r + Z.to_nat len)%nat, r')
    /\ length chunk = Nat.min (Z.to_nat len) (length (Binary.buf r) - Binary.pos r)
    /\ Binary.remaining r' = Ok (rest, r')
    /\ Binary.remaining r = Ok (chunk ++ rest, r)
    /\ ((length (Binary.buf r) <= Binary.pos r + Z.to_nat len)%nat ->
        rest = [] /\ Binary.word8 r' = Throw RangeError).
Proof.
  intros Hlen. do 3 eexists. split_and!; try reflexivity.
  - unfold Buf.subarray. rewrite length_take, length_drop. lia.
  - unfold Binary.remaining, Buf.subarray_from, Buf.subarray; cbn.
    do 2 f_equal. replace (Binary.pos r + Z.to_nat len - Binary.pos r)%nat
      with (Z.to_nat len) by lia.
    rewrite <- (drop_drop _ (Z.to_nat len) (Binary.pos r)). by rewrite take_drop.
  - intros Hpast. cbn. split.
    + unfold Buf.subarray_from. apply drop_ge. lia.
    + rewrite word8_lookup. cbn.
      destruct (Binary.buf r !! _) as [b|] eqn:Hb; [|done].
      apply lookup_lt_Some in Hb. lia.
Qed.

(** A read of four bytes from a buffer that holds two. *)
Lemma readBuffer_partition_witness :
  exists chunk rest r',
    Binary.readBuffer 4 (Binary.mkReader [x01; x02; x03] 1) = Ok (chunk, r')
    /\ Binary.getPosition r' = Ok (5%nat, r')
    /\ length chunk = 2%nat
    /\ Binary.remaining r' = Ok (rest, r')
    /\ Binary.remaining (Binary.mkReader [x01; x02; x03] 1)
       = Ok (chunk ++ rest, Binary.mkReader [x01; x02; x03] 1)
    /\ ((3 <= 5)%nat -> rest = [] /\ Binary.word8 r' = Throw RangeError).
Proof.
  apply (readBuffer_partition (Binary.mkReader [x01; x02; x03] 1) 4). lia.
Defined.

(** X2.  [parseConnectRequest] raises a RangeError on a buffer of fewer than
    four bytes and on no other.  Otherwise the four header fields are the
    first four bytes, [remaining] is the rest and [requestBuffer] the whole
    buffer: header and remaining bytes put together give the buffer back. *)
Theorem parseConnectRequest_layout (buffer : Buffer) :
  match Binary.parseConnectRequest buffer with
  | Ok request =>
      let header := [Binary.ConnectRequest.ver request; Binary.ConnectRequest.cmd request;
                     Binary.ConnectRequest.rsv request; Binary.ConnectRequest.atyp request] in
      (byte_of <$> header) ++ Binary.ConnectRequest.remaining request = buffer
      /\ Binary.ConnectRequest.requestBuffer request = buffer
      /\ Forall (fun field => 0 <= field < 256) header
      /\ (4 <= length buffer)%nat
  | Throw e => e = RangeError /\ (length buffer < 4)%nat
  end.
Proof.
  destruct buffer as [|b0 [|b1 [|b2 [|b3 rest]]]];
    try (cbn; split; [reflexivity | lia]).
  rewrite parseConnectRequest_ok. cbn.
  rewrite !byte_of_val. split_and!; [done | done | | lia].
  repeat constructor; apply byte_val_bounds.
Qed.

Section AuthRequest.

Lemma parseAuthRequest_at ver ulen rest plen :
  rest !! Z.to_nat (byte_val ulen) = Some plen ->
  Binary.parseAuthRequest (ver :: ulen :: rest)
  = Ok (Binary.AuthRequest.mk
          (byte_val ver) (byte_val ulen) (take (Z.to_nat (byte_val ulen)) rest)
          (byte_val plen)
          (take (Z.to_nat (byte_val plen)) (drop (S (Z.to_nat (byte_val ulen))) rest))
          (ver :: ulen :: rest)).
Proof.
  intros Hplen.
  unfold Binary.parseAuthRequest, Binary.run, mbind, Binary.Reader_bind, Binary.readBuffer.
  repeat (rewrite word8_lookup; cbn).
  destruct (rest !! Z.to_nat (byte_val ulen)) as [plen'|] eqn:Hplen'; simplify_eq; cbn.
  rewrite drop_0, Nat.sub_0_r.
  replace (Z.to_nat (byte_val ulen) + 1 + Z.to_nat (byte_val plen)
           - (Z.to_nat (byte_val ulen) + 1))%nat with (Z.to_nat (byte_val plen)) by lia.
  by replace (Z.to_nat (byte_val ulen) + 1)%nat with (S (Z.to_nat (byte_val ulen))) by lia.
Qed.

Lemma parseAuthRequest_frame ver plen uname passwd extra :
  (length uname < 256)%nat ->
  length passwd = Z.to_nat (byte_val plen)
  \/ ((length passwd < Z.to_nat (byte_val plen))%nat /\ extra = []) ->
  Binary.parseAuthRequest
    (ver :: byte_of (Z.of_nat (length uname)) :: uname ++ plen :: passwd ++ extra)
  = Ok (Binary.AuthRequest.mk
          (byte_val ver) (Z.of_nat (length uname)) uname (byte_val plen) passwd
          (ver :: byte_of (Z.of_nat (length uname)) :: uname ++ plen :: passwd ++ extra)).
Proof.
  intros Hulen Hplen.
  assert (byte_val (byte_of (Z.of_nat (length uname))) = Z.of_nat (length uname)) as Hval
    by (apply byte_val_of; lia).
  rewrite (parseAuthRequest_at _ _ _ plen); rewrite Hval, Nat2Z.id.
  - f_equal. f_equal.
    + by rewrite take_app_length.
    + rewrite drop_app_ge by lia.
      replace (S (length uname) - length uname)%nat with 1%nat by lia.
      change (drop 1 (plen :: passwd ++ extra)) with (passwd ++ extra).
      destruct Hplen as [<-|[Hshort ->]].
      * by rewrite take_app_length.
      * rewrite app_nil_r. apply take_ge. lia.
  - by rewrite lookup_app_r, Nat.sub_diag by lia.
Qed.

End AuthRequest.

(** X3.  A frame laid out as VER, ULEN, UNAME, PLEN, PASSWD decodes to these
    fields, and bytes after the password are ignored.  A frame that stops
    inside the password decodes too, with the bytes that are there as the
    password: [parseAuthRequest] does not compare PLEN with what follows. *)
Theorem parseAuthRequest_decodes (ver plen : byte) (uname passwd extra : Buffer) :
  (length uname < 256)%nat ->
  length passwd = Z.to_nat (byte_val plen)
  \/ ((length passwd < Z.to_nat (byte_val plen))%nat /\ extra = []) ->
  let buffer := ver :: byte_of (Z.of_nat (length uname)) :: uname ++ plen :: passwd ++ extra in
  Binary.parseAuthRequest buffer
  = Ok (Binary.AuthRequest.mk (byte_val ver) (Z.of_nat (length uname)) uname
                              (byte_val plen) passwd buffer).
Proof. intros Hulen Hplen. by apply parseAuthRequest_frame. Qed.

(** The credentials of the tests, whole and cut after four bytes of the
    password. *)
Lemma parseAuthRequest_decodes_witness :
  Binary.parseAuthRequest (auth_frame "testuser" "testpass")
  = Ok (Binary.AuthRequest.mk 1 8 (list_byte_of_string "testuser")
                              8 (list_byte_of_string "testpass")
                              (auth_frame "testuser" "testpass"))
  /\ Binary.parseAuthRequest (take 15 (auth_frame "testuser" "testpass"))
     = Ok (Binary.AuthRequest.mk 1 8 (list_byte_of_string "testuser")
                                 8 (list_byte_of_string "test")
                                 (take 15 (auth_frame "testuser" "testpass"))).
Proof.
  split.
  - apply (parseAuthRequest_decodes x01 x08 (list_byte_of_string "testuser")
                                    (list_byte_of_string "testpass") []).
    + vm_compute. lia.
    + left. reflexivity.
  - assert ((length (list_byte_of_string "testuser") < 256)%nat) as Hulen
      by (vm_compute; lia).
    assert ((length (list_byte_of_string "test") < Z.to_nat (byte_val x08))%nat) as Hplen
      by (vm_compute; lia).
    exact (parseAuthRequest_decodes x01 x08 (list_byte_of_string "testuser")
             (list_byte_of_string "test") [] Hulen (or_intror (conj Hplen eq_refl))).
Defined.

Section IPv6.

Lemma parseIPv6Address_ok buffer :
  (16 <= length buffer)%nat ->
  Binary.parseIPv6Address buffer = Ok (String.concat ":" (groups16 buffer)).
Proof.
  intros Hlen.
  unfold Binary.parseIPv6Address, Binary.run, Binary.ipv6_parts, mbind, Binary.Reader_bind.
  repeat (rewrite word32be_at by (cbn; lia); cbn [Binary.buf Binary.pos]).
  unfold groups16.
  cbn [mret Binary.Reader_ret app seq fmap list_fmap Nat.mul Nat.add].
  destruct (be_halves_at buffer 0) as [-> ->]; [lia|].
  destruct (be_halves_at buffer 4) as [-> ->]; [lia|].
  destruct (be_halves_at buffer 8) as [-> ->]; [lia|].
  destruct (be_halves_at buffer 12) as [-> ->]; [lia|].
  reflexivity.
Qed.

End IPv6.

(** X4.  [parseIPv6Address] raises on fewer than sixteen bytes and ignores
    what follows them.  Its result is the eight 16-bit groups of the address
    in order, each in hexadecimal without leading zeros, joined by colons:
    the two halves it takes of each 32-bit word are the groups, and no run of
    zero groups is shortened. *)
Theorem parseIPv6Address_groups (buffer : Buffer) :
  Binary.parseIPv6Address buffer
  = if decide (16 <= length buffer)%nat
    then Ok (String.concat ":" (groups16 buffer))
    else Throw RangeError.
Proof.
  destruct (decide (16 <= length buffer)%nat) as [Hlen|Hlen].
  - by apply parseIPv6Address_ok.
  - pose proof (parseIPv6Address_total buffer) as Htotal.
    rewrite bool_decide_eq_false_2 in Htotal by done.
    by destruct (Binary.parseIPv6Address buffer) as [addr|[]].
Qed.

(** The loopback address ::1 comes out with all its groups. *)
Example parseIPv6Address_loopback :
  Binary.parseIPv6Address (replicate 15 x00 ++ [x01]) = Ok "0:0:0:0:0:0:0:1"%string.
Proof. reflexivity. Qed.

(** ** The destination of a request in server.ts *)

Section Destination.
Context `{Node}.

Lemma readUInt16BE_range buffer offset value :
  Buf.readUInt16BE buffer offset = Ok value -> 0 <= value <= 65535.
Proof.
  unfold Buf.readUInt16BE, Buf.readUIntBE. destruct (decide _) as [Hfit|]; [|done].
  intros [= <-].
  pose proof (be_bounds (take 2 (drop offset buffer))) as Hbe.
  rewrite length_take, length_drop in Hbe.
  replace (2 `min` (length buffer - offset))%nat with 2%nat in Hbe by lia.
  change (256 ^ Z.of_nat 2) with 65536 in Hbe. lia.
Qed.

Lemma readUInt16BE_after prefix p1 p2 extra :
  Buf.readUInt16BE (prefix ++ p1 :: p2 :: extra) (length prefix)
  = Ok (byte_val p1 * 256 + byte_val p2).
Proof.
  unfold Buf.readUInt16BE. rewrite readUIntBE_ok by (rewrite length_app; cbn; lia).
  rewrite drop_app_length. cbn [take]. by rewrite be_pair.
Qed.

Lemma destination_ipv4 request addr p1 p2 extra :
  Binary.ConnectRequest.atyp request = RFC_1928_ATYP.IPV4 ->
  length addr = 4%nat ->
  Binary.ConnectRequest.remaining request = addr ++ p1 :: p2 :: extra ->
  Server.destination request
  = Ok (Some (Binary.parseIPv4Address addr, byte_val p1 * 256 + byte_val p2)).
Proof.
  intros Hatyp Hlen Hrest. unfold Server.destination.
  rewrite Hatyp, Hrest. rewrite decide_True by done.
  unfold Buf.subarray. rewrite drop_0, Nat.sub_0_r, <- Hlen, take_app_length.
  by rewrite readUInt16BE_after.
Qed.

Lemma destination_domain request addr p1 p2 extra :
  Binary.ConnectRequest.atyp request = RFC_1928_ATYP.DOMAINNAME ->
  (length addr < 256)%nat ->
  Binary.ConnectRequest.remaining request
  = byte_of (Z.of_nat (length addr)) :: addr ++ p1 :: p2 :: extra ->
  Server.destination request = Ok (Some (toString addr, byte_val p1 * 256 + byte_val p2)).
Proof.
  intros Hatyp Hlen Hrest. unfold Server.destination.
  rewrite Hatyp, Hrest. rewrite decide_False by done. rewrite decide_True by done.
  assert (byte_val (byte_of (Z.of_nat (length addr))) = Z.of_nat (length addr)) as Hval
    by (apply byte_val_of; lia).
  unfold Binary.parseDomainName, Binary.run, mbind, Binary.Reader_bind, Binary.readBuffer.
  rewrite word8_lookup; cbn. rewrite Hval, Nat2Z.id.
  unfold Buf.subarray; cbn.
  rewrite drop_0, Nat.sub_0_r, take_app_length.
  pose proof (readUInt16BE_after (byte_of (Z.of_nat (length addr)) :: addr) p1 p2 extra)
    as Hport.
  cbn [app length] in Hport.
  replace (Z.to_nat (Z.of_nat (length addr) + 1)) with (S (length addr)) by lia.
  by rewrite Hport.
Qed.

Lemma destination_ipv6 request addr p1 p2 extra :
  Binary.ConnectRequest.atyp request = RFC_1928_ATYP.IPV6 ->
  length addr = 16%nat ->
  Binary.ConnectRequest.remaining request = addr ++ p1 :: p2 :: extra ->
  Server.destination request
  = Ok (Some (String.concat ":" (groups16 addr), byte_val p1 * 256 + byte_val p2)).
Proof.
  intros Hatyp Hlen Hrest. unfold Server.destination.
  rewrite Hatyp, Hrest. rewrite !decide_False by done. rewrite decide_True by done.
  unfold Buf.subarray. rewrite drop_0, Nat.sub_0_r, <- Hlen, take_app_length.
  rewrite parseIPv6Address_ok by lia. cbn.
  by rewrite readUInt16BE_after.
Qed.

End Destination.

(** X5.  The destination [connect] takes from a request, for each address
    type: four bytes give the dotted decimal address, a length byte and that
    many bytes give the domain name, sixteen bytes give the eight groups of an
    IPv6 address; the two bytes that follow are the port, high byte first, and
    anything after the port is ignored. *)
Theorem destination_decodes `{Node} (request : Binary.ConnectRequest.t)
    (addr : Buffer) (p1 p2 : byte) (extra : Buffer) :
  let atyp := Binary.ConnectRequest.atyp request in
  let remaining := Binary.ConnectRequest.remaining request in
  let dport := byte_val p1 * 256 + byte_val p2 in
  (atyp = RFC_1928_ATYP.IPV4 -> length addr = 4%nat ->
   remaining = addr ++ p1 :: p2 :: extra ->
   Server.destination request
   = Ok (Some (String.concat "." ((fun b => pretty (byte_val b)) <$> addr), dport)))
  /\ (atyp = RFC_1928_ATYP.DOMAINNAME -> (length addr < 256)%nat ->
      remaining = byte_of (Z.of_nat (length addr)) :: addr ++ p1 :: p2 :: extra ->
      Server.destination request = Ok (Some (toString addr, dport)))
  /\ (atyp = RFC_1928_ATYP.IPV6 -> length addr = 16%nat ->
      remaining = addr ++ p1 :: p2 :: extra ->
      Server.destination request = Ok (Some (String.concat ":" (groups16 addr), dport))).
Proof.
  cbv zeta. split_and!.
  - apply destination_ipv4.
  - apply destination_domain.
  - apply destination_ipv6.
Qed.

(** 127.0.0.1:80, example.com:443 and [::1]:8080. *)
Lemma destination_decodes_witness :
  @Server.destination loopback
    (Binary.ConnectRequest.mk 5 1 0 1 connect_127_0_0_1_80 [x7f; x00; x00; x01; x00; x50])
  = Ok (Some ("127.0.0.1"%string, 80))
  /\ @Server.destination loopback
       (Binary.ConnectRequest.mk 5 1 0 3 [] (x0b :: list_byte_of_string "example.com"
                                              ++ [x01; xbb]))
     = Ok (Some ("example.com"%string, 443))
  /\ @Server.destination loopback
       (Binary.ConnectRequest.mk 5 1 0 4 [] (replicate 15 x00 ++ [x01; x1f; x90]))
     = Ok (Some ("0:0:0:0:0:0:0:1"%string, 8080)).
Proof.
  split_and!.
  - apply (proj1 (@destination_decodes loopback
                    (Binary.ConnectRequest.mk 5 1 0 1 connect_127_0_0_1_80
                                              [x7f; x00; x00; x01; x00; x50])
                    [x7f; x00; x00; x01] x00 x50 [])); reflexivity.
  - apply (proj1 (proj2 (@destination_decodes loopback
                    (Binary.ConnectRequest.mk 5 1 0 3 [] (x0b :: list_byte_of_string "example.com"
                                                           ++ [x01; xbb]))
                    (list_byte_of_string "example.com") x01 xbb []))).
    + reflexivity.
    + vm_compute. lia.
    + reflexivity.
  - apply (proj2 (proj2 (@destination_decodes loopback
                    (Binary.ConnectRequest.mk 5 1 0 4 [] (replicate 15 x00 ++ [x01; x1f; x90]))
                    (replicate 15 x00 ++ [x01]) x1f x90 []))); reflexivity.
Defined.

(** X6.  Whatever the request, a destination that [connect] decodes has a
    port between 0 and 65535; port 0 is not refused. *)
Theorem destination_port_range `{Node} (request : Binary.ConnectRequest.t)
    (addr : string) (dport : Z) :
  Server.destination request = Ok (Some (addr, dport)) -> 0 <= dport <= 65535.
Proof.
  unfold Server.destination, mbind, result_bind, mret, result_ret.
  intros Hdst.
  repeat case_match; simplify_eq; by eapply readUInt16BE_range.
Qed.

Lemma destination_port_range_witness :
  0 <= 0 <= 65535.
Proof.
  apply (@destination_port_range loopback
           (Binary.ConnectRequest.mk 5 1 0 1 [] [x7f; x00; x00; x01; x00; x00])
           "127.0.0.1"%string 0).
  reflexivity.
Defined.

(** ** The handlers of server.ts *)

Section ServerHandlers.
Context `{Node}.
Variable options : Server.SocksServerOptions.t.

Lemma server_connect_bad_version buffer request w :
  Binary.parseConnectRequest buffer = Ok request ->
  Binary.ConnectRequest.ver request <> RFC_1928_VERSION ->
  ended (socket w) = false ->
  Server.connect options buffer w
  = (Ok tt, mkWorld (mkSocket (listener (socket w))
                              (wire (socket w) ++ [(running w, [x05; x01])])
                              true (faults (socket w)) (forwarded (socket w)))
                    (self w) (running w) (activeSessions w) (trace w)).
Proof.
  intros Hparse Hver Hopen.
  unfold Server.connect, Server.end_. unfold_monad; cbn.
  rewrite Hparse; cbn. rewrite decide_True by done. cbn. by rewrite Hopen.
Qed.

Lemma server_connect_bad_atyp buffer request w :
  Binary.parseConnectRequest buffer = Ok request ->
  Binary.ConnectRequest.ver request = RFC_1928_VERSION ->
  Binary.ConnectRequest.atyp request
    ∉ [RFC_1928_ATYP.IPV4; RFC_1928_ATYP.DOMAINNAME; RFC_1928_ATYP.IPV6] ->
  ended (socket w) = false ->
  Server.connect options buffer w
  = (Ok tt, mkWorld (mkSocket (listener (socket w))
                              (wire (socket w) ++ [(running w, [x05; x08])])
                              true (faults (socket w)) (forwarded (socket w)))
                    (self w) (running w) (activeSessions w ++ [self w]) (trace w)).
Proof.
  intros Hparse Hver Hatyp Hopen.
  rewrite !not_elem_of_cons in Hatyp. destruct Hatyp as (Hv4 & Hname & Hv6 & _).
  unfold Server.connect, Server.end_, Server.destination. unfold_monad; cbn.
  rewrite Hparse; cbn. rewrite decide_False by (by intros []). cbn.
  rewrite !decide_False by done. cbn. by rewrite Hopen.
Qed.

End ServerHandlers.

(** X7.  The two refusals of [connect] in server.ts that come before any
    outbound attempt.  A request whose version is not 5 is answered 05 01 and
    the socket ended, and the socket is not put on [activeSessions].  A
    request of version 5 with an address type other than 1, 3 and 4 is
    answered 05 08 and the socket ended, after the socket was put on
    [activeSessions].  Neither calls the factory or emits an event; both
    replies are two bytes long. *)
Theorem server_connect_refusals `{Node} (options : Server.SocksServerOptions.t)
    (buffer : Buffer) (request : Binary.ConnectRequest.t) (w : World) :
  Binary.parseConnectRequest buffer = Ok request ->
  ended (socket w) = false ->
  let run := Server.connect options buffer w in
  (Binary.ConnectRequest.ver request <> RFC_1928_VERSION ->
   run.1 = Ok tt
   /\ wire (socket run.2) = wire (socket w) ++ [(running w, [x05; x01])]
   /\ ended (socket run.2) = true
   /\ activeSessions run.2 = activeSessions w
   /\ trace run.2 = trace w)
  /\ (Binary.ConnectRequest.ver request = RFC_1928_VERSION ->
      Binary.ConnectRequest.atyp request
        ∉ [RFC_1928_ATYP.IPV4; RFC_1928_ATYP.DOMAINNAME; RFC_1928_ATYP.IPV6] ->
      run.1 = Ok tt
      /\ wire (socket run.2) = wire (socket w) ++ [(running w, [x05; x08])]
      /\ ended (socket run.2) = true
      /\ activeSessions run.2 = activeSessions w ++ [self w]
      /\ trace run.2 = trace w).
Proof.
  intros Hparse Hopen. cbv zeta. split.
  - intros Hver. by rewrite (server_connect_bad_version options buffer request w).
  - intros Hver Hatyp. by rewrite (server_connect_bad_atyp options buffer request w).
Qed.

(** A request of version 4, and one with address type 2. *)
Lemma server_connect_refusals_witness :
  wire (socket (@Server.connect loopback server_plain
                  [x04; x01; x00; x01; x7f; x00; x00; x01; x00; x50] (accepted 0%nat [])).2)
  = [(Greeting, [x05; x01])]
  /\ wire (socket (@Server.connect loopback server_plain
                     [x05; x01; x00; x02; x7f; x00; x00; x01; x00; x50] (accepted 0%nat [])).2)
     = [(Greeting, [x05; x08])].
Proof.
  split.
  - apply (proj1 (@server_connect_refusals loopback server_plain
                    [x04; x01; x00; x01; x7f; x00; x00; x01; x00; x50]
                    (Binary.ConnectRequest.mk 4 1 0 1
                       [x04; x01; x00; x01; x7f; x00; x00; x01; x00; x50]
                       [x7f; x00; x00; x01; x00; x50])
                    (accepted 0%nat []) eq_refl eq_refl)).
    discriminate.
  - apply (proj2 (@server_connect_refusals loopback server_plain
                    [x05; x01; x00; x02; x7f; x00; x00; x01; x00; x50]
                    (Binary.ConnectRequest.mk 5 1 0 2
                       [x05; x01; x00; x02; x7f; x00; x00; x01; x00; x50]
                       [x7f; x00; x00; x01; x00; x50])
                    (accepted 0%nat []) eq_refl eq_refl)).
    + reflexivity.
    + vm_compute. intros Hin. by repeat (apply elem_of_cons in Hin as [?|Hin]; [done|]);
        apply elem_of_nil in Hin.
Defined.

(** X8.  When the factory resolves, [connect] in server.ts answers with a
    reply as long as the request: the bytes 05 00 00 followed by the request
    from its fourth byte on, so that the address type, address and port of the
    request come back as the bound address.  The socket is then piped to the
    outbound stream, is not ended, is on [activeSessions], and the factory was
    called once, with the decoded destination; no event is emitted. *)
Theorem server_connect_success `{Node} (options : Server.SocksServerOptions.t)
    (buffer : Buffer) (request : Binary.ConnectRequest.t) (addr : string) (dport : Z)
    (target : Duplex) (w : World) :
  Binary.parseConnectRequest buffer = Ok request ->
  Binary.ConnectRequest.ver request = RFC_1928_VERSION ->
  Server.destination request = Ok (Some (addr, dport)) ->
  Server.outboundSocket options addr dport = Resolved target ->
  ended (socket w) = false ->
  let run := Server.connect options buffer w in
  run.1 = Ok tt
  /\ wire (socket run.2) = wire (socket w) ++ [(running w, [x05; x00; x00] ++ drop 3 buffer)]
  /\ length ([x05; x00; x00] ++ drop 3 buffer) = length buffer
  /\ listener (socket run.2) = Pipe target
  /\ ended (socket run.2) = false
  /\ activeSessions run.2 = activeSessions w ++ [self w]
  /\ trace run.2 = trace w ++ [CallSocketFactory (Some addr) (Some dport)].
Proof.
  intros Hparse Hver Hdst Hfactory Hopen. cbv zeta.
  rewrite (server_connect_resolved options buffer request addr dport target w) by done.
  split_and!; try done.
  pose proof (parseConnectRequest_total buffer) as Htotal. rewrite Hparse in Htotal.
  symmetry in Htotal. apply bool_decide_eq_true in Htotal.
  rewrite length_app, length_drop. cbn. lia.
Qed.

(** The CONNECT to 127.0.0.1:80 of the tests; the reserved byte of the
    request does not come back. *)
Lemma server_connect_success_witness :
  wire (socket (@Server.connect loopback server_plain
                  [x05; x01; xaa; x01; x7f; x00; x00; x01; x00; x50] (accepted 0%nat [])).2)
  = [(Greeting, [x05; x00; x00; x01; x7f; x00; x00; x01; x00; x50])].
Proof.
  apply (@server_connect_success loopback server_plain
           [x05; x01; xaa; x01; x7f; x00; x00; x01; x00; x50]
           (Binary.ConnectRequest.mk 5 1 170 1
              [x05; x01; xaa; x01; x7f; x00; x00; x01; x00; x50]
              [x7f; x00; x00; x01; x00; x50])
           "127.0.0.1"%string 80 1%nat (accepted 0%nat [])); reflexivity.
Defined.

Section ServerAuthenticate.
Context `{Node}.
Variable options : Server.SocksServerOptions.t.

Lemma server_authenticate_bad_version buffer request w :
  Binary.parseAuthRequest buffer = Ok request ->
  Binary.AuthRequest.ver request <> RFC_1929_VERSION ->
  ended (socket w) = false ->
  Server.authenticate options buffer w
  = (Ok tt, mkWorld (mkSocket (listener (socket w))
                              (wire (socket w) ++ [(running w, [x05; xff])])
                              true (faults (socket w)) (forwarded (socket w)))
                    (self w) (running w) (activeSessions w) (trace w)).
Proof.
  intros Hparse Hver Hopen.
  unfold Server.authenticate, Server.end_. unfold_monad; cbn.
  rewrite Hparse; cbn. rewrite decide_True by done. cbn. by rewrite Hopen.
Qed.

Lemma server_authenticate_called buffer request callback w :
  Binary.parseAuthRequest buffer = Ok request ->
  Binary.AuthRequest.ver request = RFC_1929_VERSION ->
  Server.SocksServerOptions.authenticate options = Some callback ->
  callback (toString (Binary.AuthRequest.uname request))
           (toString (Binary.AuthRequest.passwd request)) (self w) = Called None ->
  ended (socket w) = false ->
  Server.authenticate options buffer w
  = (Ok tt, mkWorld (mkSocket (Once Connect)
                              (wire (socket w) ++ [(running w, [x01; x00])])
                              false (faults (socket w)) (forwarded (socket w)))
                    (self w) (running w) (activeSessions w)
                    (trace w ++ [CallAuthenticate (toString (Binary.AuthRequest.uname request))
                                                  (toString (Binary.AuthRequest.passwd request));
                                 Emit AUTHENTICATION
                                   [VStr (toString (Binary.AuthRequest.uname request))]])).
Proof.
  intros Hparse Hver Hauth Haccept Hopen.
  unfold Server.authenticate, Server.this_socket. unfold_monad; cbn.
  rewrite Hparse; cbn. rewrite decide_False by (by intros []). rewrite Hauth; cbn.
  rewrite Haccept; cbn. rewrite Hopen; cbn. by rewrite <- app_assoc.
Qed.

End ServerAuthenticate.

(** X9.  What [authenticate] in server.ts does with a frame laid out as VER,
    ULEN, UNAME, PLEN, PASSWD.  With a version other than 1 the callback is
    not consulted: the reply is 05 FF and the socket is ended.  With version
    1 the callback is called once, with the user name and the password as
    [toString] gives them and with the socket; when it accepts, the server
    emits [authenticate] with the user name, answers 01 00 and arms
    [connect].  Names and passwords of length 0 are passed on like any
    other. *)
Theorem server_authenticate_outcomes `{Node} (options : Server.SocksServerOptions.t)
    (callback : string -> string -> SocketId -> Done)
    (ver plen : byte) (uname passwd extra : Buffer) (w : World) :
  Server.SocksServerOptions.authenticate options = Some callback ->
  (length uname < 256)%nat ->
  length passwd = Z.to_nat (byte_val plen) ->
  ended (socket w) = false ->
  let buffer := ver :: byte_of (Z.of_nat (length uname)) :: uname ++ plen :: passwd ++ extra in
  let run := Server.authenticate options buffer w in
  (byte_val ver <> RFC_1929_VERSION ->
   run.1 = Ok tt
   /\ wire (socket run.2) = wire (socket w) ++ [(running w, [x05; xff])]
   /\ ended (socket run.2) = true
   /\ trace run.2 = trace w)
  /\ (byte_val ver = RFC_1929_VERSION ->
      callback (toString uname) (toString passwd) (self w) = Called None ->
      run.1 = Ok tt
      /\ wire (socket run.2) = wire (socket w) ++ [(running w, [x01; x00])]
      /\ listener (socket run.2) = Once Connect
      /\ ended (socket run.2) = false
      /\ trace run.2 = trace w ++ [CallAuthenticate (toString uname) (toString passwd);
                                   Emit AUTHENTICATION [VStr (toString uname)]]).
Proof.
  intros Hauth Hulen Hplen Hopen. cbv zeta.
  pose proof (parseAuthRequest_frame ver plen uname passwd extra Hulen (or_introl Hplen))
    as Hparse.
  split.
  - intros Hver.
    by rewrite (server_authenticate_bad_version options _ _ w Hparse Hver Hopen).
  - intros Hver Haccept.
    by rewrite (server_authenticate_called options _ _ callback w Hparse Hver Hauth Haccept Hopen).
Qed.

(** The credentials of the tests, and a frame of version 5. *)
Lemma server_authenticate_outcomes_witness :
  wire (socket (@Server.authenticate loopback server_with_password
                  (x05 :: drop 1 (auth_frame "testuser" "testpass")) (accepted 0%nat [])).2)
  = [(Greeting, [x05; xff])]
  /\ wire (socket (@Server.authenticate loopback server_with_password
                     (auth_frame "testuser" "testpass") (accepted 0%nat [])).2)
     = [(Greeting, [x01; x00])].
Proof.
  split.
  - apply (proj1 (@server_authenticate_outcomes loopback server_with_password check_password
                    x05 x08 (list_byte_of_string "testuser") (list_byte_of_string "testpass")
                    [] (accepted 0%nat []) eq_refl ltac:(vm_compute; lia) eq_refl eq_refl)).
    discriminate.
  - apply (proj2 (@server_authenticate_outcomes loopback server_with_password check_password
                    x01 x08 (list_byte_of_string "testuser") (list_byte_of_string "testpass")
                    [] (accepted 0%nat []) eq_refl ltac:(vm_compute; lia) eq_refl eq_refl));
      reflexivity.
Defined.

(** ** The request handler of the first implementation *)

Section StreamHandlers.
Context `{Node}.
Variable options : StreamServer.SocksServerOptions.t.
Variable origin : Endpoint.

Lemma stream_command_resolved buffer addr dport target w :
  (forall filter, StreamServer.SocksServerOptions.connectionFilter options = Some filter ->
                  filter (mkEndpoint addr dport) origin = Called None) ->
  StreamServer.socketFactory options addr dport = Resolved target ->
  ended (socket w) = false ->
  let run := StreamServer.connect_command options origin buffer
               (Some RFC_1928_COMMANDS.CONNECT) addr dport w in
  run.1 = Ok tt
  /\ wire (socket run.2)
     = wire (socket w) ++ [(running w, Buf.set buffer 1 RFC_1928_REPLIES.SUCCEEDED)]
  /\ listener (socket run.2) = Pipe target
  /\ ended (socket run.2) = false
  /\ activeSessions run.2 = activeSessions w.
Proof.
  intros Hpass Hfactory Hopen.
  unfold StreamServer.connect_command, StreamServer.connectionFilter.
  rewrite decide_True by done.
  destruct (StreamServer.SocksServerOptions.connectionFilter options) as [filter|].
  - unfold_monad; cbn -[StreamServer.success_reply]. rewrite (Hpass filter eq_refl).
    rewrite Hfactory; cbn -[StreamServer.success_reply]. rewrite Hopen.
    by rewrite stream_success_reply.
  - unfold_monad; cbn -[StreamServer.success_reply].
    rewrite Hfactory; cbn -[StreamServer.success_reply]. rewrite Hopen.
    by rewrite stream_success_reply.
Qed.

End StreamHandlers.

(** X10.  When the first implementation receives a CONNECT of version 5 with
    a supported address type, the filter lets the destination of the request
    pass and the factory resolves for that destination, it answers with the
    request itself, only its second byte set to 0: the reserved byte and the
    destination of the request come back unchanged.  The socket is piped to
    the outbound stream, is not ended, and is on [activeSessions]. *)
Theorem stream_connect_success `{Node} (options : StreamServer.SocksServerOptions.t)
    (origin : Endpoint) (buffer : Buffer) (atyp : Z) (target : Duplex) (w : World) :
  Buf.index buffer 0 = Some RFC_1928_VERSION ->
  Buf.index buffer 1 = Some RFC_1928_COMMANDS.CONNECT ->
  Buf.index buffer 3 = Some atyp ->
  atyp ∈ [RFC_1928_ATYP.IPV4; RFC_1928_ATYP.DOMAINNAME; RFC_1928_ATYP.IPV6] ->
  let destination := StreamServer.requested buffer in
  (forall filter,
     StreamServer.SocksServerOptions.connectionFilter options = Some filter ->
     filter destination origin = Called None) ->
  StreamServer.socketFactory options (address destination) (port destination)
  = Resolved target ->
  ended (socket w) = false ->
  let run := StreamServer.connect options origin buffer w in
  run.1 = Ok tt
  /\ wire (socket run.2)
     = wire (socket w) ++ [(running w, Buf.set buffer 1 RFC_1928_REPLIES.SUCCEEDED)]
  /\ listener (socket run.2) = Pipe target
  /\ ended (socket run.2) = false
  /\ activeSessions run.2 = activeSessions w ++ [self w].
Proof.
  intros Hver Hcmd Hatyp Hsupported destination Hpass Hfactory Hopen. cbv zeta.
  rewrite (stream_connect_requested options origin buffer atyp w) by done.
  rewrite Hcmd.
  apply (stream_command_resolved options origin buffer _ _ target
           (mkWorld (socket w) (self w) (running w) (activeSessions w ++ [self w]) (trace w)));
    [|done..].
  intros filter Hfilter. specialize (Hpass filter Hfilter).
  subst destination. by destruct (StreamServer.requested buffer).
Qed.

(** The CONNECT to 127.0.0.1:80, with a reserved byte that is not 0, on the
    server with its default factory. *)
Lemma stream_connect_success_witness :
  let run := @StreamServer.connect loopback stream_plain client
               [x05; x01; xaa; x01; x7f; x00; x00; x01; x00; x50] (accepted 0%nat []) in
  run.1 = Ok tt
  /\ wire (socket run.2) = [(Greeting, [x05; x00; xaa; x01; x7f; x00; x00; x01; x00; x50])]
  /\ listener (socket run.2) = Pipe 1%nat
  /\ ended (socket run.2) = false
  /\ activeSessions run.2 = [0%nat].
Proof.
  apply (@stream_connect_success loopback stream_plain client
           [x05; x01; xaa; x01; x7f; x00; x00; x01; x00; x50]
           RFC_1928_ATYP.IPV4 1%nat (accepted 0%nat [])).
  - reflexivity.
  - reflexivity.
  - reflexivity.
  - apply elem_of_cons. left. reflexivity.
  - intros filter Hfilter. discriminate Hfilter.
  - reflexivity.
  - reflexivity.
Defined.

(** X11.  In the first implementation a [return end(...)] in the first [tap]
    of [connect] leaves only that [tap].  A request with the CONNECT command
    that it has refused there, for its version or for its address type, is
    still taken through the second [tap]: with no filter configured, the
    socket factory is called after the socket was ended, and without an
    address. *)
Theorem stream_refused_request_reaches_factory `{Node}
    (options : StreamServer.SocksServerOptions.t) (origin : Endpoint)
    (buffer : Buffer) (w : World) :
  Buf.index buffer 1 = Some RFC_1928_COMMANDS.CONNECT ->
  StreamServer.SocksServerOptions.connectionFilter options = None ->
  Buf.index buffer 0 <> Some RFC_1928_VERSION
  \/ Buf.index buffer 3
       ∉ [Some RFC_1928_ATYP.IPV4; Some RFC_1928_ATYP.DOMAINNAME; Some RFC_1928_ATYP.IPV6] ->
  let run := StreamServer.connect options origin buffer w in
  let code := if decide (Buf.index buffer 0 <> Some RFC_1928_VERSION)
              then RFC_1928_REPLIES.GENERAL_FAILURE
              else RFC_1928_REPLIES.ADDRESS_TYPE_NOT_SUPPORTED in
  ended (socket run.2) = true
  /\ exists dport rest,
       trace run.2
       = trace w ++ Emit PROXY_END [VNum code] :: CallSocketFactory None dport :: rest.
Proof.
  intros Hcmd Hfilter Hrefused.
  destruct buffer as [|b0 [|b1 rest]]; try done.
  cbv zeta.
  destruct (StreamServer.connect options origin _ w) as [r w'] eqn:Hrun; cbn [fst snd].
  unfold StreamServer.connect, Chain.stream in Hrun.
  unfold Buf.index in *. cbn in Hcmd. simplify_eq.
  rewrite !not_elem_of_cons in Hrefused.
  destruct rest as [|b2 [|b3 rest]]; cbn in Hrefused;
    repeat (rewrite chain_word8_lookup in Hrun; cbn in Hrun).
  all: unfold StreamServer.connect_address, StreamServer.connect_command,
         StreamServer.connectionFilter, StreamServer.end_ in Hrun;
       rewrite Hfilter, Hcmd in Hrun.
  all: unfold_monad; cbn in Hrun.
  all: repeat (case_match; simplify_eq/=);
    try (exfalso; destruct Hrefused as [?|(? & ? & ? & ?)]; first [done | congruence]).
  all: rewrite <- ?app_assoc; cbn; split; [done | by eauto].
Qed.

(** A request of version 4 to 127.0.0.1:80: refused, and connected. *)
Lemma stream_refused_request_reaches_factory_witness :
  let run := @StreamServer.connect loopback stream_plain client
               [x04; x01; x00; x01; x7f; x00; x00; x01; x00; x50] (accepted 0%nat []) in
  ended (socket run.2) = true
  /\ exists dport rest,
       trace run.2
       = [] ++ Emit PROXY_END [VNum RFC_1928_REPLIES.GENERAL_FAILURE]
            :: CallSocketFactory None dport :: rest.
Proof.
  apply (@stream_refused_request_reaches_factory loopback stream_plain client
           [x04; x01; x00; x01; x7f; x00; x00; x01; x00; x50] (accepted 0%nat [])).
  - reflexivity.
  - reflexivity.
  - left. discriminate.
Defined.

(** The port is read where the address starts, since the refusing [tap] has
    not read the address.  A request of version 4 whose bytes there are 00 50:
    the factory is called for port 80 and the loopback platform connects; the
    success reply is refused by the ended socket, which is destroyed, so that
    the outbound connection is made and nothing is relayed. *)
Example stream_refused_request_connects :
  let run := @StreamServer.connect loopback stream_plain client
               [x04; x01; x00; x01; x00; x50; x00; x01; x00; x50] (accepted 0%nat []) in
  trace run.2
  = [Emit PROXY_END [VNum 1]; CallSocketFactory None (Some 80);
     Emit PROXY_CONNECT [VEndpoint (mkEndpoint None (Some 80)); VStream 1%nat];
     Emit PROXY_CONNECT [VEndpoint (mkEndpoint None (Some 80)); VStream 1%nat]]
  /\ frames run.2 = [[x04; x01; x00; x01; x00; x50; x00; x01; x00; x50]]
  /\ faults (socket run.2) = 1%nat
  /\ listener (socket run.2) = NoListener
  /\ activeSessions run.2 = [].
Proof. vm_compute. done. Qed.

Lemma take_min_length {A} (l : list A) n : take (length l `min` n) l = take n l.
Proof.
  destruct (decide (n <= length l)%nat).
  - by replace (length l `min` n)%nat with n by lia.
  - replace (length l `min` n)%nat with (length l) by lia.
    rewrite firstn_all. symmetry. apply take_ge. lia.
Qed.

(** X12.  The first implementation does not refuse a request that is cut
    short.  A CONNECT request of version 5 and address type IPv4 with fewer
    than ten bytes is taken as far as the socket factory, which is called
    with the dotted form of the address bytes that are there and with no
    port; the handler does not raise. *)
Theorem stream_truncated_request `{Node} (options : StreamServer.SocksServerOptions.t)
    (origin : Endpoint) (buffer : Buffer) (w : World) :
  Buf.index buffer 0 = Some RFC_1928_VERSION ->
  Buf.index buffer 1 = Some RFC_1928_COMMANDS.CONNECT ->
  Buf.index buffer 3 = Some RFC_1928_ATYP.IPV4 ->
  (length buffer < 10)%nat ->
  StreamServer.SocksServerOptions.connectionFilter options = None ->
  let run := StreamServer.connect options origin buffer w in
  run.1 = Ok tt
  /\ exists rest,
       trace run.2
       = trace w ++ CallSocketFactory
                      (Some (Binary.parseIPv4Address (take 4 (drop 4 buffer)))) None
                 :: rest.
Proof.
  intros Hver Hcmd Hatyp Hshort Hfilter.
  destruct buffer as [|b0 [|b1 [|b2 [|b3 rest]]]]; try done.
  unfold Buf.index in *; cbn in Hver, Hcmd, Hatyp. simplify_eq.
  cbv zeta.
  destruct (StreamServer.connect options origin _ w) as [r w'] eqn:Hrun; cbn [fst snd].
  unfold StreamServer.connect, Chain.stream in Hrun.
  repeat (rewrite chain_word8_lookup in Hrun; cbn in Hrun).
  unfold StreamServer.connect_address, StreamServer.connect_command,
    StreamServer.connectionFilter, StreamServer.end_ in Hrun.
  rewrite Hfilter, Hcmd, Hver, Hatyp in Hrun.
  unfold Chain.word16bu, Chain.word in Hrun.
  unfold_monad; cbn in Hrun.
  change (drop 4 (b0 :: b1 :: b2 :: b3 :: rest)) with rest.
  rewrite <- (take_min_length rest 4).
  repeat (case_match; simplify_eq/=); try (cbn in *; lia).
  all: rewrite <- ?app_assoc; cbn; rewrite ?drop_0, ?Nat.sub_0_r;
    split; [done | eexists; reflexivity].
Qed.

(** The request to 127.0.0.1:80 without its last four bytes. *)
Lemma stream_truncated_request_witness :
  let run := @StreamServer.connect loopback stream_plain client
               [x05; x01; x00; x01; x7f; x00] (accepted 0%nat []) in
  run.1 = Ok tt
  /\ exists rest,
       trace run.2 = [] ++ CallSocketFactory (Some "127.0"%string) None :: rest.
Proof.
  apply (@stream_truncated_request loopback stream_plain client
           [x05; x01; x00; x01; x7f; x00] (accepted 0%nat [])); try reflexivity.
  vm_compute. lia.
Defined.

(** ** The [end] listener of the first implementation *)

Section EndListener.

Lemma indexOf_first before id after :
  id ∉ before ->
  StreamServer.indexOf (before ++ id :: after) id = Z.of_nat (length before).
Proof.
  intros Hfirst. unfold StreamServer.indexOf.
  assert (list_find (fun y => y = id) (before ++ id :: after) = Some (length before, id))
    as ->; [|done].
  apply list_find_Some. split_and!.
  - by rewrite lookup_app_r, Nat.sub_diag by lia.
  - done.
  - intros j y Hj Hlt ->. rewrite lookup_app_l in Hj by done.
    apply Hfirst. by eapply list_elem_of_lookup_2.
Qed.

Lemma indexOf_missing registry id :
  id ∉ registry -> StreamServer.indexOf registry id = -1.
Proof.
  intros Hmissing. unfold StreamServer.indexOf.
  assert (list_find (fun y => y = id) registry = None) as ->; [|done].
  apply list_find_None. apply Forall_forall. by intros y Hy ->.
Qed.

Lemma splice_one_at before id after :
  StreamServer.splice (before ++ id :: after) (Z.of_nat (length before)) 1
  = before ++ after.
Proof.
  unfold StreamServer.splice. rewrite length_app. cbn [length].
  rewrite decide_False by lia.
  replace (Z.of_nat (length before) `min` Z.of_nat (length before + S (length after)))
    with (Z.of_nat (length before)) by lia.
  replace ((1 `max` 0) `min` (Z.of_nat (length before + S (length after))
                                - Z.of_nat (length before))) with 1 by lia.
  rewrite Nat2Z.id, take_app_length.
  replace (Z.to_nat (Z.of_nat (length before) + 1)) with (S (length before)) by lia.
  rewrite drop_app_ge by lia.
  by replace (S (length before) - length before)%nat with 1%nat by lia.
Qed.

Lemma splice_last registry :
  StreamServer.splice registry (-1) 1 = take (length registry - 1) registry.
Proof.
  unfold StreamServer.splice. rewrite decide_True by lia.
  destruct registry as [|x registry]; [done|].
  cbn [length].
  replace ((Z.of_nat (S (length registry)) + -1) `max` 0)
    with (Z.of_nat (length registry)) by lia.
  replace ((1 `max` 0) `min` (Z.of_nat (S (length registry)) - Z.of_nat (length registry)))
    with 1 by lia.
  rewrite Nat2Z.id.
  replace (Z.to_nat (Z.of_nat (length registry) + 1)) with (S (length registry)) by lia.
  rewrite (drop_ge (x :: registry)) by (cbn; lia).
  rewrite app_nil_r. f_equal. lia.
Qed.

End EndListener.

(** X13.  The [end] listener of the first implementation takes the socket
    off [activeSessions] when it is there: its first entry goes, the others
    keep their order.  When the socket is not there, as for a client that
    ends before a request of version 5, [indexOf] gives -1 and [splice(-1, 1)]
    removes the last entry of the registry, the socket of another session. *)
Theorem end_listener_splice (w : World) :
  let registry := activeSessions w in
  let left := activeSessions (StreamServer.on_end w).2 in
  (forall before after,
     registry = before ++ self w :: after -> self w ∉ before -> left = before ++ after)
  /\ (self w ∉ registry -> left = take (length registry - 1) registry).
Proof.
  cbv zeta. unfold StreamServer.on_end. cbn [snd activeSessions]. split.
  - intros before after -> Hfirst. rewrite indexOf_first by done. apply splice_one_at.
  - intros Hmissing. rewrite indexOf_missing by done. apply splice_last.
Qed.

(** A client that ends after its greeting, while the sockets 1 and 2 are
    registered: socket 2 leaves the registry. *)
Lemma end_listener_splice_witness :
  activeSessions
    (StreamServer.on_end
       (feed (@StreamServer.handlers loopback stream_plain client) [greeting_no_auth]
             (accepted 7%nat [1%nat; 2%nat])).2).2
  = [1%nat].
Proof.
  apply (proj2 (end_listener_splice
                  (feed (@StreamServer.handlers loopback stream_plain client)
                        [greeting_no_auth] (accepted 7%nat [1%nat; 2%nat])).2)).
  vm_compute. intros Hin.
  by repeat (apply elem_of_cons in Hin as [?|Hin]; [done|]); apply elem_of_nil in Hin.
Defined.

(** ** Sessions: what holds after every sequence of chunks *)

Ltac solve_before :=
  unfold before_request, frames_of, count in *; cbn in *;
  rewrite ?filter_app, ?fmap_app, ?List.filter_app, ?length_app; cbn;
  split_and!;
  first [ done | lia
        | by repeat match goal with H : _ = _ |- _ => rewrite H end ].

(** The call that accepted the credentials is still on the trace. *)
Ltac solve_accepted Hauth :=
  let username := fresh "username" in
  let password := fresh "password" in
  let Hcalled := fresh "Hcalled" in
  let Hverdict := fresh "Hverdict" in
  destruct Hauth as (username & password & Hcalled & Hverdict);
  exists username, password; split;
  [ cbn; rewrite ?elem_of_app; tauto | exact Hverdict ].

(** The handler has just called the callback, which accepted. *)
Ltac solve_accepting :=
  do 2 eexists; split;
  [ cbn; rewrite !elem_of_app, !elem_of_cons; eauto 10 | cbn; eassumption ].

Ltac solve_gated Hinv Hl :=
  unfold gated in *;
  destruct Hinv as [Hauth|(Hphase & Hfactory & Hframes & Hregistry)];
  [ left; solve_accepted Hauth
  | rewrite Hl in Hphase;
    first [ done | right; solve_before | left; solve_accepting ] ].

Section Gate.
Context `{Node}.

Lemma server_deliver_gated options callback buffer w r w' :
  Server.SocksServerOptions.authenticate options = Some callback ->
  gated callback w -> deliver (Server.handlers options) buffer w = (r, w') ->
  gated callback w'.
Proof.
  intros Hconf Hinv Hrun. unfold deliver in Hrun.
  destruct (listener (socket w)) as [h| |target] eqn:Hl.
  - destruct h; unfold_server Hrun; unfold Server.configured in Hrun;
      rewrite ?Hconf in Hrun; handler_cases Hrun; solve_gated Hinv Hl.
  - by simplify_eq.
  - simplify_eq. solve_gated Hinv Hl.
Qed.

Lemma stream_deliver_gated options origin callback buffer w r w' :
  StreamServer.SocksServerOptions.authenticate options = Some callback ->
  gated callback w -> deliver (StreamServer.handlers options origin) buffer w = (r, w') ->
  gated callback w'.
Proof.
  intros Hconf Hinv Hrun. unfold deliver in Hrun.
  destruct (listener (socket w)) as [h| |target] eqn:Hl.
  - destruct h; unfold_stream Hrun; unfold StreamServer.basicAuth in Hrun;
      rewrite ?Hconf in Hrun; handler_cases Hrun; solve_gated Hinv Hl.
  - by simplify_eq.
  - simplify_eq. solve_gated Hinv Hl.
Qed.

Lemma gated_reached callback w :
  gated callback w -> reached_request w -> accepted_by callback w.
Proof.
  intros [Hauth|(Hphase & Hfactory & Hframes & Hregistry)] Hreached; [done|].
  unfold reached_request, Relaying in Hreached.
  destruct Hreached as [Hl|[[target Hl]|[?|[?|?]]]];
    try rewrite Hl in Hphase; try done; lia.
Qed.

Lemma accepted_gated callback : gated callback (accepted 0%nat []).
Proof. right. by compute. Qed.

End Gate.

(** X14.  Authentication cannot be skipped.  On a server configured with an
    [authenticate] callback, whatever chunks a client sends, a session that
    has its request handler armed, has answered a request, relays, is on
    [activeSessions] or has called the socket factory has called the
    callback with a user name and a password for which the callback answers
    [done()] without an error.  This holds for both servers. *)
Theorem authentication_required `{Node} :
  (forall options callback chunks,
     Server.SocksServerOptions.authenticate options = Some callback ->
     reached_request (Server.session options chunks).2 ->
     accepted_by callback (Server.session options chunks).2)
  /\ (forall options origin callback chunks,
        StreamServer.SocksServerOptions.authenticate options = Some callback ->
        reached_request (StreamServer.session options origin chunks).2 ->
        accepted_by callback (StreamServer.session options origin chunks).2).
Proof.
  split.
  - intros options callback chunks Hconf. apply gated_reached.
    destruct (Server.session options chunks) as [r w'] eqn:Hrun.
    eapply (feed_invariant (Server.handlers options) (gated callback));
      [|apply accepted_gated|exact Hrun].
    intros buffer w r1 w1. by apply server_deliver_gated.
  - intros options origin callback chunks Hconf. apply gated_reached.
    destruct (StreamServer.session options origin chunks) as [r w'] eqn:Hrun.
    eapply (feed_invariant (StreamServer.handlers options origin) (gated callback));
      [|apply accepted_gated|exact Hrun].
    intros buffer w r1 w1. by apply stream_deliver_gated.
Qed.

(** A session that relays after the credentials of the tests. *)
Lemma authentication_required_witness :
  accepted_by check_password
    (@Server.session loopback server_with_password
       [greeting_user_pass; auth_frame "testuser" "testpass"; connect_127_0_0_1_80]).2
  /\ accepted_by check_password
       (@StreamServer.session loopback stream_with_password client
          [greeting_user_pass; auth_frame "testuser" "testpass"; connect_127_0_0_1_80]).2.
Proof.
  split.
  - apply (proj1 (@authentication_required loopback) server_with_password check_password
                 [greeting_user_pass; auth_frame "testuser" "testpass";
                  connect_127_0_0_1_80]).
    + reflexivity.
    + right. left. exists 1%nat. vm_compute. reflexivity.
  - apply (proj2 (@authentication_required loopback) stream_with_password client
                 check_password
                 [greeting_user_pass; auth_frame "testuser" "testpass";
                  connect_127_0_0_1_80]).
    + reflexivity.
    + right. left. exists 1%nat. vm_compute. reflexivity.
Defined.

Ltac solve_attempts Hinv Hl :=
  unfold attempts, count in *; cbn in *; rewrite Hl in Hinv;
  rewrite ?List.filter_app, ?length_app; cbn; lia.

Section Attempts.
Context `{Node}.

Lemma server_deliver_attempts options buffer w r w' :
  attempts w -> deliver (Server.handlers options) buffer w = (r, w') -> attempts w'.
Proof.
  intros Hinv Hrun. unfold deliver in Hrun.
  destruct (listener (socket w)) as [h| |target] eqn:Hl.
  - destruct h; unfold_server Hrun; handler_cases Hrun; solve_attempts Hinv Hl.
  - by simplify_eq.
  - simplify_eq. solve_attempts Hinv Hl.
Qed.

Lemma stream_deliver_attempts options origin buffer w r w' :
  attempts w -> deliver (StreamServer.handlers options origin) buffer w = (r, w') ->
  attempts w'.
Proof.
  intros Hinv Hrun. unfold deliver in Hrun.
  destruct (listener (socket w)) as [h| |target] eqn:Hl.
  - destruct h; unfold_stream Hrun; handler_cases Hrun; solve_attempts Hinv Hl.
  - by simplify_eq.
  - simplify_eq. solve_attempts Hinv Hl.
Qed.

Lemma attempts_bounds w :
  attempts w ->
  (count calls_factory w <= 1)%nat /\ (count calls_authenticate w <= 1)%nat.
Proof.
  unfold attempts. destruct (listener (socket w)) as [[]| |target]; lia.
Qed.

End Attempts.

(** X15.  One connection makes at most one outbound attempt and at most one
    check of credentials: whatever chunks a client sends on it, either server
    calls the socket factory at most once and the [authenticate] callback at
    most once. *)
Theorem one_attempt_per_connection `{Node} :
  (forall options chunks,
     (count calls_factory (Server.session options chunks).2 <= 1)%nat
     /\ (count calls_authenticate (Server.session options chunks).2 <= 1)%nat)
  /\ (forall options origin chunks,
        (count calls_factory (StreamServer.session options origin chunks).2 <= 1)%nat
        /\ (count calls_authenticate (StreamServer.session options origin chunks).2 <= 1)%nat).
Proof.
  assert (attempts (accepted 0%nat [])) as Hstart by (by compute).
  split.
  - intros options chunks. apply attempts_bounds.
    destruct (Server.session options chunks) as [r w'] eqn:Hrun.
    eapply (feed_invariant (Server.handlers options) attempts); [|exact Hstart|exact Hrun].
    intros buffer w r1 w1. apply server_deliver_attempts.
  - intros options origin chunks. apply attempts_bounds.
    destruct (StreamServer.session options origin chunks) as [r w'] eqn:Hrun.
    eapply (feed_invariant (StreamServer.handlers options origin) attempts);
      [|exact Hstart|exact Hrun].
    intros buffer w r1 w1. apply stream_deliver_attempts.
Qed.

Section Faults.
Context `{Node}.

Lemma server_deliver_unfaulted options buffer w r w' :
  unfaulted w -> deliver (Server.handlers options) buffer w = (r, w') -> unfaulted w'.
Proof.
  unfold unfaulted. intros [Hfaults Hopen] Hrun. unfold deliver in Hrun.
  destruct (listener (socket w)) as [h| |target] eqn:Hl.
  - destruct h; unfold_server Hrun; handler_cases Hrun; done.
  - simplify_eq. by rewrite Hl.
  - by simplify_eq.
Qed.

End Faults.

(** X16.  server.ts never writes to a socket it has ended: whatever chunks a
    client sends, no write of a handler comes after [socket.end()], and a
    socket with a handler armed is not ended.  The first implementation does
    write after the end, in the run of [stream_refused_request_connects]. *)
Theorem server_no_write_after_end `{Node} (options : Server.SocksServerOptions.t)
    (chunks : list Buffer) :
  faults (socket (Server.session options chunks).2) = 0%nat
  /\ (forall h, listener (socket (Server.session options chunks).2) = Once h ->
                ended (socket (Server.session options chunks).2) = false).
Proof.
  assert (unfaulted (accepted 0%nat [])) as Hstart by (by compute).
  destruct (Server.session options chunks) as [r w'] eqn:Hrun. cbn [snd].
  assert (unfaulted w') as [Hfaults Hopen].
  { eapply (feed_invariant (Server.handlers options) unfaulted); [|exact Hstart|exact Hrun].
    intros buffer w r1 w1. apply server_deliver_unfaulted. }
  split; [done|]. intros h Hl. by rewrite Hl in Hopen.
Qed.

(** A session that has only greeted waits for its request on an open socket. *)
Lemma server_no_write_after_end_witness :
  ended (socket (@Server.session loopback server_plain [greeting_no_auth]).2) = false.
Proof.
  apply (proj2 (@server_no_write_after_end loopback server_plain [greeting_no_auth]) Connect).
  reflexivity.
Defined.

(** X18.  Of the nine events that server.ts declares it emits three at most:
    [authenticate], [authenticateError] and [proxyError].  Whatever the
    options and the chunks, a session emits none of [handshake],
    [connectionFilter], [proxyConnect], [proxyData], [proxyDisconnect] and
    [proxyEnd]. *)
Theorem server_events `{Node} (options : Server.SocksServerOptions.t)
    (chunks : list Buffer) (name : EventName) :
  name ∈ [HANDSHAKE; CONNECTION_FILTER; PROXY_CONNECT; PROXY_DATA; PROXY_DISCONNECT; PROXY_END] ->
  count (emits name) (Server.session options chunks).2 = 0%nat.
Proof.
  intros Hname.
  pose proof (server_session_trace options chunks) as Hall. unfold count.
  induction Hall as [|e l He Hl IH]; [done|].
  destruct e as [name' args| | |]; cbn in *; try done.
  case_bool_decide as Hsame; [|done]. subst name'.
  exfalso. rewrite !elem_of_cons, elem_of_nil in Hname.
  destruct He as [-> | [-> | ->]];
    destruct Hname as [?|[?|[?|[?|[?|[?|[]]]]]]]; discriminate.
Qed.

(** A whole session with credentials emits no [handshake]. *)
Lemma server_events_witness :
  count (emits HANDSHAKE)
    (@Server.session loopback server_with_password
       [greeting_user_pass; auth_frame "testuser" "testpass"; connect_127_0_0_1_80]).2
  = 0%nat.
Proof.
  apply (@server_events loopback server_with_password
           [greeting_user_pass; auth_frame "testuser" "testpass"; connect_127_0_0_1_80]
           HANDSHAKE).
  apply elem_of_cons. left. reflexivity.
Defined.

Section Raises.
Context `{Node}.
Variable options : Server.SocksServerOptions.t.

Lemma throws_not_ok {A} (r : result A) : r = Throw RangeError <-> is_Ok r = false.
Proof. destruct r as [a|[]]; cbn; split; congruence. Qed.

Lemma server_greeting_returns buffer w : (Server.greeting options buffer w).1 = Ok tt.
Proof.
  destruct (Server.greeting options buffer w) as [r w'] eqn:Hrun.
  unfold_server Hrun; handler_cases Hrun; done.
Qed.

Lemma server_authenticate_throws buffer w :
  (Server.authenticate options buffer w).1 = Throw RangeError
  <-> match buffer with
      | _ :: ulen :: rest => (length rest <= Z.to_nat (byte_val ulen))%nat
      | _ => True
      end.
Proof.
  rewrite throws_not_ok, server_authenticate_raises, parseAuthRequest_total.
  destruct buffer as [|ver [|ulen rest]]; [done..|].
  rewrite bool_decide_eq_false. lia.
Qed.

Lemma server_connect_throws buffer w :
  (Server.connect options buffer w).1 = Throw RangeError
  <-> match buffer with
      | ver :: _ :: _ :: atyp :: rest =>
          byte_val ver = RFC_1928_VERSION
          /\ ((byte_val atyp = RFC_1928_ATYP.IPV4 /\ (length rest < 6)%nat)
              \/ (byte_val atyp = RFC_1928_ATYP.DOMAINNAME
                  /\ match rest with
                     | [] => True
                     | size :: name => (length name < Z.to_nat (byte_val size) + 2)%nat
                     end)
              \/ (byte_val atyp = RFC_1928_ATYP.IPV6 /\ (length rest < 18)%nat))
      | _ => True
      end.
Proof.
  rewrite throws_not_ok, server_connect_raises.
  destruct buffer as [|ver [|cmd [|rsv [|atyp rest]]]]; [done..|].
  rewrite parseConnectRequest_ok, destination_total. cbn.
  rewrite orb_false_iff, bool_decide_eq_false.
  destruct (decide (byte_val atyp = RFC_1928_ATYP.IPV4)) as [Hv4|Hv4].
  { rewrite bool_decide_eq_false. split.
    - intros [Hver Hshort]. split; [by destruct (decide (byte_val ver = RFC_1928_VERSION)); [|exfalso; auto]|].
      left. split; [done | lia].
    - intros [Hver [[_ Hshort]|[[Hname _]|[Hv6 _]]]];
        [split; [by intros Hne; apply Hne | lia] | rewrite Hv4 in *; discriminate..]. }
  destruct (decide (byte_val atyp = RFC_1928_ATYP.DOMAINNAME)) as [Hname|Hname].
  { split.
    - intros [Hver Hshort]. split; [by destruct (decide (byte_val ver = RFC_1928_VERSION)); [|exfalso; auto]|].
      right. left. split; [done|]. destruct rest as [|size name]; [done|].
      apply bool_decide_eq_false in Hshort. lia.
    - intros [Hver [[Hv4' _]|[[_ Hshort]|[Hv6 _]]]];
        [done | | rewrite Hname in *; discriminate].
      split; [by intros Hne; apply Hne|]. destruct rest as [|size name]; [done|].
      apply bool_decide_eq_false. lia. }
  destruct (decide (byte_val atyp = RFC_1928_ATYP.IPV6)) as [Hv6|Hv6].
  { rewrite bool_decide_eq_false. split.
    - intros [Hver Hshort]. split; [by destruct (decide (byte_val ver = RFC_1928_VERSION)); [|exfalso; auto]|].
      right. right. split; [done | lia].
    - intros [Hver [[Hv4' _]|[[Hname' _]|[_ Hshort]]]]; [done | done |].
      split; [by intros Hne; apply Hne | lia]. }
  split; [by intros [_ ?] | by intros [_ [[? _]|[[? _]|[? _]]]]].
Qed.

End Raises.

(** X19.  Where the handlers of server.ts raise.  The greeting handler never
    does, whatever the chunk, the empty one included.  [authenticate] raises
    a RangeError exactly when the chunk stops before the byte that holds the
    length of the password.  [connect] raises exactly when the chunk has
    fewer than four bytes, or has version 5 and an address of type 1, 3 or 4
    that stops before the end of its port; a request of another version or
    another address type is answered however short it is. *)
Theorem server_raises_exactly `{Node} (options : Server.SocksServerOptions.t)
    (buffer : Buffer) (w : World) :
  (Server.greeting options buffer w).1 = Ok tt
  /\ ((Server.authenticate options buffer w).1 = Throw RangeError
      <-> match buffer with
          | _ :: ulen :: rest => (length rest <= Z.to_nat (byte_val ulen))%nat
          | _ => True
          end)
  /\ ((Server.connect options buffer w).1 = Throw RangeError
      <-> match buffer with
          | ver :: _ :: _ :: atyp :: rest =>
              byte_val ver = RFC_1928_VERSION
              /\ ((byte_val atyp = RFC_1928_ATYP.IPV4 /\ (length rest < 6)%nat)
                  \/ (byte_val atyp = RFC_1928_ATYP.DOMAINNAME
                      /\ match rest with
                         | [] => True
                         | size :: name => (length name < Z.to_nat (byte_val size) + 2)%nat
                         end)
                  \/ (byte_val atyp = RFC_1928_ATYP.IPV6 /\ (length rest < 18)%nat))
          | _ => True
          end).
Proof.
  split_and!.
  - apply server_greeting_returns.
  - apply server_authenticate_throws.
  - apply server_connect_throws.
Qed.

(** A domain name announced with eleven bytes and cut after ten. *)
Example server_connect_raises_on_short_name :
  (@Server.connect loopback server_plain
     ([x05; x01; x00; x03; x0b] ++ list_byte_of_string "example.co") (accepted 0%nat [])).1
  = Throw RangeError
  /\ (@Server.connect loopback server_plain
        ([x04; x01; x00; x03; x0b] ++ list_byte_of_string "example.co") (accepted 0%nat [])).1
     = Ok tt.
Proof. vm_compute. done. Qed.

(** ** The registry of server.ts, once more *)

Section RegistrySound.
Context `{Node}.
Variable options : Server.SocksServerOptions.t.

Lemma server_connect_listener buffer w r w' :
  listener (socket w) = NoListener ->
  Server.connect options buffer w = (r, w') ->
  forall h, listener (socket w') <> Once h.
Proof.
  intros Hl Hrun h. unfold_server Hrun; handler_cases Hrun; by rewrite ?Hl.
Qed.

Lemma on_data_registry_sound st id buffer :
  registry_sound st -> registry_sound (Server.on_data options id buffer st).
Proof.
  intros [Hnodup Hsettled]. unfold Server.on_data.
  destruct (Server.connections st !! id) as [s|] eqn:Hs; [|done].
  unfold deliver; cbn [socket].
  destruct (listener s) as [h| |target] eqn:Hl.
  - assert (id ∉ Server.activeSessions st) as Hfresh.
    { intros Hin. destruct (Hsettled id Hin) as (s' & Hs' & Hno).
      simplify_eq. by apply (Hno h). }
    destruct (Server.handlers options h buffer _) as [r w'] eqn:Hrun.
    pose proof (handlers_registry options h buffer _ r w' Hrun) as Hreg. cbn in Hreg.
    assert (Net.activeSessions w' = Server.activeSessions st
            \/ (h = Connect /\ Net.activeSessions w' = Server.activeSessions st ++ [id]))
      as Hcases by (destruct h; repeat case_match; auto).
    split; cbn.
    + destruct Hcases as [->|[_ ->]]; [done|].
      apply NoDup_app. split_and!; [done | | apply NoDup_singleton].
      intros x Hx Hx'. apply list_elem_of_singleton in Hx'. by subst.
    + intros id' Hin. destruct (decide (id' = id)) as [->|Hne].
      * rewrite lookup_insert_eq. eexists. split; [done|].
        destruct Hcases as [Hsame|[-> _]]; [by rewrite Hsame in Hin|].
        cbn [Server.handlers] in Hrun.
        eapply server_connect_listener; [|exact Hrun]. done.
      * rewrite lookup_insert_ne by done. apply Hsettled.
        destruct Hcases as [Hsame|[_ Hpush]]; [by rewrite <- Hsame|].
        rewrite Hpush in Hin. apply elem_of_app in Hin as [?|Hin]; [done|].
        apply list_elem_of_singleton in Hin. by subst.
  - split; cbn; [done|]. intros id' Hin. destruct (decide (id' = id)) as [->|Hne].
    + rewrite lookup_insert_eq. eexists. split; [done|]. intros h. by rewrite Hl.
    + rewrite lookup_insert_ne by done. by apply Hsettled.
  - split; cbn; [done|]. intros id' Hin. destruct (decide (id' = id)) as [->|Hne].
    + rewrite lookup_insert_eq. eexists. split; [done|]. intros h. cbn. by rewrite ?Hl.
    + rewrite lookup_insert_ne by done. by apply Hsettled.
Qed.

Lemma step_registry_sound st i :
  registry_sound st -> registry_sound (Server.step options st i).
Proof.
  intros Hst. unfold Server.step.
  destruct (Server.uncaught st); [done|].
  destruct i as [id|id buffer|].
  - case_match eqn:Hnew; [|done]. apply andb_true_iff in Hnew as [_ Hnew].
    apply bool_decide_eq_true in Hnew.
    destruct Hst as [Hnodup Hsettled]. split; cbn; [done|].
    intros id' Hin. destruct (Hsettled id' Hin) as (s & Hs & Hno).
    exists s. split; [|done]. rewrite lookup_insert_ne; [done|]. by intros ->; simplify_eq.
  - by apply on_data_registry_sound.
  - destruct Hst as [Hnodup Hsettled]. split; [done|].
    intros id' Hin. cbn [Server.activeSessions Server.close] in Hin.
    rewrite close_connections. destruct (Hsettled id' Hin) as (s & -> & Hno).
    eexists. split; [done|]. by case_bool_decide.
Qed.

Lemma run_registry_sound st inputs :
  registry_sound st -> registry_sound (Server.run options st inputs).
Proof.
  revert st. induction inputs as [|i inputs IH]; intros st Hst; [done|].
  cbn. apply IH. by apply step_registry_sound.
Qed.

End RegistrySound.

(** X20.  Whatever happens to a server created by server.ts, connections,
    chunks and calls of [close()] in any order, [activeSessions] holds no
    socket twice, and no socket on it waits for a greeting, credentials or a
    request: a socket is registered once, by the one request its session
    reads, so that [close()] calls [end()] once on each registered socket and
    on no session that is still negotiating. *)
Theorem registry_without_duplicates `{Node} (options : Server.SocksServerOptions.t)
    (inputs : list Server.Input) :
  let st := Server.run options Server.created inputs in
  NoDup (Server.activeSessions st)
  /\ (forall id, id ∈ Server.activeSessions st ->
        exists s, Server.connections st !! id = Some s /\ forall h, listener s <> Once h).
Proof.
  cbv zeta.
  assert (registry_sound Server.created) as Hstart.
  { split; [apply NoDup_nil_2|]. intros id Hin. by apply elem_of_nil in Hin. }
  apply (run_registry_sound options Server.created inputs Hstart).
Qed.

(** Two clients; the first sends its request twice, the second only greets. *)
Example registry_after_a_repeated_request :
  let st := @Server.run loopback server_plain Server.created
              [Server.Connection 1%nat; Server.Connection 2%nat;
               Server.Data 1%nat greeting_no_auth; Server.Data 2%nat greeting_no_auth;
               Server.Data 1%nat connect_127_0_0_1_80;
               Server.Data 1%nat connect_127_0_0_1_80] in
  Server.activeSessions st = [1%nat]
  /\ Server.closed_by_close (Server.close st) = [1%nat].
Proof. vm_compute. done. Qed.

(** The registered socket of a relaying session. *)
Lemma registry_without_duplicates_witness :
  exists s,
    Server.connections
      (@Server.run loopback server_plain Server.created
         [Server.Connection 1%nat; Server.Data 1%nat greeting_no_auth;
          Server.Data 1%nat connect_127_0_0_1_80]) !! 1%nat = Some s
    /\ forall h, listener s <> Once h.
Proof.
  apply (proj2 (@registry_without_duplicates loopback server_plain
                  [Server.Connection 1%nat; Server.Data 1%nat greeting_no_auth;
                   Server.Data 1%nat connect_127_0_0_1_80]) 1%nat).
  assert (Server.activeSessions
            (@Server.run loopback server_plain Server.created
               [Server.Connection 1%nat; Server.Data 1%nat greeting_no_auth;
                Server.Data 1%nat connect_127_0_0_1_80]) = [1%nat]) as -> by reflexivity.
  apply elem_of_cons. left. reflexivity.
Defined.

(** ** The events of the first implementation *)

Ltac solve_handshake Hinv Hl :=
  unfold handshake_once, count in *; cbn in *; rewrite Hl in Hinv; rewrite ?Hl;
  rewrite ?List.filter_app, ?length_app; cbn;
  repeat (case_bool_decide; try done); cbn; lia.

Section Handshake.
Context `{Node}.

Lemma stream_deliver_handshake options origin buffer w r w' :
  handshake_once w -> deliver (StreamServer.handlers options origin) buffer w = (r, w') ->
  handshake_once w'.
Proof.
  intros Hinv Hrun. unfold deliver in Hrun.
  destruct (listener (socket w)) as [h| |target] eqn:Hl.
  - destruct h; unfold_stream Hrun; handler_cases Hrun; solve_handshake Hinv Hl.
  - by simplify_eq.
  - simplify_eq. solve_handshake Hinv Hl.
Qed.

End Handshake.

(** X21.  The first implementation emits [handshake] once per negotiated
    session: whatever chunks a client sends, a session that waits for
    credentials or for a request, or that relays, has emitted it exactly
    once, a session that still waits for its greeting has not emitted it,
    and no session emits it more than once. *)
Theorem stream_handshake_once `{Node} (options : StreamServer.SocksServerOptions.t)
    (origin : Endpoint) (chunks : list Buffer) :
  let w := (StreamServer.session options origin chunks).2 in
  (count (emits HANDSHAKE) w <= 1)%nat
  /\ (listener (socket w) = Once Authenticate \/ listener (socket w) = Once Connect
      \/ Relaying w ->
      count (emits HANDSHAKE) w = 1%nat)
  /\ (listener (socket w) = Once Greeting -> count (emits HANDSHAKE) w = 0%nat).
Proof.
  cbv zeta.
  assert (handshake_once (accepted 0%nat [])) as Hstart by (by compute).
  destruct (StreamServer.session options origin chunks) as [r w'] eqn:Hrun. cbn [snd].
  assert (handshake_once w') as Hshake.
  { eapply (feed_invariant (StreamServer.handlers options origin) handshake_once);
      [|exact Hstart|exact Hrun].
    intros buffer w r1 w1. apply stream_deliver_handshake. }
  unfold handshake_once, Relaying in *.
  split_and!.
  - destruct (listener (socket w')) as [[]| |target]; lia.
  - intros [Hl|[Hl|[target Hl]]]; by rewrite Hl in Hshake.
  - intros Hl. by rewrite Hl in Hshake.
Qed.

(** A session with credentials that relays. *)
Lemma stream_handshake_once_witness :
  count (emits HANDSHAKE)
    (@StreamServer.session loopback stream_with_password client
       [greeting_user_pass; auth_frame "testuser" "testpass"; connect_127_0_0_1_80]).2
  = 1%nat.
Proof.
  apply (proj1 (proj2 (@stream_handshake_once loopback stream_with_password client
                         [greeting_user_pass; auth_frame "testuser" "testpass";
                          connect_127_0_0_1_80]))).
  right. right. exists 1%nat. vm_compute. reflexivity.
Defined.

(** The end of the outbound stream ends the socket of a relaying session and
    no [proxyEnd] is emitted: the event tells the ends the server decides. *)
Example outbound_end_unannounced :
  let w := (outbound_end
              (@StreamServer.session loopback stream_plain client
                 [greeting_no_auth; connect_127_0_0_1_80]).2).2 in
  Closed w /\ count (emits PROXY_END) w = 0%nat.
Proof. vm_compute. done. Qed.
